(** * The shared background: cache store and background resolver

    A shallow embedding of [src/components/SharedBackground.tsx]: the
    presentation component [SharedBackground] and, after the separator, the
    context module with [getCachedBackground], [setCachedBackground],
    [getRandomGradient], [loadImageWithTimeout], [tryLoadImageFromSources],
    [BackgroundProvider] and [useBackground].

    The JavaScript environment the code runs in is made explicit as a
    [World]: the [window] object, [localStorage], the wall clock behind
    [Date.now()], the values [Math.random()] hands out, the behaviour of the
    network for every image URL, the console, and the React state of the
    provider.  Every function of the source is a computation in the monad
    [M] of world-passing programs that may throw.

    TypeScript's types are erased when the code runs: what [JSON.parse]
    returns is whatever the stored text holds, so the values that flow from
    the cache into the provider's state are untyped JavaScript values
    ([Value]), and numbers are binary64 doubles ([Number]). *)

From Stdlib Require Import ZArith Lia SpecFloat.
From stdpp Require Import gmap strings list pretty.

Open Scope Z_scope.

(** ** Exceptions and the monad of effectful programs *)

(** The exceptions the modelled code can meet. *)
Inductive Exn :=
| SecurityError          (* localStorage is blocked for this origin *)
| QuotaExceededError     (* localStorage.setItem has no room left *)
| SyntaxError            (* JSON.parse on a text that is not JSON *)
| TypeError              (* a property read on null, a call of a non-function,
                            an object with no primitive value *)
| ReferenceError         (* a global (Image) that does not exist *)
| Error (message : string).

Inductive Result (A : Type) :=
| Ok (a : A)
| Throw (e : Exn).
Arguments Ok {A} a.
Arguments Throw {A} e.

(** ** Numbers *)

(** A JavaScript number: NaN, an infinity, or the dyadic rational
    [m * 2^e].  A double is a number with [|m| < 2^53] and
    [-1074 <= e <= 971]; the arithmetic below takes any dyadic operands and
    rounds the exact result to a double, as IEEE 754 prescribes.  The sign
    of zero, which no operation of this program can observe, is not
    kept. *)
Inductive Number :=
| NaN
| Infinity (negative : bool)
| Dyadic (m e : Z).

(** An integer as a number. *)
Definition of_Z (n : Z) : Number := Dyadic n 0.

(** [n / 2^s] rounded to the nearest integer, a tie to the even one
    ([0 <= n], [0 < s]). *)
Definition round_half_even (n s : Z) : Z :=
  let q := n / 2 ^ s in
  let r := n mod 2 ^ s in
  let half := 2 ^ (s - 1) in
  if r <? half then q
  else if half <? r then q + 1
  else if Z.even q then q
  else q + 1.

(** The double nearest to [m * 2^e] (binary64: 53 bits of mantissa, least
    exponent -1074, round to nearest, ties to even, overflow to an infinity
    from [2^1024] on). *)
Definition round64 (m e : Z) : Number :=
  let a := Z.abs m in
  let e' := Z.max (e + (Z.log2 a + 1) - 53) (-1074) in
  let a' := if e' <=? e then a else round_half_even a (e' - e) in
  let e'' := Z.max e e' in
  if a' =? 0 then Dyadic 0 0
  else if 1024 <? Z.log2 a' + 1 + e'' then Infinity (m <? 0)
  else Dyadic (Z.sgn m * a') e''.

(** [x - y] *)
Definition Number_sub (x y : Number) : Number :=
  match x, y with
  | NaN, _ | _, NaN => NaN
  | Infinity a, Infinity b => if Bool.eqb a b then NaN else Infinity a
  | Infinity a, Dyadic _ _ => Infinity a
  | Dyadic _ _, Infinity b => Infinity (negb b)
  | Dyadic m1 e1, Dyadic m2 e2 =>
      let e := Z.min e1 e2 in
      round64 (m1 * 2 ^ (e1 - e) - m2 * 2 ^ (e2 - e)) e
  end.

(** [x * y] *)
Definition Number_mul (x y : Number) : Number :=
  match x, y with
  | NaN, _ | _, NaN => NaN
  | Infinity a, Infinity b => Infinity (xorb a b)
  | Infinity a, Dyadic m _ | Dyadic m _, Infinity a =>
      if m =? 0 then NaN else Infinity (xorb a (m <? 0))
  | Dyadic m1 e1, Dyadic m2 e2 => round64 (m1 * m2) (e1 + e2)
  end.

(** [x > y]: false as soon as one side is NaN. *)
Definition Number_gt (x y : Number) : bool :=
  match x, y with
  | NaN, _ | _, NaN => false
  | Infinity a, Infinity b => negb a && b
  | Infinity a, Dyadic _ _ => negb a
  | Dyadic _ _, Infinity b => b
  | Dyadic m1 e1, Dyadic m2 e2 =>
      let e := Z.min e1 e2 in
      m2 * 2 ^ (e2 - e) <? m1 * 2 ^ (e1 - e)
  end.

(** [Math.floor(x)] *)
Definition Math_floor (x : Number) : Number :=
  match x with
  | Dyadic m e =>
      if 0 <=? e then Dyadic (m * 2 ^ e) 0 else Dyadic (m / 2 ^ (- e)) 0
  | _ => x
  end.

(** The integer a number is, if it is one. *)
Definition integer_value (x : Number) : option Z :=
  match x with
  | Dyadic m e =>
      if 0 <=? e then Some (m * 2 ^ e)
      else if m mod 2 ^ (- e) =? 0 then Some (m / 2 ^ (- e))
      else None
  | _ => None
  end.

(** ** Values *)

(** An untyped JavaScript value, as far as [JSON.parse] and property reads
    can produce one: [JSON.parse] yields every constructor but
    [VUndefined], which a read of a missing property adds.  The members of
    an object are those of its JSON text, in order. *)
#[warnings="-register-all"]
Inductive Value :=
| VUndefined
| VNull
| VBool (b : bool)
| VNumber (x : Number)
| VString (s : string)
| VArray (elements : list Value)
| VObject (members : list (string * Value)).

Coercion VString : string >-> Value.

(** The own property [key] of an object with the given members;
    [JSON.parse] keeps the last of several members with one name. *)
Fixpoint own_property (members : list (string * Value)) (key : string)
  : option Value :=
  match members with
  | [] => None
  | (k, v) :: rest =>
      match own_property rest key with
      | Some later => Some later
      | None => if String.eqb k key then Some v else None
      end
  end.

(** [v.key] for the keys the code reads, [url], [timestamp], [type] and
    [value]: a read on null or undefined throws; no prototype of a JSON
    value defines one of these keys, so anything but an own property of an
    object is undefined. *)
Definition read_property (v : Value) (key : string) : Result Value :=
  match v with
  | VUndefined | VNull => Throw TypeError
  | VObject members => Ok (default VUndefined (own_property members key))
  | _ => Ok VUndefined
  end.

(** Truthiness: [if (v)], [!v]. *)
Definition truthy_value (v : Value) : bool :=
  match v with
  | VUndefined | VNull => false
  | VBool b => b
  | VNumber NaN => false
  | VNumber (Infinity _) => true
  | VNumber (Dyadic m _) => negb (m =? 0)
  | VString s => negb (String.eqb s "")
  | VArray _ | VObject _ => true
  end.

(** [v === s] for a string [s]. *)
Definition strict_equals (v : Value) (s : string) : bool :=
  match v with
  | VString s' => String.eqb s' s
  | _ => false
  end.

(** The conversions between numbers and strings are the engine's
    (ECMA-262 StringToNumber and Number::toString).  The program applies
    them only to what a foreign cache entry holds; they are taken as
    given. *)
Record Engine := {
  StringToNumber : string -> Number;
  NumberToString : Number -> string
}.

(** [Array.prototype.join], given the conversion of one element to a
    string: the strings of the elements with commas between them, null and
    undefined elements counting as empty strings. *)
Definition join (to_string : Value -> Result string)
  : list Value -> Result string :=
  fix join (l : list Value) : Result string :=
    match l with
    | [] => Ok ""
    | x :: rest =>
        match
          match x with
          | VUndefined | VNull => Ok ""
          | _ => to_string x
          end
        with
        | Throw e => Throw e
        | Ok s =>
            match rest with
            | [] => Ok s
            | _ :: _ =>
                match join rest with
                | Throw e => Throw e
                | Ok t => Ok (s +:+ "," +:+ t)
                end
            end
        end
    end.

(** ToString, as a template literal applies it.  An array is joined; an
    object from [JSON.parse] has no callable [toString] of its own, so it
    prints as [[object Object]] through [Object.prototype.toString],
    unless an own member [toString] hides that one, in which case there is
    nothing to call ([valueOf] returns the object itself) and the
    conversion throws. *)
Fixpoint ToString (engine : Engine) (v : Value) : Result string :=
  match v with
  | VUndefined => Ok "undefined"
  | VNull => Ok "null"
  | VBool b => Ok (if b then "true" else "false")
  | VNumber x => Ok (NumberToString engine x)
  | VString s => Ok s
  | VArray elements => join (ToString engine) elements
  | VObject members =>
      match own_property members "toString" with
      | Some _ => Throw TypeError
      | None => Ok "[object Object]"
      end
  end.

(** ToNumber, as [-] applies it to its operands.  Arrays and objects go
    through their string. *)
Definition ToNumber (engine : Engine) (v : Value) : Result Number :=
  match v with
  | VUndefined => Ok NaN
  | VNull => Ok (of_Z 0)
  | VBool b => Ok (of_Z (if b then 1 else 0))
  | VNumber x => Ok x
  | VString s => Ok (StringToNumber engine s)
  | VArray _ | VObject _ =>
      match ToString engine v with
      | Ok s => Ok (StringToNumber engine s)
      | Throw e => Throw e
      end
  end.

(** ** Data model *)

(** [type: 'image' | 'gradient'], the first parameter of
    [setCachedBackground]. *)
Inductive BgType := image | gradient.

Definition type_tag (t : BgType) : string :=
  match t with
  | image => "image"
  | gradient => "gradient"
  end.

(** [interface BackgroundCache]: the shape of the object that
    [setCachedBackground] builds and that the cache is meant to hold, with
    strings for [url], [type] and [value] and a whole number of
    milliseconds, or nothing, for [timestamp].  Nothing checks a parsed
    value against this interface: what the cache read returns is a
    [Value]. *)
Record BackgroundCache := {
  url : string;
  timestamp : option Z;
  type : string;
  value : string
}.

(** The object of that shape. *)
Definition record_value (d : BackgroundCache) : Value :=
  VObject
    ([("url", VString (url d))] ++
     match timestamp d with
     | Some t => [("timestamp", VNumber (of_Z t))]
     | None => []
     end ++
     [("type", VString (type d)); ("value", VString (value d))]).

(** The text stored under a [localStorage] key, kept by what the
    truthiness test and [JSON.parse] make of it: the empty string, a text
    that is not JSON, or the JSON text of a value. *)
Inductive StoredText :=
| text_empty                   (* the empty string: falsy *)
| text_invalid                 (* not JSON: [JSON.parse] throws *)
| text_json (v : Value).       (* JSON for [v] *)

(** The JSON text of a record-shaped object. *)
Definition text_record (d : BackgroundCache) : StoredText :=
  text_json (record_value d).

(** [localStorage]: blocked storage throws on every access, full storage
    throws on [setItem]. *)
Record Storage := {
  blocked : bool;
  full : bool;
  items : gmap string StoredText
}.

Record Window := { innerWidth : Z }.

(** What the network does with an image request: the [load] event after
    [after] ms, the [error] event after [after] ms, or no event at all. *)
Inductive ImgBehaviour :=
| Loads (after : N)
| Fails (after : N)
| Stalls.

(** One preload as the network saw it: the URL given to [img.src], when
    the request started and when its promise settled. *)
Record Attempt := {
  req_url : string;
  req_start : Z;
  req_end : Z
}.

Record World := {
  (* the environment *)
  engine : Engine;
  window : option Window;          (* [None]: typeof window === 'undefined' *)
  localStorage : Storage;
  clock : Z;                       (* Date.now(), in ms *)
  entropy : nat -> Number;         (* the successive values of Math.random() *)
  draws : nat;                     (* how many of them were consumed *)
  network : string -> ImgBehaviour;
  requests : list Attempt;         (* every preload, oldest first *)
  console : list (string * Exn);   (* console.error, oldest first *)
  (* the provider: its two useState cells and the effect's [mounted] *)
  backgroundUrl : Value;
  isLoaded : bool;
  mounted : bool
}.

Definition with_localStorage (s : Storage) (w : World) : World :=
  {| engine := engine w;
     window := window w; localStorage := s; clock := clock w;
     entropy := entropy w; draws := draws w; network := network w;
     requests := requests w; console := console w;
     backgroundUrl := backgroundUrl w; isLoaded := isLoaded w;
     mounted := mounted w |}.

Definition with_clock (t : Z) (w : World) : World :=
  {| engine := engine w;
     window := window w; localStorage := localStorage w; clock := t;
     entropy := entropy w; draws := draws w; network := network w;
     requests := requests w; console := console w;
     backgroundUrl := backgroundUrl w; isLoaded := isLoaded w;
     mounted := mounted w |}.

Definition with_draws (n : nat) (w : World) : World :=
  {| engine := engine w;
     window := window w; localStorage := localStorage w; clock := clock w;
     entropy := entropy w; draws := n; network := network w;
     requests := requests w; console := console w;
     backgroundUrl := backgroundUrl w; isLoaded := isLoaded w;
     mounted := mounted w |}.

Definition with_requests (l : list Attempt) (w : World) : World :=
  {| engine := engine w;
     window := window w; localStorage := localStorage w; clock := clock w;
     entropy := entropy w; draws := draws w; network := network w;
     requests := l; console := console w;
     backgroundUrl := backgroundUrl w; isLoaded := isLoaded w;
     mounted := mounted w |}.

Definition with_console (l : list (string * Exn)) (w : World) : World :=
  {| engine := engine w;
     window := window w; localStorage := localStorage w; clock := clock w;
     entropy := entropy w; draws := draws w; network := network w;
     requests := requests w; console := l;
     backgroundUrl := backgroundUrl w; isLoaded := isLoaded w;
     mounted := mounted w |}.

Definition with_backgroundUrl (v : Value) (w : World) : World :=
  {| engine := engine w;
     window := window w; localStorage := localStorage w; clock := clock w;
     entropy := entropy w; draws := draws w; network := network w;
     requests := requests w; console := console w;
     backgroundUrl := v; isLoaded := isLoaded w;
     mounted := mounted w |}.

Definition with_isLoaded (b : bool) (w : World) : World :=
  {| engine := engine w;
     window := window w; localStorage := localStorage w; clock := clock w;
     entropy := entropy w; draws := draws w; network := network w;
     requests := requests w; console := console w;
     backgroundUrl := backgroundUrl w; isLoaded := b;
     mounted := mounted w |}.

Definition with_mounted (b : bool) (w : World) : World :=
  {| engine := engine w;
     window := window w; localStorage := localStorage w; clock := clock w;
     entropy := entropy w; draws := draws w; network := network w;
     requests := requests w; console := console w;
     backgroundUrl := backgroundUrl w; isLoaded := isLoaded w;
     mounted := b |}.

(** A program: it runs in a world, changes it, and returns or throws.  The
    changes made before a throw stay, as in JavaScript. *)
Definition M (A : Type) : Type := World -> Result A * World.

Definition ret {A} (a : A) : M A := fun w => (Ok a, w).

Definition throw {A} (e : Exn) : M A := fun w => (Throw e, w).

Definition bind {A B} (m : M A) (k : A -> M B) : M B :=
  fun w =>
    match m w with
    | (Ok a, w') => k a w'
    | (Throw e, w') => (Throw e, w')
    end.

(** [try { body } catch (e) { handler }] *)
Definition try_catch {A} (body : M A) (handler : Exn -> M A) : M A :=
  fun w =>
    match body w with
    | (Ok a, w') => (Ok a, w')
    | (Throw e, w') => handler e w'
    end.

Definition gets {A} (f : World -> A) : M A := fun w => (Ok (f w), w).

Definition modify (f : World -> World) : M unit := fun w => (Ok tt, f w).

(** An operation of the language that returns or throws and touches
    nothing. *)
Definition eval {A} (f : World -> Result A) : M A := fun w => (f w, w).

Declare Scope js_scope.
Delimit Scope js_scope with js.
Notation "x <- m ;; k" := (bind m (fun x => k))
  (at level 100, m at next level, right associativity) : js_scope.
Notation "m ;;; k" := (bind m (fun _ => k))
  (at level 100, right associativity) : js_scope.
Open Scope js_scope.

(** The world a program leaves behind, and what it returned. *)
Definition exec {A} (m : M A) (w : World) : World := snd (m w).
Definition outcome {A} (m : M A) (w : World) : Result A := fst (m w).

(** ** The browser primitives the code calls *)

(** [typeof window === 'undefined'] *)
Definition typeof_window_undefined : M bool :=
  gets (fun w => match window w with None => true | Some _ => false end).

(** [Date.now()]: a whole number of milliseconds. *)
Definition Date_now : M Z := gets clock.

(** [Math.random()]: the next value of the world's entropy. *)
Definition Math_random : M Number :=
  fun w => (Ok (entropy w (draws w)), with_draws (S (draws w)) w).

(** [console.error(message, error)] *)
Definition console_error (message : string) (error : Exn) : M unit :=
  modify (fun w => with_console (console w ++ [(message, error)]) w).

(** [localStorage.getItem(key)]: [None] is JavaScript's [null]. *)
Definition localStorage_getItem (key : string) : M (option StoredText) :=
  fun w =>
    if blocked (localStorage w) then (Throw SecurityError, w)
    else (Ok (items (localStorage w) !! key), w).

(** [localStorage.setItem(key, text)] *)
Definition localStorage_setItem (key : string) (text : StoredText) : M unit :=
  fun w =>
    let s := localStorage w in
    if blocked s then (Throw SecurityError, w)
    else if full s then (Throw QuotaExceededError, w)
    else (Ok tt,
          with_localStorage
            {| blocked := blocked s; full := full s;
               items := <[key := text]> (items s) |} w).

(** [localStorage.removeItem(key)] *)
Definition localStorage_removeItem (key : string) : M unit :=
  fun w =>
    let s := localStorage w in
    if blocked s then (Throw SecurityError, w)
    else (Ok tt,
          with_localStorage
            {| blocked := blocked s; full := full s;
               items := delete key (items s) |} w).

(** [JSON.parse(text)] *)
Definition JSON_parse (text : StoredText) : M Value :=
  match text with
  | text_empty => throw SyntaxError
  | text_invalid => throw SyntaxError
  | text_json v => ret v
  end.

(** [JSON.stringify(data)] for the object [setCachedBackground] builds. *)
Definition JSON_stringify (data : BackgroundCache) : StoredText :=
  text_record data.

(** Truthiness of [string | null], the result of [getItem]: null and the
    empty string are falsy. *)
Definition truthy_text (cached : option StoredText) : bool :=
  match cached with
  | None => false
  | Some text_empty => false
  | Some _ => true
  end.

(** The text behind a [string | null] that passed the truthiness test. *)
Definition as_text (cached : option StoredText) : StoredText :=
  default text_empty cached.

(** [data.key] *)
Definition get (data : Value) (key : string) : M Value :=
  eval (fun _ => read_property data key).

(** [now - v] for a whole number [now]: the right operand is converted to
    a number, which may throw. *)
Definition minus (now : Z) (v : Value) : M Number :=
  eval (fun w =>
          match ToNumber (engine w) v with
          | Ok n => Ok (Number_sub (of_Z now) n)
          | Throw e => Throw e
          end).

(** The template literal [`gradient:${v}`]. *)
Definition gradient_template (v : Value) : M string :=
  eval (fun w =>
          match ToString (engine w) v with
          | Ok s => Ok ("gradient:" +:+ s)
          | Throw e => Throw e
          end).

(** ** Cache store *)

Definition BG_CACHE_KEY : string := "app_background_cache".
Definition BG_EXPIRE_TIME : Z := 24 * 60 * 60 * 1000.
Definition LOAD_TIMEOUT : Z := 8000.

Definition getCachedBackground : M Value :=
  undef <- typeof_window_undefined ;;
  if undef : bool then ret VNull
  else
    try_catch
      (cached <- localStorage_getItem BG_CACHE_KEY ;;
       if negb (truthy_text cached) then ret VNull
       else
         data <- JSON_parse (as_text cached) ;;
         now <- Date_now ;;
         ts <- get data "timestamp" ;;
         age <- minus now ts ;;
         if Number_gt age (of_Z BG_EXPIRE_TIME) then
           localStorage_removeItem BG_CACHE_KEY ;;;
           ret VNull
         else ret data)
      (fun _ => ret VNull).

Definition setCachedBackground (ty : BgType) (val : string) : M unit :=
  undef <- typeof_window_undefined ;;
  if undef : bool then ret tt
  else
    try_catch
      (now <- Date_now ;;
       let data :=
         {| url := val; timestamp := Some now; type := type_tag ty;
            value := val |} in
       localStorage_setItem BG_CACHE_KEY (JSON_stringify data))
      (fun error => console_error "Failed to cache background:" error).

(** ** Fallback gradients *)

Definition FALLBACK_GRADIENTS : list string :=
  [ "linear-gradient(135deg, #667eea 0%, #764ba2 100%)";
    "linear-gradient(135deg, #f093fb 0%, #f5576c 100%)";
    "linear-gradient(135deg, #4facfe 0%, #00f2fe 100%)";
    "linear-gradient(135deg, #43e97b 0%, #38f9d7 100%)";
    "linear-gradient(135deg, #fa709a 0%, #fee140 100%)";
    "linear-gradient(135deg, #30cfd0 0%, #330867 100%)";
    "linear-gradient(135deg, #a8edea 0%, #fed6e3 100%)";
    "linear-gradient(135deg, #ff9a9e 0%, #fecfef 100%)";
    "linear-gradient(135deg, #ffecd2 0%, #fcb69f 100%)";
    "linear-gradient(135deg, #ff6e7f 0%, #bfe9ff 100%)" ].

(** [Math.floor(r * n)], in double arithmetic. *)
Definition random_index (r : Number) (n : nat) : Number :=
  Math_floor (Number_mul r (of_Z (Z.of_nat n))).

(** [array[index]] read into a template literal: an index that is no
    position of the array reads [undefined], which the template prints as
    the word.  [Math.random()] never leads there
    ([random_index_in_range]). *)
Definition array_at (array : list string) (index : Number) : string :=
  match integer_value index with
  | Some i =>
      if i <? 0 then "undefined"
      else default "undefined" (array !! Z.to_nat i)
  | None => "undefined"
  end.

Definition getRandomGradient : M string :=
  r <- Math_random ;;
  let index := random_index r (length FALLBACK_GRADIENTS) in
  ret (array_at FALLBACK_GRADIENTS index).

(** ** Preloading one image against a timer *)

(** The closure state of one [loadImageWithTimeout] call. *)
Record Preload := {
  onload : bool;      (* img.onload is handleSuccess (or null) *)
  onerror : bool;     (* img.onerror is handleError (or null) *)
  timeoutId : bool;   (* the timer is set and was not cleared *)
  resolved : bool;
  promise : option (Z * option string)
                      (* when the promise settled, and with what *)
}.

(** What the event loop can deliver to one preload. *)
Inductive Signal := sig_load | sig_error | sig_timer.

Definition cleanup (p : Preload) : Preload :=
  {| onload := false; onerror := false; timeoutId := false;
     resolved := resolved p; promise := promise p |}.

Definition mark_resolved (p : Preload) : Preload :=
  {| onload := onload p; onerror := onerror p; timeoutId := timeoutId p;
     resolved := true; promise := promise p |}.

(** [resolve(v)] at time [t]: a promise settles once. *)
Definition resolve (t : Z) (v : option string) (p : Preload) : Preload :=
  match promise p with
  | Some _ => p
  | None =>
      {| onload := onload p; onerror := onerror p; timeoutId := timeoutId p;
         resolved := resolved p; promise := Some (t, v) |}
  end.

Definition handleSuccess (src : string) (t : Z) (p : Preload) : Preload :=
  if resolved p then p
  else resolve t (Some src) (cleanup (mark_resolved p)).

Definition handleError (t : Z) (p : Preload) : Preload :=
  if resolved p then p
  else resolve t None (cleanup (mark_resolved p)).

(** The callback given to [setTimeout]. *)
Definition handleTimeout (t : Z) (p : Preload) : Preload :=
  if resolved p then p
  else resolve t None (cleanup (mark_resolved p)).

(** The state when the promise executor returns: both handlers installed,
    the timer armed, [img.src] assigned. *)
Definition preload_started : Preload :=
  {| onload := true; onerror := true; timeoutId := true;
     resolved := false; promise := None |}.

(** An event reaches its handler only while the handler is installed; a
    cleared timer does not fire. *)
Definition deliver (src : string) (p : Preload) (s : Z * Signal) : Preload :=
  match snd s with
  | sig_load => if onload p then handleSuccess src (fst s) p else p
  | sig_error => if onerror p then handleError (fst s) p else p
  | sig_timer => if timeoutId p then handleTimeout (fst s) p else p
  end.

(** The delay [setTimeout(handler, timeout)] arms its timer with, for a
    whole number [timeout] (HTML, timer initialisation steps): the
    argument is converted to a 32-bit signed integer, and a negative delay
    counts as 0. *)
Definition timer_delay (timeout : Z) : Z :=
  Z.max 0 ((timeout + 2 ^ 31) mod 2 ^ 32 - 2 ^ 31).

(** The signals the event loop holds for a preload, in the order of their
    due times (ms after the start).  An image event due no earlier than
    the timer comes after it. *)
Definition signals (b : ImgBehaviour) (timeout : Z) : list (Z * Signal) :=
  let delay := timer_delay timeout in
  match b with
  | Loads d =>
      if Z.of_N d <? delay
      then [(Z.of_N d, sig_load); (delay, sig_timer)]
      else [(delay, sig_timer); (Z.of_N d, sig_load)]
  | Fails d =>
      if Z.of_N d <? delay
      then [(Z.of_N d, sig_error); (delay, sig_timer)]
      else [(delay, sig_timer); (Z.of_N d, sig_error)]
  | Stalls => [(delay, sig_timer)]
  end.

Definition run_preload (src : string) (b : ImgBehaviour) (timeout : Z)
  : Preload :=
  fold_left (deliver src) (signals b timeout) preload_started.

(** What answers [img.src = src]: an empty [src] selects no image and the
    browser fires [error] at once (HTML, update the image data); any other
    URL goes to the network. *)
Definition response (w : World) (src : string) : ImgBehaviour :=
  if String.eqb src "" then Fails 0%N else network w src.

(** [loadImageWithTimeout(url, timeout)], awaited.  Outside a browser
    [new Image()] throws in the executor and the promise rejects.  The
    caller resumes when the promise settles; a promise that never settled
    would leave it suspended for good, which [preload_settles] rules out. *)
Definition loadImageWithTimeout (src : string) (timeout : Z)
  : M (option string) :=
  fun w =>
    match window w with
    | None => (Throw ReferenceError, w)
    | Some _ =>
        match promise (run_preload src (response w src) timeout) with
        | Some (t, v) =>
            (Ok v,
             with_clock (clock w + t)
               (with_requests
                  (requests w ++
                   [{| req_url := src; req_start := clock w;
                       req_end := clock w + t |}]) w))
        | None => (Ok None, w)
        end
    end.

(** ** Trying the image sources in turn *)

(** Truthiness of [string | null]. *)
Definition truthy (v : option string) : bool :=
  match v with
  | Some s => negb (String.eqb s "")
  | None => false
  end.

(** A [string | null] that passed the truthiness test, read as the string
    it is. *)
Definition as_string (v : option string) : string := default "" v.

(** The three template literals of [sources]. *)
Definition image_sources (size : string) (stamp : Z) : list string :=
  [ "https://loliapi.com/acg/?" +:+ size +:+ "&" +:+ pretty stamp;
    "https://api.vvhan.com/api/wallpaper/acg?type=json&" +:+ pretty stamp;
    "https://api.ixiaowai.cn/api/api.php?" +:+ pretty stamp ].

(** How one turn of the [for] loop ends. *)
Inductive Flow :=
| flow_return (v : option string)
| flow_continue.

(** The loop body: [try { ...; if (result) return result; } catch
    { continue; }]. *)
Definition try_source (source : string) : M Flow :=
  try_catch
    (result <- loadImageWithTimeout source LOAD_TIMEOUT ;;
     if truthy result then ret (flow_return result) else ret flow_continue)
    (fun _ => ret flow_continue).

(** [for (const source of sources) { ... } return null;] *)
Fixpoint for_sources (sources : list string) : M (option string) :=
  match sources with
  | [] => ret None
  | source :: rest =>
      flow <- try_source source ;;
      match flow with
      | flow_return v => ret v
      | flow_continue => for_sources rest
      end
  end.

(** [typeof window !== 'undefined' && window.innerWidth < 768] *)
Definition isMobile (w : World) : bool :=
  match window w with
  | Some win => innerWidth win <? 768
  | None => false
  end.

(** The [sources] array a call starting in [w] builds. *)
Definition sources_of (w : World) : list string :=
  image_sources (if isMobile w then "w=800" else "w=1920") (clock w).

Definition tryLoadImageFromSources : M (option string) :=
  stamp <- Date_now ;;
  mobile <- gets isMobile ;;
  let size := if mobile : bool then "w=800" else "w=1920" in
  for_sources (image_sources size stamp).

(** ** The provider *)

(** [setBackgroundUrl], [setIsLoaded]: the setters of the two state cells.
    The first is typed for strings, and takes what it is given. *)
Definition setBackgroundUrl (v : Value) : M unit :=
  modify (with_backgroundUrl v).

Definition setIsLoaded (b : bool) : M unit :=
  modify (with_isLoaded b).

(** [const setLoaded = useCallback(() => { setIsLoaded(true); }, [])] *)
Definition setLoaded : M unit := setIsLoaded true.

(** The function the effect returns: [() => { mounted = false; }]. *)
Definition effect_cleanup : M unit := modify (with_mounted false).

(** What can run while an async function is suspended at an [await]: the
    provider unmounts, or a consumer calls [setLoaded] (the image element's
    [onLoad]). *)
Inductive Event := ev_unmount | ev_setLoaded.

Definition dispatch (e : Event) : M unit :=
  match e with
  | ev_unmount => effect_cleanup
  | ev_setLoaded => setLoaded
  end.

Fixpoint dispatch_all (evs : list Event) : M unit :=
  match evs with
  | [] => ret tt
  | e :: rest => dispatch e ;;; dispatch_all rest
  end.

(** [await m], with [evs] the events whose handlers run while the caller is
    suspended: they have run when the caller resumes, whether the promise
    was fulfilled or rejected. *)
Definition await {A} (evs : list Event) (m : M A) : M A :=
  fun w =>
    match m w with
    | (r, w') => (r, exec (dispatch_all evs) w')
    end.

(** An async function runs synchronously up to its first [await]; there it
    either has returned already or is suspended with the rest of its body.
    The rest takes the events that arrive during the suspension.  A throw
    rejects the promise the function returned. *)
Inductive Async :=
| done
| awaiting (rest : list Event -> M unit).

Definition run_async (evs : list Event) (start : M Async) : M unit :=
  a <- start ;;
  match a with
  | done => ret tt
  | awaiting rest => rest evs
  end.

(** Step 1 of [initBackground], the branch [if (cached) { ...; return; }]. *)
Definition adoptCached (cached : Value) : M unit :=
  alive <- gets mounted ;;
  if alive : bool then
    ty <- get cached "type" ;;
    if strict_equals ty "gradient" then
      val <- get cached "value" ;;
      display <- gradient_template val ;;
      setBackgroundUrl display ;;;
      setIsLoaded true
    else
      u <- get cached "url" ;;
      setBackgroundUrl u
  else ret tt.

(** Step 2: show a random gradient at once. *)
Definition showGradient : M unit :=
  g <- getRandomGradient ;;
  alive <- gets mounted ;;
  if alive : bool then
    setBackgroundUrl ("gradient:" +:+ g) ;;;
    setIsLoaded true ;;;
    setCachedBackground gradient g
  else ret tt.

(** Step 3: try the real image in the background, [try { const imageUrl =
    await tryLoadImageFromSources(); ... } catch (error) { ... }]. *)
Definition loadRealImage (evs : list Event) : M unit :=
  try_catch
    (imageUrl <- await evs tryLoadImageFromSources ;;
     alive <- gets mounted ;;
     if truthy imageUrl && alive then
       setBackgroundUrl (as_string imageUrl) ;;;
       setIsLoaded false ;;;
       setCachedBackground image (as_string imageUrl)
     else ret tt)
    (fun error => console_error "Failed to load background image:" error).

(** [initBackground] up to its only [await]. *)
Definition initBackground_start : M Async :=
  cached <- getCachedBackground ;;
  if truthy_value cached then adoptCached cached ;;; ret done
  else showGradient ;;; ret (awaiting loadRealImage).

Definition initBackground (evs : list Event) : M unit :=
  run_async evs initBackground_start.

(** The first render: [useState('')] and [useState(false)]. *)
Definition first_render : M unit :=
  modify (fun w => with_isLoaded false (with_backgroundUrl "" w)).

(** Mounting [BackgroundProvider]: the first render, then the effect body
    [let mounted = true; ...; initBackground();], up to the [await]. *)
Definition mount_start : M Async :=
  first_render ;;;
  modify (with_mounted true) ;;;
  initBackground_start.

Definition mount (evs : list Event) : M unit :=
  run_async evs mount_start.

(** The rest of [refreshBackground] from its [await] on. *)
Definition refresh_rest (evs : list Event) : M unit :=
  imageUrl <- await evs tryLoadImageFromSources ;;
  if truthy imageUrl then
    setBackgroundUrl (as_string imageUrl) ;;;
    setCachedBackground image (as_string imageUrl)
  else
    g <- getRandomGradient ;;
    setBackgroundUrl ("gradient:" +:+ g) ;;;
    setCachedBackground gradient g ;;;
    setIsLoaded true.

Definition refreshBackground_start : M Async :=
  setIsLoaded false ;;;
  ret (awaiting refresh_rest).

Definition refreshBackground (evs : list Event) : M unit :=
  run_async evs refreshBackground_start.

(** ** The context and its consumers *)

Record BackgroundContextType := {
  ctx_backgroundUrl : Value;
  ctx_isLoaded : bool;
  ctx_setLoaded : M unit;
  ctx_refreshBackground : list Event -> M unit
}.

(** The [value] the provider hands to [BackgroundContext.Provider]. *)
Definition provider_value (w : World) : BackgroundContextType :=
  {| ctx_backgroundUrl := backgroundUrl w;
     ctx_isLoaded := isLoaded w;
     ctx_setLoaded := setLoaded;
     ctx_refreshBackground := refreshBackground |}.

(** [useContext(BackgroundContext)]: the value of the enclosing provider,
    or the default [undefined] of [createContext] when there is none. *)
Definition useContext (provider : option World)
  : option BackgroundContextType :=
  provider_value <$> provider.

Definition useBackground (provider : option World)
  : Result BackgroundContextType :=
  match useContext provider with
  | None =>
      Throw (Error "useBackground must be used within a BackgroundProvider")
  | Some context => Ok context
  end.

(** [s.replace(pattern, by)] with a string pattern: the first occurrence. *)
Fixpoint replace_first (pattern by_ s : string) : string :=
  if String.prefix pattern s then
    by_ +:+ String.substring (String.length pattern)
              (String.length s - String.length pattern) s
  else
    match s with
    | EmptyString => EmptyString
    | String c rest => String c (replace_first pattern by_ rest)
    end.

(** What [SharedBackground] renders: the inline [background] style of the
    container, and the [img] element with its [src] and whether it is
    shown at full opacity. *)
Record Rendered := {
  style_background : option string;
  img : option (string * bool)
}.

(** The component body after [const { backgroundUrl, isLoaded, setLoaded }
    = useBackground()].  [backgroundUrl.startsWith(..)] is a method call:
    on undefined and null the property read throws, and on any other value
    that is not a string there is no such method to call. *)
Definition render (context : BackgroundContextType) : Result Rendered :=
  match ctx_backgroundUrl context with
  | VString backgroundUrl =>
      let isGradient := String.prefix "gradient:" backgroundUrl in
      let gradientValue :=
        if isGradient then Some (replace_first "gradient:" "" backgroundUrl)
        else None in
      Ok {| style_background :=
              match gradientValue with
              | Some v =>
                  if isGradient && negb (String.eqb v "") then Some v
                  else None
              | None => None
              end;
            img :=
              if negb isGradient && negb (String.eqb backgroundUrl "")
              then Some (backgroundUrl, ctx_isLoaded context)
              else None |}
  | _ => Throw TypeError
  end.

Definition SharedBackground (provider : option World) : Result Rendered :=
  match useBackground provider with
  | Ok context => render context
  | Throw e => Throw e
  end.

(** * Vocabulary of the properties *)

(** Names for the states, predicates and sample worlds the theorems speak
    about.  Nothing here is part of the program. *)

(** ** Numbers *)

(** The same number in the Standard Library's specification of IEEE 754
    arithmetic, to compare the operations above with the ones there. *)
Definition to_spec_float (x : Number) : spec_float :=
  match x with
  | NaN => S754_nan
  | Infinity s => S754_infinity s
  | Dyadic m e => binary_normalize 53 1024 m e false
  end.

(** [x] is a double of the range of [Math.random()], [0 <= x < 1]: the
    number [m * 2^e] with a mantissa of at most 53 bits, [e <= 0] and
    [m < 2^-e]. *)
Definition unit_double (x : Number) : Prop :=
  match x with
  | Dyadic m e => 0 <= m < 2 ^ 53 /\ -1074 <= e <= 0 /\ m < 2 ^ (- e)
  | _ => False
  end.

(** [x] lies in the [k]-th tenth of the unit interval,
    [k/10 <= m * 2^e < (k+1)/10], for [e <= 0]. *)
Definition in_tenth (x : Number) (k : Z) : Prop :=
  match x with
  | Dyadic m e => k * 2 ^ (- e) <= 10 * m < (k + 1) * 2 ^ (- e)
  | _ => False
  end.

(** The doubles nearest to 0.35 and to 0.7. *)
Definition double_0_35 : Number := Dyadic 6305039478318694 (-54).
Definition double_0_7 : Number := Dyadic 6305039478318694 (-53).

(** Equality of doubles in the Standard Library's representation, the
    sign of zero apart. *)
Definition same_double (a b : spec_float) : bool :=
  match a, b with
  | S754_zero _, S754_zero _ => true
  | S754_infinity s, S754_infinity s' => Bool.eqb s s'
  | S754_nan, S754_nan => true
  | S754_finite s m e, S754_finite s' m' e' =>
      Bool.eqb s s' && Pos.eqb m m' && Z.eqb e e'
  | _, _ => false
  end.

(** Doubles of every kind: zero, whole numbers, fractions that are no
    binary fractions (0.1, 0.35, 0.7, 1/3), the largest double below 1,
    subnormal numbers, the least normal and the largest double, time
    stamps, infinities and NaN. *)
Definition sample_doubles : list Number :=
  [ Dyadic 0 0; of_Z 1; of_Z (-1); of_Z 10; of_Z 7; double_0_7; double_0_35;
    Dyadic 3602879701896397 (-55); Dyadic (2 ^ 53 - 1) (-53);
    Dyadic 1 (-1074); Dyadic 3 (-1074); Dyadic 5 (-1074);
    Dyadic (2 ^ 52) (-1074); Dyadic (2 ^ 52 - 1) (-1074);
    Dyadic (2 ^ 53 - 1) 971; Dyadic (- (2 ^ 53 - 1)) 971;
    of_Z 86400000; of_Z 1700000000000; Dyadic 3400000000001 (-1);
    Dyadic (2 ^ 52 + 1) 0; Dyadic (2 ^ 53 - 1) 0;
    Dyadic 6004799503160661 (-54); Dyadic 1 (-1); Dyadic 1 (-53);
    Dyadic 1 1023; Dyadic 1 (-1022); Dyadic (-3) (-2);
    Dyadic (2 ^ 52 + 3) (-60); Dyadic (- (2 ^ 52 + 5)) 30;
    Infinity false; Infinity true; NaN ].

(** Product, difference and comparison of [x] and [y] are those of the
    Standard Library's IEEE 754 specification. *)
Definition agrees (x y : Number) : bool :=
  same_double (to_spec_float (Number_mul x y))
    (SFmul 53 1024 (to_spec_float x) (to_spec_float y))
  && same_double (to_spec_float (Number_sub x y))
       (SFsub 53 1024 (to_spec_float x) (to_spec_float y))
  && Bool.eqb (Number_gt x y) (SFltb (to_spec_float y) (to_spec_float x)).

(** ** The cache store *)

(** The text under the cache key. *)
Definition stored (w : World) : option StoredText :=
  items (localStorage w) !! BG_CACHE_KEY.

(** The store after [removeItem(BG_CACHE_KEY)]. *)
Definition evicted (s : Storage) : Storage :=
  {| blocked := blocked s; full := full s;
     items := delete BG_CACHE_KEY (items s) |}.

(** The store after [setItem(BG_CACHE_KEY, JSON.stringify(data))]. *)
Definition written (data : BackgroundCache) (s : Storage) : Storage :=
  {| blocked := blocked s; full := full s;
     items := <[BG_CACHE_KEY := text_record data]> (items s) |}.

(** The record [setCachedBackground(ty, val)] builds at time [now]. *)
Definition record_of (ty : BgType) (val : string) (now : Z)
  : BackgroundCache :=
  {| url := val; timestamp := Some now; type := type_tag ty; value := val |}.

(** The store can be read: there is a window and storage is not blocked. *)
Definition readable (w : World) : bool :=
  match window w with
  | Some _ => negb (blocked (localStorage w))
  | None => false
  end.

(** The store takes a write. *)
Definition writable (w : World) : bool :=
  readable w && negb (full (localStorage w)).

(** The expiry test of the read, [now - data.timestamp > BG_EXPIRE_TIME],
    on the parsed value [data] in world [w]: it throws when [data] is null
    or its timestamp has no number. *)
Definition expired (w : World) (data : Value) : Result bool :=
  match read_property data "timestamp" with
  | Ok ts =>
      match ToNumber (engine w) ts with
      | Ok n =>
          Ok (Number_gt (Number_sub (of_Z (clock w)) n) (of_Z BG_EXPIRE_TIME))
      | Throw e => Throw e
      end
  | Throw e => Throw e
  end.

(** More than 24 hours lie between the whole-number timestamp [ts] and
    [now]; no timestamp, no expiry. *)
Definition is_expired (now : Z) (ts : option Z) : bool :=
  match ts with
  | Some t => now - t >? BG_EXPIRE_TIME
  | None => false
  end.

(** The read reports no record: what it returns fails the test
    [if (cached)] of [initBackground]. *)
Definition misses (w : World) : bool :=
  match outcome getCachedBackground w with
  | Ok v => negb (truthy_value v)
  | Throw _ => false
  end.

(** Two worlds with the same environment outside [localStorage] and the
    console, and the same provider state. *)
Definition same_but_store (w w' : World) : Prop :=
  window w' = window w /\ clock w' = clock w /\ entropy w' = entropy w
  /\ draws w' = draws w /\ network w' = network w
  /\ requests w' = requests w /\ backgroundUrl w' = backgroundUrl w
  /\ isLoaded w' = isLoaded w /\ mounted w' = mounted w
  /\ blocked (localStorage w') = blocked (localStorage w)
  /\ full (localStorage w') = full (localStorage w)
  /\ engine w' = engine w.

(** ** Preloads and the request log *)

(** When a preload settles, in ms after its start. *)
Definition settle_time (b : ImgBehaviour) (timeout : Z) : Z :=
  match b with
  | Loads d | Fails d =>
      if Z.of_N d <? timer_delay timeout then Z.of_N d
      else timer_delay timeout
  | Stalls => timer_delay timeout
  end.

(** The image arrives before the timer. *)
Definition in_time (b : ImgBehaviour) (timeout : Z) : bool :=
  match b with
  | Loads d => Z.of_N d <? timer_delay timeout
  | _ => false
  end.

(** Source [s] preloads in world [w]: there is an [Image] to load it with,
    and the image arrives within [LOAD_TIMEOUT]. *)
Definition preloads (w : World) (s : string) : bool :=
  match window w with
  | Some _ => in_time (response w s) LOAD_TIMEOUT
  | None => false
  end.

(** The log entry of a preload of [s] started in [w]. *)
Definition attempt_of (w : World) (s : string) : Attempt :=
  {| req_url := s; req_start := clock w;
     req_end := clock w + settle_time (response w s) LOAD_TIMEOUT |}.

(** The world when that preload has settled. *)
Definition after_attempt (w : World) (s : string) : World :=
  with_clock (clock w + settle_time (response w s) LOAD_TIMEOUT)
    (with_requests (requests w ++ [attempt_of w s]) w).

(** The world after preloading the sources of [l] one after the other. *)
Fixpoint after_attempts (w : World) (l : list string) : World :=
  match l with
  | [] => w
  | s :: rest => after_attempts (after_attempt w s) rest
  end.

(** The log entries those preloads leave. *)
Fixpoint log_of (w : World) (l : list string) : list Attempt :=
  match l with
  | [] => []
  | s :: rest => attempt_of w s :: log_of (after_attempt w s) rest
  end.

(** The attempts of [log] ran one at a time between [from] and [to]: each
    started when the one before it had settled, and none took longer than
    [LOAD_TIMEOUT]. *)
Fixpoint chained (from : Z) (log : list Attempt) (to : Z) : Prop :=
  match log with
  | [] => from = to
  | a :: rest =>
      req_start a = from
      /\ 0 <= req_end a - req_start a <= LOAD_TIMEOUT
      /\ chained (req_end a) rest to
  end.

(** The first source of [l] that preloads in [w], if there is one. *)
Fixpoint first_loading (w : World) (l : list string) : option string :=
  match l with
  | [] => None
  | s :: rest => if preloads w s then Some s else first_loading w rest
  end.

(** What a signal makes the promise settle with. *)
Definition verdict (src : string) (s : Signal) : option string :=
  match s with
  | sig_load => Some src
  | sig_error | sig_timer => None
  end.

(** World [w'] is reached from [w] by at most three image requests within
    24 seconds. *)
Definition bounded_effort (w w' : World) : Prop :=
  exists log,
    requests w' = requests w ++ log
    /\ (length log <= 3)%nat
    /\ clock w <= clock w' <= clock w + 3 * LOAD_TIMEOUT.

(** ** Events during a suspension *)

Definition Event_eqb (a b : Event) : bool :=
  match a, b with
  | ev_unmount, ev_unmount => true
  | ev_setLoaded, ev_setLoaded => true
  | _, _ => false
  end.

(** Event [e] is among the events [evs]. *)
Definition arrives (e : Event) (evs : list Event) : bool :=
  existsb (Event_eqb e) evs.

(** The provider's state when the handlers of [evs] have run. *)
Definition after_events (evs : list Event) (w : World) : World :=
  with_mounted (mounted w && negb (arrives ev_unmount evs))
    (with_isLoaded (isLoaded w || arrives ev_setLoaded evs) w).

(** The world in which the code after [await tryLoadImageFromSources()]
    resumes. *)
Definition resumed (evs : list Event) (w : World) : World :=
  after_events evs (exec tryLoadImageFromSources w).

(** ** The gradient draw *)

(** The gradient drawn in world [w]. *)
Definition drawn_gradient (w : World) : string :=
  array_at FALLBACK_GRADIENTS
    (random_index (entropy w (draws w)) (length FALLBACK_GRADIENTS)).

(** [Math.random()] answers within its range at the next draw: a double
    [0 <= r < 1]. *)
Definition next_random_ok (w : World) : Prop :=
  unit_double (entropy w (draws w)).

(** ** Mounting *)

(** The world when the effect calls [initBackground]: the state cells hold
    their initial values and [mounted] is true. *)
Definition rendered (w : World) : World :=
  with_mounted true (with_isLoaded false (with_backgroundUrl "" w)).

(** The display value for a record-shaped object. *)
Definition display_of (d : BackgroundCache) : string :=
  if String.eqb (type d) "gradient" then "gradient:" +:+ value d else url d.

(** The world in which step 2 runs after a miss at mount. *)
Definition missed (w : World) : World :=
  exec getCachedBackground (rendered w).

(** The world when step 2 has set the two state cells, before it writes
    the cache. *)
Definition gradient_shown (w : World) : World :=
  with_isLoaded true
    (with_backgroundUrl ("gradient:" +:+ drawn_gradient w)
       (with_draws (S (draws w)) (missed w))).

(** The display value is a string, as its type says. *)
Definition shows_string (w : World) : Prop :=
  exists s : string, backgroundUrl w = s.

(** ** The storage and the console *)

(** Storage [s'] differs from [s] at most in the entry under the cache
    key. *)
Definition only_cache_key (s s' : Storage) : Prop :=
  blocked s' = blocked s /\ full s' = full s
  /\ forall k, k <> BG_CACHE_KEY -> items s' !! k = items s !! k.

(** Console [l'] is console [l] with nothing added but reports of failed
    cache writes. *)
Definition only_cache_errors (l l' : list (string * Exn)) : Prop :=
  exists extra,
    l' = l ++ extra
    /\ Forall (fun entry => fst entry = "Failed to cache background:") extra.

(** ** Sample worlds *)

(** The samples convert no number to a string and no string to a number;
    this engine answers NaN to everything. *)
Definition sample_engine : Engine :=
  {| StringToNumber := fun _ => NaN; NumberToString := fun _ => "NaN" |}.

(** Every image request is answered after 120 ms. *)
Definition served (u : string) : ImgBehaviour := Loads 120%N.

(** Every image request fails after 40 ms. *)
Definition offline (u : string) : ImgBehaviour := Fails 40%N.

(** The first source fails after 300 ms, the second one loads after 1.2 s,
    the third one never answers. *)
Definition second_source_loads (u : string) : ImgBehaviour :=
  if String.prefix "https://loliapi.com" u then Fails 300%N
  else if String.prefix "https://api.vvhan.com" u then Loads 1200%N
  else Stalls.

(** A browser window [width] pixels wide at 2023-11-14T22:13:20Z with the
    given cache text, before the provider is rendered; [Math.random()]
    answers 0.35. *)
Definition device (width : Z) (cache : option StoredText)
    (net : string -> ImgBehaviour) : World :=
  {| engine := sample_engine;
     window := Some {| innerWidth := width |};
     localStorage :=
       {| blocked := false; full := false;
          items := match cache with
                   | Some text => {[ BG_CACHE_KEY := text ]}
                   | None => ∅
                   end |};
     clock := 1700000000000;
     entropy := fun _ => double_0_35;
     draws := 0;
     network := net;
     requests := [];
     console := [];
     backgroundUrl := "";
     isLoaded := false;
     mounted := false |}.

Definition browser := device 1280.

Definition phone := device 390.

Definition plum : string :=
  "linear-gradient(135deg, #667eea 0%, #764ba2 100%)".

(** A gradient record written [age] ms before the sample clock. *)
Definition gradient_record (age : Z) : BackgroundCache :=
  record_of gradient plum (1700000000000 - age).

(** An image record written [age] ms before the sample clock. *)
Definition image_record (age : Z) : BackgroundCache :=
  record_of image "https://example.org/a.png" (1700000000000 - age).

(** A provider that is mounted and shows a gradient, the cache empty. *)
Definition showing_gradient (net : string -> ImgBehaviour) : World :=
  with_mounted true
    (with_isLoaded true
       (with_backgroundUrl ("gradient:" +:+ plum) (browser None net))).

(** A provider that is mounted and shows the image of a cached image
    record, which has not finished loading. *)
Definition showing_image (net : string -> ImgBehaviour) : World :=
  with_mounted true
    (with_isLoaded false
       (with_backgroundUrl "https://example.org/a.png"
          (browser (Some (text_record (image_record 3600000))) net))).

(** A browser that already keeps an unrelated entry in [localStorage]. *)
Definition browser_with_theme (net : string -> ImgBehaviour) : World :=
  with_localStorage
    {| blocked := false; full := false;
       items := {[ "theme" := text_invalid ]} |}
    (browser None net).

(** Cache entries that are JSON but no record: the empty object, the
    number 7, and a gradient whose value has a member [toString]. *)
Definition empty_object : Value := VObject [].

Definition seven : Value := VNumber (of_Z 7).

Definition unprintable_gradient : Value :=
  VObject [("type", VString "gradient");
           ("value", VObject [("toString", VNull)])].

(** * Properties *)

(** ** Proof support *)

Ltac unfold_monad :=
  unfold bind, ret, throw, try_catch, gets, modify, eval, exec, outcome in *.

Ltac unfold_js :=
  unfold typeof_window_undefined, Date_now, Math_random, console_error,
    localStorage_getItem, localStorage_setItem, localStorage_removeItem,
    get, minus, gradient_template, setBackgroundUrl, setIsLoaded in *.

Ltac run := unfold_js; unfold_monad; simpl in *.

(** ** Double arithmetic *)

(** The operations agree with the Standard Library's IEEE 754
    specification on the samples: 0.7 * 10 is 7 and not 6.99..., a product
    that rounds, one below the least double, one that overflows, and
    differences of integers and of an integer and a fraction. *)
Example arithmetic_agrees :
  to_spec_float (Number_mul double_0_7 (of_Z 10))
  = SFmul 53 1024 (to_spec_float double_0_7) (to_spec_float (of_Z 10))
  /\ Number_mul double_0_7 (of_Z 10) = Dyadic (7 * 2 ^ 50) (-50)
  /\ to_spec_float (Number_mul (Dyadic (2 ^ 53 - 1) (-53)) (of_Z 10))
     = SFmul 53 1024 (to_spec_float (Dyadic (2 ^ 53 - 1) (-53)))
         (to_spec_float (of_Z 10))
  /\ to_spec_float (Number_mul (Dyadic 3 (-1074)) (Dyadic 1 (-1)))
     = SFmul 53 1024 (to_spec_float (Dyadic 3 (-1074)))
         (to_spec_float (Dyadic 1 (-1)))
  /\ to_spec_float (Number_mul (Dyadic (2 ^ 53 - 1) 971) (Dyadic 3 (-1)))
     = SFmul 53 1024 (to_spec_float (Dyadic (2 ^ 53 - 1) 971))
         (to_spec_float (Dyadic 3 (-1)))
  /\ to_spec_float (Number_sub (of_Z 1700000000000) (of_Z 1699913600000))
     = SFsub 53 1024 (to_spec_float (of_Z 1700000000000))
         (to_spec_float (of_Z 1699913600000))
  /\ to_spec_float (Number_sub (of_Z 1700000000000) double_0_7)
     = SFsub 53 1024 (to_spec_float (of_Z 1700000000000))
         (to_spec_float double_0_7)
  /\ Number_gt (Number_sub (of_Z 1700000000000) double_0_7)
       (of_Z BG_EXPIRE_TIME)
     = SFltb (to_spec_float (of_Z BG_EXPIRE_TIME))
         (SFsub 53 1024 (to_spec_float (of_Z 1700000000000))
            (to_spec_float double_0_7)).
Proof. repeat split; vm_compute; reflexivity. Qed.

(** And on every pair of the sample doubles, which are doubles in the
    library's sense. *)
Example arithmetic_agrees_on_samples :
  forallb (fun x => valid_binary 53 1024 (to_spec_float x)) sample_doubles
  = true
  /\ forallb (fun x => forallb (agrees x) sample_doubles) sample_doubles
     = true.
Proof. split; vm_compute; reflexivity. Qed.

Lemma round_half_even_bounds (n s : Z) :
  0 <= n -> 0 < s ->
  let r := round_half_even n s in
  n / 2 ^ s <= r <= n / 2 ^ s + 1
  /\ 2 * (r * 2 ^ s) <= 2 * n + 2 ^ s
  /\ (forall N, n <= N * 2 ^ s -> r <= N)
  /\ (forall N, N * 2 ^ s <= n -> N <= r).
Proof.
  intros Hn Hs r. unfold r, round_half_even.
  assert (HP : 2 ^ s = 2 * 2 ^ (s - 1)).
  { replace s with (1 + (s - 1)) at 1 by lia.
    rewrite Z.pow_add_r by lia. reflexivity. }
  assert (Hh : 0 < 2 ^ (s - 1)) by (apply Z.pow_pos_nonneg; lia).
  set (h := 2 ^ (s - 1)) in *. set (P := 2 ^ s) in *.
  pose proof (Z.div_mod n P ltac:(lia)) as Hdm.
  pose proof (Z.mod_pos_bound n P ltac:(lia)) as Hmod.
  set (q := n / P) in *. set (m := n mod P) in *.
  assert (Hcase :
            forall r0, (r0 = q /\ m <= h) \/ (r0 = q + 1 /\ h <= m) ->
            q <= r0 <= q + 1
            /\ 2 * (r0 * P) <= 2 * n + P
            /\ (forall N, n <= N * P -> r0 <= N)
            /\ (forall N, N * P <= n -> N <= r0)).
  { intros r0 [[-> Hm] | [-> Hm]].
    - split; [lia|]. split; [nia|]. split; intros N HN; nia.
    - split; [lia|]. split; [nia|]. split; intros N HN; nia. }
  apply Hcase.
  destruct (Z.ltb_spec m h); [left; split; [reflexivity | lia]|].
  destruct (Z.ltb_spec h m); [right; split; [reflexivity | lia]|].
  destruct (Z.even q); [left | right]; split; (reflexivity || lia).
Qed.

Lemma round64_small (m : Z) :
  Z.abs m < 2 ^ 53 -> round64 m 0 = Dyadic m 0.
Proof.
  intros Hm. unfold round64.
  destruct (Z.eq_dec m 0) as [-> | Hne]; [reflexivity|].
  assert (Ha : 0 < Z.abs m) by lia.
  assert (Hl : Z.log2 (Z.abs m) < 53) by (apply Z.log2_lt_pow2; lia).
  pose proof (Z.log2_nonneg (Z.abs m)) as Hl0.
  rewrite Z.max_l by lia.
  destruct (Z.leb_spec (0 + (Z.log2 (Z.abs m) + 1) - 53) 0) as [_|]; [|lia].
  rewrite Z.max_l by lia.
  destruct (Z.eqb_spec (Z.abs m) 0) as [|_]; [lia|].
  destruct (Z.ltb_spec 1024 (Z.log2 (Z.abs m) + 1 + 0)) as [|_]; [lia|].
  f_equal. lia.
Qed.

Lemma Number_sub_integers (a b : Z) :
  Number_sub (of_Z a) (of_Z b) = round64 (a - b) 0.
Proof.
  unfold Number_sub, of_Z. cbn [Z.min Z.compare Z.sub Z.add Z.opp Z.pow Z.pow_pos Pos.iter].
  change (2 ^ 0) with 1. rewrite !Z.mul_1_r. reflexivity.
Qed.

(** A rounded integer of 54 bits or more keeps its sign and at least 53
    bits. *)
Lemma round64_large (m : Z) :
  2 ^ 53 <= Z.abs m ->
  round64 m 0 = Infinity (m <? 0)
  \/ exists a e,
       round64 m 0 = Dyadic (Z.sgn m * a) e /\ 0 < e /\ 2 ^ 52 <= a.
Proof.
  intros Hm. unfold round64.
  set (a := Z.abs m) in *.
  assert (Ha : 0 < a) by (pose proof (Z.pow_pos_nonneg 2 53); lia).
  assert (Hl : 53 <= Z.log2 a) by (apply Z.log2_le_pow2; lia).
  destruct (Z.log2_spec a Ha) as [Hlo Hhi].
  set (L := Z.log2 a) in *.
  rewrite (Z.max_l (0 + (L + 1) - 53)) by lia.
  destruct (Z.leb_spec (0 + (L + 1) - 53) 0) as [|_]; [lia|].
  rewrite (Z.max_r 0) by lia.
  replace (0 + (L + 1) - 53 - 0) with (L - 52) by lia.
  replace (0 + (L + 1) - 53) with (L - 52) by lia.
  destruct (round_half_even_bounds a (L - 52) ltac:(lia) ltac:(lia))
    as (_ & _ & _ & Hge).
  assert (Hr : 2 ^ 52 <= round_half_even a (L - 52)).
  { apply Hge. rewrite <- Z.pow_add_r by lia.
    replace (52 + (L - 52)) with L by lia. exact Hlo. }
  set (r := round_half_even a (L - 52)) in *.
  destruct (Z.eqb_spec r 0) as [|_]; [pose proof (Z.pow_pos_nonneg 2 52); lia|].
  destruct (1024 <? Z.log2 r + 1 + (L - 52)); [left; reflexivity|].
  right. exists r, (L - 52). split; [reflexivity|]. lia.
Qed.

(** The expiry test on whole numbers of milliseconds is the test on the
    integers, whatever their size. *)
Lemma expiry_test_integers (now t : Z) :
  Number_gt (Number_sub (of_Z now) (of_Z t)) (of_Z BG_EXPIRE_TIME)
  = (now - t >? BG_EXPIRE_TIME).
Proof.
  rewrite Number_sub_integers, Z.gtb_ltb.
  assert (HE : BG_EXPIRE_TIME < 2 ^ 53) by reflexivity.
  assert (HE0 : 0 <= BG_EXPIRE_TIME) by (unfold BG_EXPIRE_TIME; lia).
  destruct (Z.lt_ge_cases (Z.abs (now - t)) (2 ^ 53)) as [Hs | Hb].
  - rewrite round64_small by exact Hs.
    unfold Number_gt, of_Z. cbn [Z.min Z.compare Z.sub Z.add Z.opp].
    change (2 ^ 0) with 1. rewrite !Z.mul_1_r. reflexivity.
  - destruct (round64_large (now - t) Hb) as [E | (a & e & E & He & Ha)];
      rewrite E.
    + unfold Number_gt, of_Z.
      destruct (Z.ltb_spec (now - t) 0); destruct (Z.ltb_spec BG_EXPIRE_TIME (now - t));
        try reflexivity; lia.
    + unfold Number_gt, of_Z. rewrite Z.min_r by lia.
      rewrite !Z.sub_0_r. change (2 ^ 0) with 1. rewrite Z.mul_1_r.
      assert (Hp : 2 <= 2 ^ e).
      { change 2 with (2 ^ 1) at 1. apply Z.pow_le_mono_r; lia. }
      assert (Hbig : 2 ^ 53 <= a * 2 ^ e).
      { change (2 ^ 53) with (2 ^ 52 * 2). nia. }
      destruct (Z.ltb_spec BG_EXPIRE_TIME (Z.sgn (now - t) * a * 2 ^ e));
        destruct (Z.ltb_spec BG_EXPIRE_TIME (now - t)); try reflexivity.
      * exfalso. assert (now - t < 0) by lia.
        rewrite Z.sgn_neg in H by lia. nia.
      * exfalso. assert (0 < now - t) by lia.
        rewrite Z.sgn_pos in H by lia. nia.
Qed.

Lemma round_half_even_zero (s : Z) : round_half_even 0 s = 0.
Proof.
  unfold round_half_even. rewrite Zdiv_0_l, Zmod_0_l.
  pose proof (Z.pow_nonneg 2 (s - 1) ltac:(lia)).
  destruct (Z.ltb_spec 0 (2 ^ (s - 1))); [reflexivity|].
  destruct (Z.ltb_spec (2 ^ (s - 1)) 0); [lia | reflexivity].
Qed.

(** [Math.floor(r * 10)] for a double [0 <= r < 1]: one of 0, ..., 9; at
    least [k] when [k/10 <= r], and at most [k + 1] when [r < (k+1)/10]:
    the product is rounded before the floor, so [r] just below [(k+1)/10]
    can give [k + 1]. *)
Lemma random_index_spec (m e : Z) :
  unit_double (Dyadic m e) ->
  exists i,
    random_index (Dyadic m e) 10 = Dyadic i 0
    /\ 0 <= i <= 9
    /\ (forall k, k * 2 ^ (- e) <= 10 * m -> k <= i)
    /\ (forall k, 10 * m < (k + 1) * 2 ^ (- e) -> i <= k + 1).
Proof.
  intros ((Hm0 & Hm53) & (He0 & He1) & Hm1).
  unfold random_index, Number_mul, of_Z.
  change (Z.of_nat 10) with 10. rewrite Z.add_0_r.
  assert (HP : 0 < 2 ^ (- e)) by (apply Z.pow_pos_nonneg; lia).
  set (P := 2 ^ (- e)) in *.
  destruct (Z.eq_dec m 0) as [-> | Hne].
  - (* zero *)
    exists 0. split.
    + unfold round64. change (Z.abs (0 * 10)) with 0.
      assert (Ha : (if Z.max (e + (Z.log2 0 + 1) - 53) (-1074) <=? e
                    then 0
                    else round_half_even 0
                           (Z.max (e + (Z.log2 0 + 1) - 53) (-1074) - e)) = 0)
        by (destruct (_ <=? e); [reflexivity | apply round_half_even_zero]).
      rewrite Ha. reflexivity.
    + split; [lia|]. split; intros k Hk; nia.
  - (* a positive product *)
    set (M := m * 10).
    assert (HM : 0 < M) by (unfold M; lia).
    assert (HMP : M <= 10 * P - 10) by (unfold M; lia).
    assert (HM57 : M < 2 ^ 57).
    { unfold M. change (2 ^ 57) with (2 ^ 53 * 16). lia. }
    destruct (Z.log2_spec M HM) as [Hlo Hhi].
    set (L := Z.log2 M) in *.
    assert (HL0 : 0 <= L) by apply Z.log2_nonneg.
    assert (HL56 : L <= 56).
    { assert (L < 57); [|lia]. apply (Z.pow_lt_mono_r_iff 2); lia. }
    assert (HLe : L + e < 4).
    { assert (2 ^ L < 2 ^ (4 - e)).
      { replace (4 - e) with (4 + - e) by lia. rewrite Z.pow_add_r by lia.
        change (2 ^ 4) with 16. fold P. lia. }
      assert (L < 4 - e); [|lia]. apply (Z.pow_lt_mono_r_iff 2); lia. }
    unfold round64. rewrite (Z.abs_eq M) by lia. fold L.
    assert (HsgnM : Z.sgn M = 1) by (apply Z.sgn_pos; lia).
    destruct (Z.leb_spec (Z.max (e + (L + 1) - 53) (-1074)) e) as [Hex | Hrd].
    + (* the product is a double *)
      rewrite (Z.max_l e) by lia.
      destruct (Z.eqb_spec M 0) as [|_]; [lia|]. fold L.
      destruct (Z.ltb_spec 1024 (L + 1 + e)) as [|_]; [lia|].
      rewrite HsgnM, Z.mul_1_l.
      assert (He : e < 0).
      { destruct (Z.eq_dec e 0) as [-> | ]; [|lia].
        unfold P in Hm1. simpl in Hm1. lia. }
      exists (M / P). split.
      { unfold Math_floor. destruct (Z.leb_spec 0 e); [lia | reflexivity]. }
      split.
      { split; [apply Z.div_pos; lia|].
        assert (M / P < 10); [|lia].
        apply Z.div_lt_upper_bound; lia. }
      split.
      { intros k Hk. apply Z.div_le_lower_bound; unfold M; lia. }
      { intros k Hk. assert (M / P < k + 1); [|lia].
        apply Z.div_lt_upper_bound; unfold M; lia. }
    + (* the product is rounded *)
      assert (Hmax : Z.max (e + (L + 1) - 53) (-1074) = e + (L - 52)) by lia.
      rewrite Hmax in *.
      replace (e + (L - 52) - e) with (L - 52) by lia.
      rewrite (Z.max_r e) by lia.
      assert (Hs : 0 < L - 52) by lia.
      set (s := L - 52) in *.
      destruct (round_half_even_bounds M s ltac:(lia) Hs)
        as ((Hq1 & Hq2) & Herr & Hle & Hge).
      set (r := round_half_even M s) in *.
      assert (Hps : 2 ^ s <= 16).
      { change 16 with (2 ^ 4). apply Z.pow_le_mono_r; lia. }
      assert (Hps0 : 0 < 2 ^ s) by (apply Z.pow_pos_nonneg; lia).
      assert (Hr52 : 2 ^ 52 <= r).
      { apply Hge. rewrite <- Z.pow_add_r by lia.
        replace (52 + s) with L by (unfold s; lia). exact Hlo. }
      assert (Hr53 : r <= 2 ^ 53).
      { apply Hle. rewrite <- Z.pow_add_r by lia.
        replace (53 + s) with (L + 1) by (unfold s; lia). lia. }
      assert (Hr0 : 0 < r) by (pose proof (Z.pow_pos_nonneg 2 52); lia).
      destruct (Z.eqb_spec r 0) as [|_]; [lia|].
      assert (Hlr : Z.log2 r < 54).
      { apply Z.log2_lt_pow2; [lia|]. change (2 ^ 54) with (2 ^ 53 * 2). lia. }
      destruct (Z.ltb_spec 1024 (Z.log2 r + 1 + (e + s))) as [|_]; [lia|].
      rewrite HsgnM, Z.mul_1_l.
      assert (He' : e + s < 0) by lia.
      assert (HQ : 0 < 2 ^ (- (e + s))) by (apply Z.pow_pos_nonneg; lia).
      assert (HPQ : P = 2 ^ (- (e + s)) * 2 ^ s).
      { unfold P. rewrite <- Z.pow_add_r by lia. f_equal. lia. }
      set (Q := 2 ^ (- (e + s))) in *.
      exists (r / Q). split.
      { unfold Math_floor. destruct (Z.leb_spec 0 (e + s)); [lia | reflexivity]. }
      split.
      { split; [apply Z.div_pos; lia|].
        assert (r / Q < 10); [|lia].
        apply Z.div_lt_upper_bound; [lia|]. nia. }
      split.
      { intros k Hk. apply Z.div_le_lower_bound; [lia|].
        rewrite Z.mul_comm. apply Hge. unfold M. nia. }
      { intros k Hk. assert (r <= (k + 1) * Q).
        { apply Hle. unfold M. nia. }
        assert (r / Q < k + 2); [|lia].
        apply Z.div_lt_upper_bound; [lia|]. nia. }
Qed.

(** ** Cache store *)

Lemma record_properties (d : BackgroundCache) :
  read_property (record_value d) "type" = Ok (VString (type d))
  /\ read_property (record_value d) "value" = Ok (VString (value d))
  /\ read_property (record_value d) "url" = Ok (VString (url d))
  /\ truthy_value (record_value d) = true.
Proof. destruct d as [u [t|] ty v]; repeat split; reflexivity. Qed.

(** On a record-shaped object the expiry test is the one on the whole
    numbers: more than 24 hours between the timestamp and now. *)
Lemma expired_record (w : World) (d : BackgroundCache) :
  expired w (record_value d) = Ok (is_expired (clock w) (timestamp d)).
Proof.
  destruct d as [u [t|] ty v]; unfold expired; cbn.
  - f_equal. apply expiry_test_integers.
  - reflexivity.
Qed.

(** A value with no timestamp never expires. *)
Lemma expired_no_timestamp (w : World) (v : Value) :
  read_property v "timestamp" = Ok VUndefined -> expired w v = Ok false.
Proof. unfold expired. intros ->. reflexivity. Qed.

Lemma getCachedBackground_hit (w : World) (v : Value) :
  readable w = true ->
  stored w = Some (text_json v) ->
  expired w v = Ok false ->
  getCachedBackground w = (Ok v, w).
Proof.
  unfold readable, stored, expired, getCachedBackground. intros Hr Hs He. run.
  destruct (window w); [|discriminate].
  destruct (blocked (localStorage w)); [discriminate|].
  rewrite Hs. simpl.
  destruct (read_property v "timestamp") as [ts|]; [|discriminate].
  destruct (ToNumber (engine w) ts) as [n|]; [|discriminate].
  injection He as ->. reflexivity.
Qed.

Lemma getCachedBackground_evict (w : World) (v : Value) :
  readable w = true ->
  stored w = Some (text_json v) ->
  expired w v = Ok true ->
  getCachedBackground w =
    (Ok VNull, with_localStorage (evicted (localStorage w)) w).
Proof.
  unfold readable, stored, expired, getCachedBackground. intros Hr Hs He. run.
  destruct (window w); [|discriminate].
  destruct (blocked (localStorage w)) eqn:Hb; [discriminate|].
  rewrite Hs. simpl.
  destruct (read_property v "timestamp") as [ts|]; [|discriminate].
  destruct (ToNumber (engine w) ts) as [n|]; [|discriminate].
  injection He as ->. simpl. rewrite Hb.
  unfold evicted. rewrite Hb. reflexivity.
Qed.

Lemma getCachedBackground_throws (w : World) (v : Value) (e : Exn) :
  stored w = Some (text_json v) ->
  expired w v = Throw e ->
  getCachedBackground w = (Ok VNull, w).
Proof.
  unfold stored, expired, getCachedBackground. intros Hs He. run.
  destruct (window w); [|reflexivity].
  destruct (blocked (localStorage w)); [reflexivity|].
  rewrite Hs. simpl.
  destruct (read_property v "timestamp") as [ts|]; [|reflexivity].
  destruct (ToNumber (engine w) ts) as [n|]; [discriminate | reflexivity].
Qed.

Lemma getCachedBackground_unreadable (w : World) :
  readable w = false ->
  getCachedBackground w = (Ok VNull, w).
Proof.
  unfold readable, getCachedBackground. intros Hr. run.
  destruct (window w); [|reflexivity].
  destruct (blocked (localStorage w)); [reflexivity|discriminate].
Qed.

Lemma getCachedBackground_no_json (w : World) :
  (forall v, stored w <> Some (text_json v)) ->
  getCachedBackground w = (Ok VNull, w).
Proof.
  unfold stored, getCachedBackground. intros Hs. run.
  destruct (window w); [|reflexivity].
  destruct (blocked (localStorage w)); [reflexivity|].
  destruct (items (localStorage w) !! BG_CACHE_KEY) as [[| |v]|];
    simpl; try reflexivity.
  exfalso. apply (Hs v). reflexivity.
Qed.

(** The three ways a read can go. *)
Lemma getCachedBackground_cases (w : World) :
  getCachedBackground w = (Ok VNull, w)
  \/ (exists v, readable w = true /\ stored w = Some (text_json v)
        /\ expired w v = Ok false
        /\ getCachedBackground w = (Ok v, w))
  \/ (exists v, readable w = true /\ stored w = Some (text_json v)
        /\ expired w v = Ok true
        /\ getCachedBackground w =
             (Ok VNull, with_localStorage (evicted (localStorage w)) w)).
Proof.
  destruct (readable w) eqn:Hr.
  - destruct (stored w) as [[| |v]|] eqn:Hs;
      try (left; apply getCachedBackground_no_json; congruence).
    destruct (expired w v) as [[|]|e] eqn:He.
    + right; right. exists v. eauto using getCachedBackground_evict.
    + right; left. exists v. eauto using getCachedBackground_hit.
    + left. apply (getCachedBackground_throws w v e Hs He).
  - left. apply getCachedBackground_unreadable, Hr.
Qed.

Lemma setCachedBackground_writable (ty : BgType) (val : string) (w : World) :
  writable w = true ->
  setCachedBackground ty val w =
    (Ok tt,
     with_localStorage (written (record_of ty val (clock w)) (localStorage w)) w).
Proof.
  unfold writable, readable, setCachedBackground. intros Hw. run.
  destruct (window w); [|discriminate].
  destruct (blocked (localStorage w)) eqn:Hb; [discriminate|].
  destruct (full (localStorage w)) eqn:Hf; [discriminate|].
  unfold written. rewrite Hb, Hf. reflexivity.
Qed.

Lemma getCachedBackground_total (w : World) :
  exists r, outcome getCachedBackground w = Ok r.
Proof.
  unfold outcome.
  destruct (getCachedBackground_cases w)
    as [E | [(d & _ & _ & _ & E) | (d & _ & _ & _ & E)]];
    rewrite E; eauto.
Qed.

(** A failed write is swallowed and logged; without a window nothing
    happens at all. *)
Lemma setCachedBackground_cases (ty : BgType) (val : string) (w : World) :
  setCachedBackground ty val w =
    (Ok tt,
     with_localStorage (written (record_of ty val (clock w)) (localStorage w)) w)
  \/ setCachedBackground ty val w = (Ok tt, w)
  \/ exists e,
       setCachedBackground ty val w =
         (Ok tt,
          with_console (console w ++ [("Failed to cache background:", e)]) w).
Proof.
  unfold setCachedBackground. run.
  destruct (window w); [|right; left; reflexivity].
  destruct (blocked (localStorage w)) eqn:Hb; [right; right; eauto|].
  destruct (full (localStorage w)) eqn:Hf; [right; right; eauto|].
  left. unfold written. rewrite Hb, Hf. reflexivity.
Qed.

Lemma is_expired_false (now : Z) (ts : option Z) :
  is_expired now ts = false <->
  (forall t, ts = Some t -> now - t <= BG_EXPIRE_TIME).
Proof.
  unfold is_expired. destruct ts as [t|].
  - rewrite Z.gtb_ltb, Z.ltb_ge. split.
    + intros H t' [= <-]. exact H.
    + intros H. apply H. reflexivity.
  - split; [intros _ t [=] | reflexivity].
Qed.

Lemma is_expired_true (now : Z) (ts : option Z) :
  is_expired now ts = true <->
  (exists t, ts = Some t /\ BG_EXPIRE_TIME < now - t).
Proof.
  unfold is_expired. destruct ts as [t|].
  - rewrite Z.gtb_ltb, Z.ltb_lt. split.
    + intros H. exists t. auto.
    + intros (t' & [= <-] & H). exact H.
  - split; [discriminate | intros (t & [=] & _)].
Qed.

(** A record-shaped object in readable storage: returned while it is not
    older than 24 hours, evicted afterwards. *)
Lemma getCachedBackground_record_hit (w : World) (d : BackgroundCache) :
  readable w = true ->
  stored w = Some (text_record d) ->
  is_expired (clock w) (timestamp d) = false ->
  getCachedBackground w = (Ok (record_value d), w).
Proof.
  intros Hr Hs He. apply getCachedBackground_hit; [exact Hr | exact Hs|].
  rewrite expired_record, He. reflexivity.
Qed.

Lemma getCachedBackground_record_evict (w : World) (d : BackgroundCache) :
  readable w = true ->
  stored w = Some (text_record d) ->
  is_expired (clock w) (timestamp d) = true ->
  getCachedBackground w =
    (Ok VNull, with_localStorage (evicted (localStorage w)) w).
Proof.
  intros Hr Hs He. apply (getCachedBackground_evict w (record_value d));
    [exact Hr | exact Hs|].
  rewrite expired_record, He. reflexivity.
Qed.

Lemma stored_evicted (w : World) :
  stored (with_localStorage (evicted (localStorage w)) w) = None.
Proof. unfold stored. simpl. apply lookup_delete_eq. Qed.

Lemma stored_written (d : BackgroundCache) (w : World) :
  stored (with_localStorage (written d (localStorage w)) w)
  = Some (text_record d).
Proof. unfold stored. simpl. apply lookup_insert_eq. Qed.

(** The read depends on the window, the store, the clock and the engine
    only. *)
Lemma expired_same_env (w1 w2 : World) (v : Value) :
  engine w1 = engine w2 -> clock w1 = clock w2 ->
  expired w1 v = expired w2 v.
Proof. unfold expired. intros -> ->. reflexivity. Qed.

(** ** C2: the cache read *)

(** C2, as stated, fails on the code.  A record written exactly 24 hours
    ago is not unexpired in the claim's sense (now - storedAt < 24h is
    false) and is returned all the same; a stored text that is not JSON
    yields the absent result but stays in storage; and what is JSON but no
    well-formed record is returned as it is and stays too: a record of an
    unknown type without a timestamp, the number 7, the empty object. *)
Lemma C2_counterexample :
  (let w := browser (Some (text_record (gradient_record BG_EXPIRE_TIME)))
              served in
   outcome getCachedBackground w
   = Ok (record_value (gradient_record BG_EXPIRE_TIME))
   /\ timestamp (gradient_record BG_EXPIRE_TIME)
      = Some (clock w - BG_EXPIRE_TIME)
   /\ (clock w - (clock w - BG_EXPIRE_TIME) <? BG_EXPIRE_TIME) = false)
  /\ (let w := browser (Some text_invalid) served in
      outcome getCachedBackground w = Ok VNull
      /\ stored (exec getCachedBackground w) = Some text_invalid)
  /\ (let d := {| url := "u"; timestamp := None; type := "banana";
                  value := "v" |} in
      let w := browser (Some (text_record d)) served in
      outcome getCachedBackground w = Ok (record_value d)
      /\ stored (exec getCachedBackground w) = Some (text_record d))
  /\ (let w := browser (Some (text_json seven)) served in
      outcome getCachedBackground w = Ok seven
      /\ stored (exec getCachedBackground w) = Some (text_json seven))
  /\ (let w := browser (Some (text_json empty_object)) served in
      outcome getCachedBackground w = Ok empty_object
      /\ stored (exec getCachedBackground w) = Some (text_json empty_object)).
Proof.
  repeat split; vm_compute; reflexivity.
Qed.

(** C2, amended: the read never throws.  It returns the stored value
    exactly when storage is readable, the stored text is JSON and the
    expiry test [now - data.timestamp > BG_EXPIRE_TIME] on the parsed value
    is false, without any other check of the value, and then changes
    nothing.  It deletes the entry exactly when that test is true.  In
    every other case it reports the absent result and leaves the world as
    it was: unreadable storage, no entry, a text that is not JSON, the
    text [null], a timestamp that has no number.  The test is true of a
    record-shaped object exactly when more than 24 hours lie between its
    timestamp and now (a record exactly 24 hours old is returned), and
    false of every value without a timestamp. *)
Theorem C2_read_contract (w : World) :
  (exists r, outcome getCachedBackground w = Ok r)
  /\ (forall v,
        readable w = true -> stored w = Some (text_json v) ->
        expired w v = Ok false ->
        outcome getCachedBackground w = Ok v
        /\ exec getCachedBackground w = w)
  /\ (forall v,
        outcome getCachedBackground w = Ok v ->
        v = VNull
        \/ (readable w = true /\ stored w = Some (text_json v)
            /\ expired w v = Ok false))
  /\ (forall v,
        readable w = true -> stored w = Some (text_json v) ->
        expired w v = Ok true ->
        outcome getCachedBackground w = Ok VNull
        /\ stored (exec getCachedBackground w) = None)
  /\ (exec getCachedBackground w = w
      \/ exists v, stored w = Some (text_json v) /\ expired w v = Ok true)
  /\ (forall d t,
        timestamp d = Some t ->
        expired w (record_value d) = Ok (BG_EXPIRE_TIME <? clock w - t))
  /\ (forall v,
        read_property v "timestamp" = Ok VUndefined ->
        expired w v = Ok false)
  /\ (readable w = false -> outcome getCachedBackground w = Ok VNull)
  /\ (stored w = Some text_invalid ->
      outcome getCachedBackground w = Ok VNull
      /\ exec getCachedBackground w = w).
Proof.
  split; [apply getCachedBackground_total|].
  split.
  { intros v Hr Hs He. unfold outcome, exec.
    rewrite (getCachedBackground_hit w v Hr Hs He). split; reflexivity. }
  split.
  { intros v. unfold outcome.
    destruct (getCachedBackground_cases w)
      as [E | [(v0 & Hr & Hs & He & E) | (v0 & Hr & Hs & He & E)]];
      rewrite E; cbn [fst]; intros [= <-]; auto. }
  split.
  { intros v Hr Hs He. unfold outcome, exec.
    rewrite (getCachedBackground_evict w v Hr Hs He).
    split; [reflexivity | apply stored_evicted]. }
  split.
  { unfold exec.
    destruct (getCachedBackground_cases w)
      as [E | [(v0 & Hr & Hs & He & E) | (v0 & Hr & Hs & He & E)]];
      rewrite E; cbn [snd]; eauto. }
  split.
  { intros d t Ht. rewrite expired_record, Ht. unfold is_expired.
    rewrite Z.gtb_ltb. reflexivity. }
  split; [apply expired_no_timestamp|].
  split.
  { intros Hr. unfold outcome.
    rewrite (getCachedBackground_unreadable w Hr). reflexivity. }
  intros Hs. unfold outcome, exec.
  rewrite getCachedBackground_no_json by congruence. split; reflexivity.
Qed.

(** ** Preloading *)

Lemma timer_delay_nonneg (timeout : Z) : 0 <= timer_delay timeout.
Proof. unfold timer_delay. lia. Qed.


Lemma timer_delay_LOAD_TIMEOUT : timer_delay LOAD_TIMEOUT = LOAD_TIMEOUT.
Proof. reflexivity. Qed.

(** The race, decided: the promise always settles, with the URL exactly
    when the image loads before the timer. *)
Lemma preload_settles (src : string) (b : ImgBehaviour) (timeout : Z) :
  promise (run_preload src b timeout)
  = Some (settle_time b timeout,
          if in_time b timeout then Some src else None).
Proof.
  unfold run_preload, signals, settle_time, in_time.
  destruct b as [d|d|]; try destruct (Z.of_N d <? timer_delay timeout);
    reflexivity.
Qed.

(** Whichever signal wins, the handlers are gone and the timer is cleared
    once the promise has settled. *)
Lemma preload_releases (src : string) (b : ImgBehaviour) (timeout : Z) :
  let p := run_preload src b timeout in
  onload p = false /\ onerror p = false /\ timeoutId p = false
  /\ resolved p = true.
Proof.
  unfold run_preload, signals.
  destruct b as [d|d|]; try destruct (Z.of_N d <? timer_delay timeout);
    repeat split; reflexivity.
Qed.

Lemma loadImageWithTimeout_browser (w : World) (s : string) :
  window w <> None ->
  loadImageWithTimeout s LOAD_TIMEOUT w
  = (Ok (if preloads w s then Some s else None), after_attempt w s).
Proof.
  unfold loadImageWithTimeout, preloads, after_attempt, attempt_of.
  intros Hw. destruct (window w); [|congruence].
  rewrite preload_settles. reflexivity.
Qed.

Lemma loadImageWithTimeout_no_Image (w : World) (s : string) (t : Z) :
  window w = None ->
  loadImageWithTimeout s t w = (Throw ReferenceError, w).
Proof. unfold loadImageWithTimeout. intros ->. reflexivity. Qed.

Lemma try_source_browser (w : World) (s : string) :
  window w <> None ->
  try_source s w
  = (Ok (if preloads w s && negb (String.eqb s "")
         then flow_return (Some s) else flow_continue),
     after_attempt w s).
Proof.
  intros Hw. unfold try_source. unfold_monad.
  rewrite (loadImageWithTimeout_browser w s Hw).
  destruct (preloads w s); simpl; [|reflexivity].
  destruct (String.eqb s ""); reflexivity.
Qed.

Lemma try_source_no_Image (w : World) (s : string) :
  window w = None -> try_source s w = (Ok flow_continue, w).
Proof.
  intros Hw. unfold try_source. unfold_monad.
  rewrite (loadImageWithTimeout_no_Image w s _ Hw). reflexivity.
Qed.

Lemma settle_time_le (b : ImgBehaviour) (timeout : Z) :
  settle_time b timeout <= timer_delay timeout.
Proof.
  unfold settle_time.
  destruct b as [d|d|];
    try destruct (Z.ltb_spec (Z.of_N d) (timer_delay timeout)); lia.
Qed.

Lemma settle_time_nonneg (b : ImgBehaviour) (timeout : Z) :
  0 <= settle_time b timeout.
Proof.
  unfold settle_time. pose proof (timer_delay_nonneg timeout).
  destruct b as [d|d|]; try destruct (Z.of_N d <? timer_delay timeout); lia.
Qed.

(** ** The source loop *)

Lemma after_attempts_env (w : World) (l : list string) :
  window (after_attempts w l) = window w
  /\ network (after_attempts w l) = network w
  /\ localStorage (after_attempts w l) = localStorage w
  /\ entropy (after_attempts w l) = entropy w
  /\ draws (after_attempts w l) = draws w
  /\ console (after_attempts w l) = console w
  /\ backgroundUrl (after_attempts w l) = backgroundUrl w
  /\ isLoaded (after_attempts w l) = isLoaded w
  /\ mounted (after_attempts w l) = mounted w
  /\ engine (after_attempts w l) = engine w.
Proof.
  revert w. induction l as [|s l IH]; intros w; simpl.
  - repeat split.
  - destruct (IH (after_attempt w s)) as (?&?&?&?&?&?&?&?&?&?).
    repeat split; assumption.
Qed.

Lemma after_attempts_requests (w : World) (l : list string) :
  requests (after_attempts w l) = requests w ++ log_of w l.
Proof.
  revert w. induction l as [|s l IH]; intros w; simpl.
  - symmetry. apply app_nil_r.
  - rewrite IH. simpl. rewrite <- app_assoc. reflexivity.
Qed.

Lemma log_of_urls (w : World) (l : list string) :
  map req_url (log_of w l) = l.
Proof.
  revert w. induction l as [|s l IH]; intros w; simpl; [|rewrite IH];
    reflexivity.
Qed.

Lemma log_of_chained (w : World) (l : list string) :
  chained (clock w) (log_of w l) (clock (after_attempts w l)).
Proof.
  revert w. induction l as [|s l IH]; intros w; simpl.
  - reflexivity.
  - split; [reflexivity|]. split.
    + pose proof (settle_time_le (response w s) LOAD_TIMEOUT).
      pose proof (settle_time_nonneg (response w s) LOAD_TIMEOUT).
      rewrite timer_delay_LOAD_TIMEOUT in *.
      unfold LOAD_TIMEOUT in *. lia.
    + apply (IH (after_attempt w s)).
Qed.

Lemma for_sources_no_Image (w : World) (l : list string) :
  window w = None -> for_sources l w = (Ok None, w).
Proof.
  intros Hw. induction l as [|s l IH]; simpl; [reflexivity|].
  unfold bind. rewrite (try_source_no_Image w s Hw). exact IH.
Qed.

Lemma for_sources_all_fail (w : World) (l : list string) :
  window w <> None ->
  Forall (fun s => preloads w s = false) l ->
  for_sources l w = (Ok None, after_attempts w l).
Proof.
  revert w. induction l as [|s l IH]; intros w Hw Hl; simpl; [reflexivity|].
  inversion Hl as [|? ? Hs Hl']; subst.
  unfold bind. rewrite (try_source_browser w s Hw), Hs. simpl.
  apply IH; [exact Hw | exact Hl'].
Qed.

Lemma preloads_nonempty (w : World) (s : string) :
  preloads w s = true -> s <> "".
Proof.
  unfold preloads, response. intros H ->.
  destruct (window w); discriminate.
Qed.

Lemma for_sources_first_success (w : World) (pre post : list string)
    (u : string) :
  Forall (fun s => preloads w s = false) pre ->
  preloads w u = true ->
  for_sources (pre ++ u :: post) w
  = (Ok (Some u), after_attempts w (pre ++ [u])).
Proof.
  intros Hpre Hu. pose proof (preloads_nonempty w u Hu) as Hne.
  assert (Hw : window w <> None).
  { unfold preloads in Hu. destruct (window w); [discriminate|discriminate]. }
  revert w Hpre Hu Hw. induction pre as [|s pre IH]; intros w Hpre Hu Hw; simpl.
  - unfold bind. rewrite (try_source_browser w u Hw), Hu.
    apply String.eqb_neq in Hne. rewrite Hne. reflexivity.
  - inversion Hpre as [|? ? Hs Hpre']; subst.
    unfold bind. rewrite (try_source_browser w s Hw), Hs. simpl.
    apply IH; [exact Hpre' | exact Hu | exact Hw].
Qed.

(** The loop never throws, whatever the sources and the world. *)
Lemma for_sources_total (w : World) (l : list string) :
  exists r w', for_sources l w = (Ok r, w').
Proof.
  revert w. induction l as [|s l IH]; intros w; simpl; [eauto|].
  unfold bind. destruct (window w) eqn:Hw.
  - rewrite (try_source_browser w s) by congruence.
    destruct (preloads w s && negb (String.eqb s "")); [eauto | apply IH].
  - rewrite (try_source_no_Image w s Hw). apply IH.
Qed.

Lemma tryLoadImageFromSources_unfold (w : World) :
  tryLoadImageFromSources w = for_sources (sources_of w) w.
Proof. reflexivity. Qed.

(** ** C3: sources are tried in order, one at a time *)

(** C3: for every list of sources, if source [u] preloads within
    [LOAD_TIMEOUT] (8 seconds) and every source before it failed or timed
    out, the resolution yields [u] and has requested exactly the sources up
    to [u], in the declared order and one at a time, none after [u]; if
    every source fails or times out the resolution yields the no-result
    value after requesting each source once, in order; no exception escapes
    in any case; and [tryLoadImageFromSources] is this loop on its three
    URLs. *)
Theorem C3_sources_in_order (w : World) :
  (forall (pre post : list string) (u : string),
     Forall (fun s => preloads w s = false) pre ->
     preloads w u = true ->
     let run := for_sources (pre ++ u :: post) in
     outcome run w = Ok (Some u)
     /\ exists log,
          requests (exec run w) = requests w ++ log
          /\ map req_url log = pre ++ [u]
          /\ chained (clock w) log (clock (exec run w)))
  /\ (forall sources : list string,
        Forall (fun s => preloads w s = false) sources ->
        let run := for_sources sources in
        outcome run w = Ok None
        /\ exists log,
             requests (exec run w) = requests w ++ log
             /\ (window w <> None -> map req_url log = sources)
             /\ chained (clock w) log (clock (exec run w)))
  /\ (forall sources : list string,
        exists r, outcome (for_sources sources) w = Ok r)
  /\ tryLoadImageFromSources w = for_sources (sources_of w) w
  /\ length (sources_of w) = 3%nat
  /\ LOAD_TIMEOUT = 8000.
Proof.
  split; [|split; [|split; [|split; [|split]]]].
  - intros pre post u Hpre Hu run. unfold run, outcome, exec.
    rewrite (for_sources_first_success w pre post u Hpre Hu). simpl.
    split; [reflexivity|].
    exists (log_of w (pre ++ [u])).
    split; [apply after_attempts_requests|].
    split; [apply log_of_urls | apply log_of_chained].
  - intros sources Hall run. unfold run, outcome, exec.
    destruct (window w) eqn:Hw.
    + rewrite (for_sources_all_fail w sources) by (congruence || assumption).
      simpl. split; [reflexivity|].
      exists (log_of w sources).
      split; [apply after_attempts_requests|].
      split; [intros _; apply log_of_urls | apply log_of_chained].
    + rewrite (for_sources_no_Image w sources Hw). simpl.
      split; [reflexivity|].
      exists []. split; [symmetry; apply app_nil_r|].
      split; [congruence | reflexivity].
  - intros sources. unfold outcome.
    destruct (for_sources_total w sources) as (r & w' & E).
    rewrite E. eauto.
  - reflexivity.
  - reflexivity.
  - reflexivity.
Qed.

(** C3 on a phone whose first source fails and whose second source loads:
    the resolution yields the second URL, and the log holds the first two
    sources and not the third. *)
Lemma C3_witness :
  let w := phone None second_source_loads in
  let run :=
    for_sources
      (["https://loliapi.com/acg/?w=800&1700000000000"] ++
       "https://api.vvhan.com/api/wallpaper/acg?type=json&1700000000000"
       :: ["https://api.ixiaowai.cn/api/api.php?1700000000000"]) in
  outcome run w
  = Ok (Some "https://api.vvhan.com/api/wallpaper/acg?type=json&1700000000000")
  /\ exists log,
       requests (exec run w) = requests w ++ log
       /\ map req_url log
          = ["https://loliapi.com/acg/?w=800&1700000000000"] ++
            ["https://api.vvhan.com/api/wallpaper/acg?type=json&1700000000000"]
       /\ chained (clock w) log (clock (exec run w)).
Proof.
  apply (proj1 (C3_sources_in_order (phone None second_source_loads))).
  - repeat constructor.
  - reflexivity.
Defined.

(** ** Events during a suspension *)

Lemma dispatch_all_spec (evs : list Event) (w : World) :
  dispatch_all evs w = (Ok tt, after_events evs w).
Proof.
  revert w. induction evs as [|e evs IH]; intros w.
  - unfold after_events. simpl. unfold ret.
    rewrite andb_true_r, orb_false_r. destruct w; reflexivity.
  - simpl. unfold bind.
    destruct e; unfold dispatch, effect_cleanup, setLoaded, setIsLoaded, modify;
      rewrite IH; unfold after_events; simpl.
    + rewrite andb_false_r. reflexivity.
    + rewrite orb_true_r. reflexivity.
Qed.

Lemma await_spec {A} (evs : list Event) (m : M A) (w : World) :
  await evs m w = (outcome m w, after_events evs (exec m w)).
Proof.
  unfold await, outcome, exec. destruct (m w) as [r w'].
  rewrite dispatch_all_spec. reflexivity.
Qed.

(** ** The random gradient *)

Lemma array_at_in_range (l : list string) (k : Z) :
  0 <= k < Z.of_nat (length l) ->
  l !! Z.to_nat k = Some (array_at l (of_Z k)).
Proof.
  intros Hk. unfold array_at, of_Z, integer_value. cbn [Z.leb Z.compare].
  change (2 ^ 0) with 1. rewrite Z.mul_1_r.
  destruct (Z.ltb_spec k 0) as [|_]; [lia|].
  destruct (lookup_lt_is_Some_2 l (Z.to_nat k)) as [x Hx]; [lia|].
  rewrite Hx. reflexivity.
Qed.


Lemma getRandomGradient_spec (w : World) :
  getRandomGradient w
  = (Ok (array_at FALLBACK_GRADIENTS
           (random_index (entropy w (draws w)) (length FALLBACK_GRADIENTS))),
     with_draws (S (draws w)) w).
Proof. reflexivity. Qed.

(** The draw lands in the palette, on the entry of the tenth of the unit
    interval the random number lies in or, when the product rounds up to
    the next whole number, on the entry after it. *)
Lemma drawn_gradient_uniform (w : World) :
  next_random_ok w ->
  drawn_gradient w ∈ FALLBACK_GRADIENTS
  /\ forall k : Z,
       0 <= k < 10 ->
       in_tenth (entropy w (draws w)) k ->
       drawn_gradient w = array_at FALLBACK_GRADIENTS (of_Z k)
       \/ drawn_gradient w = array_at FALLBACK_GRADIENTS (of_Z (k + 1)).
Proof.
  unfold next_random_ok, drawn_gradient. intros Hr.
  destruct (entropy w (draws w)) as [| |m e]; try contradiction.
  change (length FALLBACK_GRADIENTS) with 10%nat.
  destruct (random_index_spec m e Hr) as (i & -> & Hi & Hlo & Hhi).
  change (Dyadic i 0) with (of_Z i).
  split.
  - apply list_elem_of_lookup. exists (Z.to_nat i).
    apply array_at_in_range. simpl. lia.
  - intros k Hk [Hk1 Hk2].
    specialize (Hlo k Hk1). specialize (Hhi k Hk2).
    assert (Hik : i = k \/ i = k + 1) by lia.
    destruct Hik as [-> | ->]; auto.
Qed.


(** The double nearest to 0.7 lies below 7/10, in the seventh tenth, and
    draws the eighth entry: its product with 10 rounds to 7. *)
Example double_0_7_draws_eighth :
  unit_double double_0_7
  /\ in_tenth double_0_7 6
  /\ random_index double_0_7 10 = of_Z 7.
Proof. repeat split; vm_compute; congruence. Qed.

(** ** What each operation leaves alone *)

Lemma getCachedBackground_frame (w : World) :
  same_but_store w (exec getCachedBackground w)
  /\ console (exec getCachedBackground w) = console w.
Proof.
  unfold exec, same_but_store.
  destruct (getCachedBackground_cases w)
    as [E | [(d & _ & _ & _ & E) | (d & _ & _ & _ & E)]];
    rewrite E; simpl; repeat split; reflexivity.
Qed.

Lemma setCachedBackground_frame (ty : BgType) (val : string) (w : World) :
  outcome (setCachedBackground ty val) w = Ok tt
  /\ same_but_store w (exec (setCachedBackground ty val) w).
Proof.
  unfold outcome, exec, same_but_store.
  destruct (setCachedBackground_cases ty val w) as [E | [E | [e E]]];
    rewrite E; simpl; repeat split; reflexivity.
Qed.

(** How a resolution ends: with no result, or with a non-empty URL of the
    list that preloads; either way it has only made requests. *)
Lemma for_sources_result (w : World) (l : list string) :
  exists r done_,
    for_sources l w = (Ok r, after_attempts w done_)
    /\ (r = None
        \/ exists u, r = Some u /\ u <> "" /\ preloads w u = true /\ u ∈ l).
Proof.
  revert w. induction l as [|s l IH]; intros w; simpl.
  - exists None, []. split; [reflexivity | left; reflexivity].
  - unfold bind. destruct (window w) eqn:Hw.
    + rewrite (try_source_browser w s) by congruence.
      destruct (preloads w s) eqn:Hs; simpl.
      * destruct (String.eqb_spec s "") as [He|He]; simpl.
        -- destruct (IH (after_attempt w s)) as (r & l' & E & Hr).
           exists r, (s :: l'). split; [exact E|].
           destruct Hr as [Hr | (u & Hu1 & Hu2 & Hu3 & Hu4)]; [left; exact Hr|].
           right. exists u. repeat split; auto. apply list_elem_of_further, Hu4.
        -- exists (Some s), [s]. split; [reflexivity|]. right. exists s.
           repeat split; auto. apply list_elem_of_here.
      * destruct (IH (after_attempt w s)) as (r & l' & E & Hr).
        exists r, (s :: l'). split; [exact E|].
        destruct Hr as [Hr | (u & Hu1 & Hu2 & Hu3 & Hu4)]; [left; exact Hr|].
        right. exists u. repeat split; auto. apply list_elem_of_further, Hu4.
    + rewrite (try_source_no_Image w s Hw).
      destruct (IH w) as (r & l' & E & Hr).
      exists r, l'. split; [exact E|].
      destruct Hr as [Hr | (u & Hu1 & Hu2 & Hu3 & Hu4)]; [left; exact Hr|].
      right. exists u. repeat split; auto. apply list_elem_of_further, Hu4.
Qed.

(** A resolution changes the clock and the request log, nothing else. *)
Lemma tryLoadImageFromSources_frame (w : World) :
  let w' := exec tryLoadImageFromSources w in
  window w' = window w /\ network w' = network w
  /\ localStorage w' = localStorage w /\ entropy w' = entropy w
  /\ draws w' = draws w /\ console w' = console w
  /\ backgroundUrl w' = backgroundUrl w /\ isLoaded w' = isLoaded w
  /\ mounted w' = mounted w /\ engine w' = engine w.
Proof.
  unfold exec. rewrite tryLoadImageFromSources_unfold.
  destruct (for_sources_result w (sources_of w)) as (r & l' & E & _).
  rewrite E. simpl. apply after_attempts_env.
Qed.

Lemma tryLoadImageFromSources_result (w : World) :
  outcome tryLoadImageFromSources w = Ok None
  \/ exists u,
       outcome tryLoadImageFromSources w = Ok (Some u)
       /\ u <> "" /\ preloads w u = true /\ u ∈ sources_of w.
Proof.
  unfold outcome. rewrite tryLoadImageFromSources_unfold.
  destruct (for_sources_result w (sources_of w)) as (r & l' & E & Hr).
  rewrite E. simpl.
  destruct Hr as [-> | (u & -> & Hu)]; [left; reflexivity | right; eauto].
Qed.

(** The resolution reads the window, the clock and the network only. *)
Lemma for_sources_same_env (w1 w2 : World) (l : list string) :
  window w1 = window w2 -> clock w1 = clock w2 -> network w1 = network w2 ->
  outcome (for_sources l) w1 = outcome (for_sources l) w2.
Proof.
  revert w1 w2. induction l as [|s l IH]; intros w1 w2 Hw Hc Hn;
    [reflexivity|].
  unfold outcome in *. simpl. unfold bind.
  destruct (window w1) eqn:Hw1.
  - rewrite (try_source_browser w1 s), (try_source_browser w2 s)
      by congruence.
    assert (Hp : preloads w1 s = preloads w2 s)
      by (unfold preloads, response; rewrite <- Hw, Hw1, Hn; reflexivity).
    rewrite Hp.
    destruct (preloads w2 s && negb (String.eqb s "")); [reflexivity|].
    assert (Hresp : response w1 s = response w2 s)
      by (unfold response; rewrite Hn; reflexivity).
    apply IH; unfold after_attempt; simpl; rewrite ?Hresp; congruence.
  - rewrite (try_source_no_Image w1 s), (try_source_no_Image w2 s)
      by congruence.
    apply IH; congruence.
Qed.

Lemma tryLoadImageFromSources_same_env (w1 w2 : World) :
  window w1 = window w2 -> clock w1 = clock w2 -> network w1 = network w2 ->
  outcome tryLoadImageFromSources w1 = outcome tryLoadImageFromSources w2.
Proof.
  intros Hw Hc Hn. unfold outcome.
  rewrite !tryLoadImageFromSources_unfold.
  assert (Hs : sources_of w1 = sources_of w2)
    by (unfold sources_of, isMobile; rewrite Hw, Hc; reflexivity).
  rewrite Hs. apply for_sources_same_env; assumption.
Qed.

(** ** Adopting what the read returned *)

(** On a record-shaped object: [gradient:] and the value for type
    gradient, with [isLoaded] set; the url otherwise. *)
Lemma adoptCached_record (d : BackgroundCache) (w : World) :
  mounted w = true ->
  adoptCached (record_value d) w
  = (Ok tt,
     if String.eqb (type d) "gradient"
     then with_isLoaded true (with_backgroundUrl (display_of d) w)
     else with_backgroundUrl (display_of d) w).
Proof.
  intros Hm. destruct (record_properties d) as (Ht & Hv & Hu & _).
  unfold adoptCached, display_of, get, gradient_template, setBackgroundUrl,
    setIsLoaded.
  unfold_monad. cbv beta. rewrite Hm, Ht. cbn [strict_equals].
  destruct (String.eqb (type d) "gradient").
  - rewrite Hv. reflexivity.
  - rewrite Hu. reflexivity.
Qed.


(** Induction on values, through arrays and objects. *)
Lemma Value_induction (P : Value -> Prop) :
  P VUndefined -> P VNull -> (forall b, P (VBool b)) ->
  (forall x, P (VNumber x)) -> (forall s, P (VString s)) ->
  (forall l, Forall P l -> P (VArray l)) ->
  (forall ms, Forall (fun kv => P (snd kv)) ms -> P (VObject ms)) ->
  forall v, P v.
Proof.
  intros H1 H2 H3 H4 H5 H6 H7. fix IH 1.
  intros [| |b|x|s|l|ms];
    [exact H1 | exact H2 | apply H3 | apply H4 | apply H5 | |].
  - apply H6. induction l as [|y l IHl]; constructor; [apply IH | exact IHl].
  - apply H7. induction ms as [|[k y] ms IHms]; constructor;
      [apply IH | exact IHms].
Qed.

Lemma join_throws (f : Value -> Result string) (l : list Value) (e : Exn) :
  Forall (fun x => forall e, f x = Throw e -> e = TypeError) l ->
  join f l = Throw e -> e = TypeError.
Proof.
  intros Hl. revert e. induction Hl as [|x l Hx Hl IH]; intros e.
  - discriminate.
  - cbn [join].
    destruct (match x with
              | VUndefined | VNull => Ok ""
              | _ => f x
              end) as [s|ex] eqn:Hfx.
    + destruct l as [|z l']; [discriminate|].
      change ((fix join (l : list Value) : Result string := _) (z :: l'))
        with (join f (z :: l')).
      destruct (join f (z :: l')) as [t|et] eqn:Ht; [discriminate|].
      intros [= <-]. apply IH. reflexivity.
    + intros [= <-]. destruct x; try discriminate; apply Hx, Hfx.
Qed.

(** A conversion to a string that throws, throws a TypeError. *)
Lemma ToString_throws (engine : Engine) (v : Value) (e : Exn) :
  ToString engine v = Throw e -> e = TypeError.
Proof.
  revert e. induction v as [| |b|x|s|l IH|ms _] using Value_induction;
    intros e; simpl; try discriminate.
  - apply join_throws. exact IH.
  - destruct (own_property ms "toString"); [|discriminate].
    intros [= <-]. reflexivity.
Qed.

Lemma read_property_throws (v : Value) (key : string) (e : Exn) :
  read_property v key = Throw e -> e = TypeError.
Proof. destruct v; simpl; congruence. Qed.

(** On any value: it returns, or throws the TypeError of a value that has
    no string; it touches nothing but the two state cells. *)
Lemma adoptCached_frame (v : Value) (w : World) :
  let w' := exec (adoptCached v) w in
  (outcome (adoptCached v) w = Ok tt
   \/ outcome (adoptCached v) w = Throw TypeError)
  /\ engine w' = engine w /\ window w' = window w
  /\ localStorage w' = localStorage w /\ clock w' = clock w
  /\ entropy w' = entropy w /\ draws w' = draws w
  /\ network w' = network w /\ requests w' = requests w
  /\ console w' = console w /\ mounted w' = mounted w.
Proof.
  unfold adoptCached, get, gradient_template, setBackgroundUrl, setIsLoaded.
  unfold_monad. cbv beta.
  destruct (mounted w) eqn:Hm; [|cbn; rewrite Hm; repeat split; auto].
  destruct (read_property v "type") as [ty|e] eqn:Hty;
    [|apply read_property_throws in Hty as ->;
      cbn; rewrite Hm; repeat split; auto].
  destruct (strict_equals ty "gradient").
  - destruct (read_property v "value") as [val|e] eqn:Hval;
      [|apply read_property_throws in Hval as ->;
        cbn; rewrite Hm; repeat split; auto].
    destruct (ToString (engine w) val) as [s|e] eqn:Hs;
      [|apply ToString_throws in Hs as ->];
      cbn; rewrite Hm; repeat split; auto.
  - destruct (read_property v "url") as [u|e] eqn:Hu;
      [|apply read_property_throws in Hu as ->];
      cbn; rewrite Hm; repeat split; auto.
Qed.

(** ** Mounting *)

Lemma mount_start_unfold (w : World) :
  mount_start w = initBackground_start (rendered w).
Proof. reflexivity. Qed.

Lemma mount_start_hit (w : World) (d : BackgroundCache) :
  readable w = true ->
  stored w = Some (text_record d) ->
  is_expired (clock w) (timestamp d) = false ->
  mount_start w
  = (Ok done,
     with_isLoaded (String.eqb (type d) "gradient")
       (with_backgroundUrl (display_of d) (rendered w))).
Proof.
  intros Hr Hs He. rewrite mount_start_unfold.
  unfold initBackground_start, bind.
  rewrite (getCachedBackground_record_hit (rendered w) d Hr Hs He).
  destruct (record_properties d) as (_ & _ & _ & ->).
  rewrite adoptCached_record by reflexivity.
  unfold ret. destruct (String.eqb (type d) "gradient"); reflexivity.
Qed.

Lemma getCachedBackground_rendered (w : World) :
  outcome getCachedBackground (rendered w) = outcome getCachedBackground w.
Proof.
  unfold outcome.
  destruct (getCachedBackground_cases w)
    as [E | [(d & Hr & Hs & He & E) | (d & Hr & Hs & He & E)]]; rewrite E.
  - destruct (getCachedBackground_cases (rendered w))
      as [E' | [(d & Hr & Hs & He & E') | (d & Hr & Hs & He & E')]];
      rewrite E'; try reflexivity.
    rewrite (getCachedBackground_hit w d Hr Hs He) in E.
    injection E as <-. reflexivity.
  - rewrite (getCachedBackground_hit (rendered w) d Hr Hs He). reflexivity.
  - rewrite (getCachedBackground_evict (rendered w) d Hr Hs He). reflexivity.
Qed.

Lemma misses_true (w : World) :
  misses w = true ->
  exists v, outcome getCachedBackground w = Ok v /\ truthy_value v = false.
Proof.
  unfold misses. destruct (outcome getCachedBackground w) as [v|e];
    [|discriminate].
  intros H. exists v. split; [reflexivity|].
  destruct (truthy_value v); [discriminate | reflexivity].
Qed.

Lemma misses_false (w : World) :
  misses w = false ->
  exists v, outcome getCachedBackground w = Ok v /\ truthy_value v = true.
Proof.
  unfold misses. destruct (getCachedBackground_total w) as [v ->].
  intros H. exists v. split; [reflexivity|].
  destruct (truthy_value v); [reflexivity | discriminate].
Qed.

(** A truthy result of the read is the stored value, returned with the
    world untouched. *)
Lemma read_truthy (w : World) (v : Value) :
  outcome getCachedBackground w = Ok v ->
  truthy_value v = true ->
  getCachedBackground w = (Ok v, w)
  /\ readable w = true /\ stored w = Some (text_json v)
  /\ expired w v = Ok false.
Proof.
  unfold outcome. intros Ho Ht.
  destruct (getCachedBackground_cases w)
    as [E | [(d & Hr & Hs & He & E) | (d & Hr & Hs & He & E)]];
    rewrite E in Ho; cbn [fst] in Ho; injection Ho as <-;
    try discriminate.
  auto.
Qed.

(** Mounting on a truthy result of the read is adopting it. *)
Lemma mount_hit (w : World) (v : Value) (evs : list Event) :
  outcome getCachedBackground w = Ok v ->
  truthy_value v = true ->
  mount_start w = bind (adoptCached v) (fun _ => ret done) (rendered w)
  /\ mount evs w = adoptCached v (rendered w).
Proof.
  intros Ho Ht. destruct (read_truthy w v Ho Ht) as (_ & Hr & Hs & He).
  assert (E : mount_start w
              = bind (adoptCached v) (fun _ => ret done) (rendered w)).
  { rewrite mount_start_unfold. unfold initBackground_start.
    unfold bind at 1.
    rewrite (getCachedBackground_hit (rendered w) v Hr Hs He), Ht.
    reflexivity. }
  split; [exact E|].
  unfold mount, run_async. unfold bind at 1. rewrite E. unfold bind, ret.
  destruct (adoptCached v (rendered w)) as [[[]|e] w']; reflexivity.
Qed.

Lemma missed_frame (w : World) :
  window (missed w) = window w /\ clock (missed w) = clock w
  /\ entropy (missed w) = entropy w /\ draws (missed w) = draws w
  /\ network (missed w) = network w /\ requests (missed w) = requests w
  /\ console (missed w) = console w
  /\ backgroundUrl (missed w) = "" /\ isLoaded (missed w) = false
  /\ mounted (missed w) = true
  /\ blocked (localStorage (missed w)) = blocked (localStorage w)
  /\ full (localStorage (missed w)) = full (localStorage w)
  /\ engine (missed w) = engine w.
Proof.
  unfold missed.
  destruct (getCachedBackground_frame (rendered w))
    as ((?&?&?&?&?&?&?&?&?&?&?&?) & ?).
  repeat split; assumption.
Qed.

Lemma writable_gradient_shown (w : World) :
  writable (gradient_shown w) = writable w.
Proof.
  destruct (missed_frame w) as (Hw&_&_&_&_&_&_&_&_&_&Hb&Hf&_).
  unfold writable, readable, gradient_shown. simpl.
  rewrite Hw, Hb, Hf. reflexivity.
Qed.

(** A read leaves the entry alone or removes it; a write leaves it alone
    or replaces it by the record it was asked to write. *)
Lemma stored_after_read (w : World) :
  stored (exec getCachedBackground w) = stored w
  \/ stored (exec getCachedBackground w) = None.
Proof.
  unfold exec.
  destruct (getCachedBackground_cases w)
    as [E | [(d & _ & _ & _ & E) | (d & _ & _ & _ & E)]]; rewrite E.
  - left. reflexivity.
  - left. reflexivity.
  - right. apply stored_evicted.
Qed.

Lemma stored_after_write (ty : BgType) (val : string) (w : World) :
  stored (exec (setCachedBackground ty val) w) = stored w
  \/ stored (exec (setCachedBackground ty val) w)
     = Some (text_record (record_of ty val (clock w))).
Proof.
  unfold exec.
  destruct (setCachedBackground_cases ty val w) as [E | [E | [e E]]];
    rewrite E.
  - right. apply stored_written.
  - left. reflexivity.
  - left. reflexivity.
Qed.

Section MissAtMount.

(** The cache read at mount reports no record. *)
Variable w : World.
Hypothesis Hmiss : misses w = true.

(** [mount_start] then suspends at the [await], having shown the drawn
    gradient and written it to the cache. *)
Lemma mount_start_miss :
  mount_start w
  = (Ok (awaiting loadRealImage),
     exec (setCachedBackground gradient (drawn_gradient w))
       (gradient_shown w)).
Proof.
  destruct (misses_true w Hmiss) as (v & Hread & Hfalsy).
  rewrite mount_start_unfold.
  rewrite <- getCachedBackground_rendered in Hread.
  destruct (missed_frame w) as (_&_&He&Hd&_&_&_&_&_&Hm&_).
  unfold initBackground_start, bind, gradient_shown, missed, exec, outcome in *.
  destruct (getCachedBackground (rendered w)) as [r w1]. simpl in *.
  subst r. rewrite Hfalsy.
  unfold showGradient, bind. rewrite getRandomGradient_spec.
  unfold gets. simpl. rewrite Hm.
  unfold setBackgroundUrl, setIsLoaded, modify. simpl.
  unfold drawn_gradient. rewrite He, Hd.
  set (g := array_at FALLBACK_GRADIENTS _).
  set (wx := with_isLoaded true _).
  destruct (setCachedBackground_frame gradient g wx) as [Ho _].
  unfold outcome in Ho.
  destruct (setCachedBackground gradient g wx) as [r' w2]. simpl in *.
  subst r'. reflexivity.
Qed.

(** A value of type image found in the cache at that point was there
    before. *)
Lemma mount_start_miss_stored (v : Value) :
  stored (exec mount_start w) = Some (text_json v) ->
  read_property v "type" = Ok (VString "image") ->
  stored w = Some (text_json v).
Proof.
  unfold exec at 1. rewrite mount_start_miss. cbn [snd].
  intros Hd Ht.
  destruct (stored_after_write gradient (drawn_gradient w) (gradient_shown w))
    as [E | E]; rewrite E in Hd.
  - change (stored (gradient_shown w)) with (stored (missed w)) in Hd.
    unfold missed in Hd.
    destruct (stored_after_read (rendered w)) as [E' | E'];
      rewrite E' in Hd; [exact Hd | discriminate].
  - injection Hd as <-. discriminate.
Qed.

(** The provider state and the environment at that point. *)
Lemma mount_start_miss_state :
  let w1 := exec mount_start w in
  backgroundUrl w1 = "gradient:" +:+ drawn_gradient w
  /\ isLoaded w1 = true /\ mounted w1 = true
  /\ requests w1 = requests w /\ clock w1 = clock w
  /\ window w1 = window w /\ network w1 = network w
  /\ entropy w1 = entropy w /\ draws w1 = S (draws w)
  /\ engine w1 = engine w.
Proof.
  intros w1. unfold w1, exec. rewrite mount_start_miss.
  simpl.
  destruct (setCachedBackground_frame gradient (drawn_gradient w)
              (gradient_shown w)) as (_ & Hw&Hc&He&Hd&Hn&Hq&Hu&Hl&Hm&_&_&Hg).
  destruct (missed_frame w) as (Hw'&Hc'&He'&Hd'&Hn'&Hq'&_&_&_&Hm'&_&_&Hg').
  unfold exec in *.
  rewrite Hu, Hl, Hm, Hq, Hc, Hw, Hn, He, Hd, Hg.
  unfold gradient_shown. simpl.
  repeat split; assumption.
Qed.

End MissAtMount.

(** ** C1: mounting on a cached record *)

(** C1, as stated, fails on the code: with a gradient record written one
    hour ago in the cache and a network that would serve every source, the
    provider shows the cached gradient with [isLoaded] true, and no image
    source is ever requested, although a resolution started in the same
    world requests one and succeeds.  The same holds with a cached image
    record: its URL is shown, [isLoaded] is false, nothing is requested. *)
Lemma C1_counterexample :
  let w := browser (Some (text_record (gradient_record 3600000))) served in
  backgroundUrl (exec (mount []) w) = "gradient:" +:+ plum
  /\ isLoaded (exec (mount []) w) = true
  /\ requests (exec (mount []) w) = []
  /\ outcome tryLoadImageFromSources w
     = Ok (Some "https://loliapi.com/acg/?w=1920&1700000000000")
  /\ map req_url (requests (exec tryLoadImageFromSources w))
     = ["https://loliapi.com/acg/?w=1920&1700000000000"]
  /\ (let w := browser (Some (text_record (image_record 3600000))) served in
      backgroundUrl (exec (mount []) w) = "https://example.org/a.png"
      /\ isLoaded (exec (mount []) w) = false
      /\ requests (exec (mount []) w) = []).
Proof.
  repeat split; vm_compute; reflexivity.
Qed.

(** C1, amended: mounting with a cached record that the read accepts
    (readable storage, a record-shaped object not older than 24 hours)
    adopts it as the display value: a record of type gradient as
    [gradient:] followed by its value, with [isLoaded] true; any other
    record as its url, with [isLoaded] left false.  Then [initBackground]
    returns: it never reaches its [await], requests no image source, and
    leaves the clock and the cache as they were, whatever happens
    afterwards. *)
Theorem C1_cached_record_adopted (w : World) (d : BackgroundCache)
    (evs : list Event) :
  readable w = true ->
  stored w = Some (text_record d) ->
  (forall t, timestamp d = Some t -> clock w - t <= BG_EXPIRE_TIME) ->
  let w' := exec (mount evs) w in
  outcome mount_start w = Ok done
  /\ outcome (mount evs) w = Ok tt
  /\ backgroundUrl w'
     = (if String.eqb (type d) "gradient" then "gradient:" +:+ value d
        else url d)
  /\ isLoaded w' = String.eqb (type d) "gradient"
  /\ requests w' = requests w
  /\ clock w' = clock w
  /\ localStorage w' = localStorage w.
Proof.
  intros Hr Hs Ht w'. apply is_expired_false in Ht.
  pose proof (mount_start_hit w d Hr Hs Ht) as E.
  unfold w', mount, run_async, outcome, exec, bind. rewrite E. simpl.
  unfold display_of.
  repeat split; destruct (String.eqb (type d) "gradient"); reflexivity.
Qed.

(** C1, amended, on the desktop browser that holds a gradient record
    written one hour ago, with a [setLoaded] call arriving meanwhile. *)
Lemma C1_witness :
  let w := browser (Some (text_record (gradient_record 3600000))) served in
  let w' := exec (mount [ev_setLoaded]) w in
  outcome mount_start w = Ok done
  /\ outcome (mount [ev_setLoaded]) w = Ok tt
  /\ backgroundUrl w' = "gradient:" +:+ plum
  /\ isLoaded w' = true
  /\ requests w' = []
  /\ clock w' = 1700000000000
  /\ localStorage w' = localStorage w.
Proof.
  apply (C1_cached_record_adopted
           (browser (Some (text_record (gradient_record 3600000))) served)
           (gradient_record 3600000) [ev_setLoaded]).
  - reflexivity.
  - reflexivity.
  - intros t [= <-]. vm_compute. discriminate.
Defined.

(** ** C4: the fallback gradient on a cache miss *)




(** ** The continuation of [initBackground] *)

Lemma tryLoadImageFromSources_total (w : World) :
  exists r, outcome tryLoadImageFromSources w = Ok r.
Proof.
  destruct (tryLoadImageFromSources_result w) as [E | (u & E & _)]; eauto.
Qed.

Lemma tryLoadImageFromSources_all_fail (w : World) :
  Forall (fun s => preloads w s = false) (sources_of w) ->
  outcome tryLoadImageFromSources w = Ok None.
Proof.
  intros Hall. unfold outcome. rewrite tryLoadImageFromSources_unfold.
  destruct (window w) eqn:Hw.
  - rewrite for_sources_all_fail by (congruence || assumption). reflexivity.
  - rewrite for_sources_no_Image by assumption. reflexivity.
Qed.

Lemma resumed_frame (evs : list Event) (w : World) :
  window (resumed evs w) = window w
  /\ network (resumed evs w) = network w
  /\ localStorage (resumed evs w) = localStorage w
  /\ entropy (resumed evs w) = entropy w
  /\ draws (resumed evs w) = draws w
  /\ console (resumed evs w) = console w
  /\ backgroundUrl (resumed evs w) = backgroundUrl w
  /\ isLoaded (resumed evs w) = isLoaded w || arrives ev_setLoaded evs
  /\ mounted (resumed evs w) = mounted w && negb (arrives ev_unmount evs)
  /\ engine (resumed evs w) = engine w.
Proof.
  destruct (tryLoadImageFromSources_frame w) as (?&?&?&?&?&?&?&Hl&Hm&?).
  unfold resumed, after_events. simpl. rewrite Hl, Hm.
  repeat split; assumption.
Qed.

Lemma loadRealImage_kept (evs : list Event) (w : World) :
  outcome tryLoadImageFromSources w = Ok None
  \/ mounted (resumed evs w) = false ->
  loadRealImage evs w = (Ok tt, resumed evs w).
Proof.
  intros H. unfold loadRealImage, try_catch, bind.
  rewrite await_spec. fold (resumed evs w).
  destruct (tryLoadImageFromSources_total w) as [r Hr].
  rewrite Hr. unfold gets.
  destruct H as [H | H].
  - rewrite Hr in H. injection H as ->. reflexivity.
  - rewrite H, andb_false_r. reflexivity.
Qed.

Lemma loadRealImage_adopted (evs : list Event) (w : World) (u : string) :
  outcome tryLoadImageFromSources w = Ok (Some u) ->
  u <> "" ->
  mounted (resumed evs w) = true ->
  loadRealImage evs w
  = (Ok tt,
     exec (setCachedBackground image u)
       (with_isLoaded false (with_backgroundUrl u (resumed evs w)))).
Proof.
  intros Hr Hne Hm. unfold loadRealImage, try_catch, bind.
  rewrite await_spec. fold (resumed evs w). rewrite Hr.
  unfold gets. rewrite Hm. simpl.
  apply String.eqb_neq in Hne. rewrite Hne. simpl.
  unfold setBackgroundUrl, setIsLoaded, modify.
  destruct (setCachedBackground_frame image u
              (with_isLoaded false (with_backgroundUrl u (resumed evs w))))
    as [Ho _].
  unfold outcome, exec in *.
  destruct (setCachedBackground image u _) as [r' w2]. simpl in *.
  subst r'. reflexivity.
Qed.

(** ** C7: a failed resolution keeps the gradient *)

(** C7: when the cache read at mount reports no record and every source
    fails or times out, mounting ends in the state [initBackground] had
    reached before the fetch: the same display value, a gradient, the same
    [isLoaded], true, and the same cache store, whatever events arrive
    meanwhile; the resolution writes nothing to the cache, and a value of
    type image found there afterwards is one that was there before
    mounting. *)
Theorem C7_failed_fetch_keeps_gradient (w : World) (evs : list Event) :
  misses w = true ->
  Forall (fun s => preloads w s = false) (sources_of w) ->
  let w1 := exec mount_start w in
  let w' := exec (mount evs) w in
  outcome (mount evs) w = Ok tt
  /\ backgroundUrl w' = backgroundUrl w1
  /\ isLoaded w' = isLoaded w1
  /\ localStorage w' = localStorage w1
  /\ backgroundUrl w' = "gradient:" +:+ drawn_gradient w
  /\ isLoaded w' = true
  /\ (forall v,
        stored w' = Some (text_json v) ->
        read_property v "type" = Ok (VString "image") ->
        stored w = Some (text_json v)).
Proof.
  intros Hmiss Hall w1 w'.
  destruct (mount_start_miss_state w Hmiss) as (Hu&Hl&_&_&Hc&Hw&Hn&_).
  fold w1 in Hu, Hl, Hc, Hw, Hn.
  assert (Hnone : outcome tryLoadImageFromSources w1 = Ok None).
  { rewrite (tryLoadImageFromSources_same_env w1 w Hw Hc Hn).
    apply tryLoadImageFromSources_all_fail, Hall. }
  assert (E : mount evs w = (Ok tt, resumed evs w1)).
  { pose proof (mount_start_miss w Hmiss) as E0.
    assert (Hw1 : exec (setCachedBackground gradient (drawn_gradient w))
                    (gradient_shown w) = w1)
      by (unfold w1, exec at 2; rewrite E0; reflexivity).
    unfold mount, run_async, bind. rewrite E0, Hw1.
    apply loadRealImage_kept. left. exact Hnone. }
  destruct (resumed_frame evs w1) as (_&_&Hs'&_&_&_&Hu'&Hl'&_).
  unfold w', outcome, exec. rewrite E. cbn [fst snd].
  rewrite Hu', Hl', Hs', Hl, Hu.
  split; [reflexivity|]. split; [reflexivity|]. split; [reflexivity|].
  split; [reflexivity|]. split; [reflexivity|]. split; [reflexivity|].
  intros d Hd Ht. apply (mount_start_miss_stored w Hmiss d); [|exact Ht].
  fold w1. unfold stored in *. rewrite <- Hs'. exact Hd.
Qed.

(** C7 in a browser with an empty cache and no network, with a
    [setLoaded] call and the unmount arriving during the fetch. *)
Lemma C7_witness :
  let w := browser None offline in
  let w' := exec (mount [ev_setLoaded; ev_unmount]) w in
  outcome (mount [ev_setLoaded; ev_unmount]) w = Ok tt
  /\ backgroundUrl w' = backgroundUrl (exec mount_start w)
  /\ isLoaded w' = isLoaded (exec mount_start w)
  /\ localStorage w' = localStorage (exec mount_start w)
  /\ backgroundUrl w'
     = "gradient:linear-gradient(135deg, #43e97b 0%, #38f9d7 100%)"
  /\ isLoaded w' = true
  /\ (forall v,
        stored w' = Some (text_json v) ->
        read_property v "type" = Ok (VString "image") ->
        stored w = Some (text_json v)).
Proof.
  apply (C7_failed_fetch_keeps_gradient (browser None offline)
           [ev_setLoaded; ev_unmount]).
  - reflexivity.
  - repeat constructor.
Defined.

(** ** Refreshing *)

Lemma refreshBackground_unfold (evs : list Event) (w : World) :
  refreshBackground evs w = refresh_rest evs (with_isLoaded false w).
Proof. reflexivity. Qed.

Lemma writable_resumed (evs : list Event) (w : World) :
  writable (resumed evs w) = writable w.
Proof.
  destruct (resumed_frame evs w) as (Hw&_&Hs&_).
  unfold writable, readable. rewrite Hw, Hs. reflexivity.
Qed.

Lemma refresh_rest_found (evs : list Event) (w : World) (u : string) :
  outcome tryLoadImageFromSources w = Ok (Some u) ->
  u <> "" ->
  refresh_rest evs w
  = (Ok tt,
     exec (setCachedBackground image u)
       (with_backgroundUrl u (resumed evs w))).
Proof.
  intros Hr Hne. unfold refresh_rest, bind.
  rewrite await_spec. fold (resumed evs w). rewrite Hr. simpl.
  apply String.eqb_neq in Hne. rewrite Hne. simpl.
  unfold setBackgroundUrl, modify.
  destruct (setCachedBackground_frame image u
              (with_backgroundUrl u (resumed evs w))) as [Ho _].
  unfold outcome, exec in *.
  destruct (setCachedBackground image u _) as [r' w2]. simpl in *.
  subst r'. reflexivity.
Qed.

Lemma refresh_rest_failed (evs : list Event) (w : World) :
  outcome tryLoadImageFromSources w = Ok None ->
  refresh_rest evs w
  = (Ok tt,
     with_isLoaded true
       (exec (setCachedBackground gradient (drawn_gradient w))
          (with_backgroundUrl ("gradient:" +:+ drawn_gradient w)
             (with_draws (S (draws w)) (resumed evs w))))).
Proof.
  intros Hr. unfold refresh_rest, bind.
  rewrite await_spec. fold (resumed evs w). rewrite Hr. cbn [truthy].
  rewrite getRandomGradient_spec.
  destruct (resumed_frame evs w) as (_&_&_&He&Hd&_).
  rewrite He, Hd. fold (drawn_gradient w).
  unfold setBackgroundUrl, setIsLoaded, modify.
  destruct (setCachedBackground_frame gradient (drawn_gradient w)
              (with_backgroundUrl ("gradient:" +:+ drawn_gradient w)
                 (with_draws (S (draws w)) (resumed evs w)))) as [Ho _].
  unfold outcome, exec in *.
  destruct (setCachedBackground gradient (drawn_gradient w) _) as [r' w2].
  simpl in *. subst r'. reflexivity.
Qed.

(** What a cache write leaves in a writable store. *)
Lemma setCachedBackground_stored (ty : BgType) (val : string) (w : World) :
  writable w = true ->
  let w' := exec (setCachedBackground ty val) w in
  stored w'
  = Some (text_record
            {| url := val; timestamp := Some (clock w');
               type := type_tag ty; value := val |}).
Proof.
  intros Hw w'. unfold w', exec.
  rewrite (setCachedBackground_writable ty val w Hw). cbn [snd].
  rewrite stored_written. reflexivity.
Qed.

(** What was written is what the next read returns. *)
Lemma write_then_read (ty : BgType) (val : string) (w : World) :
  writable w = true ->
  let w' := exec (setCachedBackground ty val) w in
  getCachedBackground w'
  = (Ok (record_value (record_of ty val (clock w))), w').
Proof.
  intros Hw w'. unfold w', exec.
  rewrite (setCachedBackground_writable ty val w Hw). cbn [snd].
  apply getCachedBackground_record_hit.
  - unfold writable in Hw. apply andb_true_iff in Hw. apply Hw.
  - apply stored_written.
  - simpl. rewrite Z.sub_diag. reflexivity.
Qed.

(** What a refresh does, for every world and all events meanwhile. *)
Lemma refreshBackground_spec (w : World) (evs : list Event) :
  next_random_ok w ->
  let w0 := exec refreshBackground_start w in
  let w' := exec (refreshBackground evs) w in
  outcome refreshBackground_start w = Ok (awaiting refresh_rest)
  /\ isLoaded w0 = false
  /\ refreshBackground evs w = refresh_rest evs w0
  /\ outcome (refreshBackground evs) w = Ok tt
  /\ exists found,
       outcome tryLoadImageFromSources w0 = Ok found
       /\ match found with
          | Some u =>
              u ∈ sources_of w /\ preloads w u = true
              /\ backgroundUrl w' = u
              /\ isLoaded w' = arrives ev_setLoaded evs
              /\ (writable w = true ->
                  stored w'
                  = Some (text_record
                            {| url := u; timestamp := Some (clock w');
                               type := "image"; value := u |}))
          | None =>
              drawn_gradient w ∈ FALLBACK_GRADIENTS
              /\ backgroundUrl w' = "gradient:" +:+ drawn_gradient w
              /\ isLoaded w' = true
              /\ (writable w = true ->
                  stored w'
                  = Some (text_record
                            {| url := drawn_gradient w;
                               timestamp := Some (clock w');
                               type := "gradient";
                               value := drawn_gradient w |}))
          end.
Proof.
  intros Hrand w0 w'.
  change w0 with (with_isLoaded false w) in *.
  split; [reflexivity|]. split; [reflexivity|]. split; [reflexivity|].
  unfold w', outcome, exec. rewrite refreshBackground_unfold.
  destruct (resumed_frame evs (with_isLoaded false w))
    as (_&_&_&_&_&_&_&Hl&_).
  simpl in Hl.
  destruct (tryLoadImageFromSources_result (with_isLoaded false w))
    as [E | (u & E & Hne & Hp & Hin)].
  - (* no source loads: the gradient *)
    rewrite (refresh_rest_failed evs _ E). cbn [fst snd].
    change (drawn_gradient (with_isLoaded false w)) with (drawn_gradient w).
    split; [reflexivity|]. exists None. split; [exact E|].
    set (wx := with_backgroundUrl _ _).
    destruct (setCachedBackground_frame gradient (drawn_gradient w) wx)
      as (_ & _&Hc&_&_&_&_&Hu&_).
    split; [apply drawn_gradient_uniform, Hrand|].
    split; [cbn [backgroundUrl with_isLoaded]; rewrite Hu; reflexivity|].
    split; [reflexivity|].
    intros Hwr.
    assert (Hwx : writable wx = true)
      by (change (writable (resumed evs (with_isLoaded false w)) = true);
          rewrite writable_resumed; exact Hwr).
    apply (setCachedBackground_stored gradient (drawn_gradient w) wx Hwx).
  - (* a source loads: the image *)
    rewrite (refresh_rest_found evs _ u E Hne). cbn [fst snd].
    split; [reflexivity|]. exists (Some u). split; [exact E|].
    set (wx := with_backgroundUrl _ _).
    destruct (setCachedBackground_frame image u wx)
      as (_ & _&Hc&_&_&_&_&Hu&Hl'&_).
    split; [exact Hin|]. split; [exact Hp|].
    split; [rewrite Hu; reflexivity|].
    split; [rewrite Hl'; unfold wx; simpl; exact Hl|].
    intros Hwr.
    assert (Hwx : writable wx = true)
      by (change (writable (resumed evs (with_isLoaded false w)) = true);
          rewrite writable_resumed; exact Hwr).
    apply (setCachedBackground_stored image u wx Hwx).
Qed.

(** ** C6: refresh *)

(** C6 holds but for one case the code misses.  [refreshBackground] sets
    [isLoaded] to false, suspends on the image resolution and never throws;
    when the resolution finds no image, a gradient drawn anew becomes the
    display value, is written to the cache, and [isLoaded] is true; when it
    finds one, its URL becomes the display value and is written to the
    cache.  But [isLoaded] is set to false before the [await] only: when
    [setLoaded] runs while the resolution is in flight (the image shown
    before finishes loading), the new image is adopted with [isLoaded]
    true.  [initBackground] resets [isLoaded] when it adopts the image, and
    ends not ready under the same events. *)
Theorem C6_refresh_adopts_image_ready :
  (forall (w : World) (evs : list Event),
     next_random_ok w ->
     let w0 := exec refreshBackground_start w in
     let w' := exec (refreshBackground evs) w in
     isLoaded w0 = false
     /\ outcome (refreshBackground evs) w = Ok tt
     /\ exists found,
          outcome tryLoadImageFromSources w0 = Ok found
          /\ match found with
             | Some u =>
                 backgroundUrl w' = u
                 /\ isLoaded w' = arrives ev_setLoaded evs
             | None =>
                 drawn_gradient w ∈ FALLBACK_GRADIENTS
                 /\ backgroundUrl w' = "gradient:" +:+ drawn_gradient w
                 /\ isLoaded w' = true
             end)
  /\ (let w := showing_image served in
      let w' := exec (refreshBackground [ev_setLoaded]) w in
      isLoaded (exec refreshBackground_start w) = false
      /\ outcome tryLoadImageFromSources (exec refreshBackground_start w)
         = Ok (Some "https://loliapi.com/acg/?w=1920&1700000000000")
      /\ backgroundUrl w' = "https://loliapi.com/acg/?w=1920&1700000000000"
      /\ isLoaded w' = true)
  /\ (let w := browser None served in
      let w' := exec (mount [ev_setLoaded]) w in
      backgroundUrl w' = "https://loliapi.com/acg/?w=1920&1700000000000"
      /\ isLoaded w' = false).
Proof.
  split; [|split].
  - intros w evs Hrand w0 w'.
    destruct (refreshBackground_spec w evs Hrand)
      as (_ & H0 & _ & Hok & found & Hfound & Hcase).
    split; [exact H0|]. split; [exact Hok|].
    exists found. split; [exact Hfound|].
    destruct found as [u|].
    + destruct Hcase as (_ & _ & Hu & Hl & _). auto.
    + destruct Hcase as (Hin & Hu & Hl & _). auto.
  - repeat split; vm_compute; reflexivity.
  - repeat split; vm_compute; reflexivity.
Qed.

(** ** C5: continuations after unmount *)

Lemma arrives_unmount_resumed (evs : list Event) (w : World) :
  arrives ev_unmount evs = true -> mounted (resumed evs w) = false.
Proof.
  intros H. destruct (resumed_frame evs w) as (_&_&_&_&_&_&_&_&Hm&_).
  rewrite Hm, H. apply andb_false_r.
Qed.

(** C5 holds for the continuation of [initBackground] and fails for the
    one of [refreshBackground].  Once the provider has unmounted during the
    fetch, the rest of [initBackground] changes neither the display value
    nor the cache nor the console.  The rest of [refreshBackground] never
    reads [mounted]: in a provider that unmounts while a refresh is in
    flight, the refresh still replaces the display value, resets
    [isLoaded] and writes the cache. *)
Theorem C5_refresh_ignores_unmount :
  (forall (w : World) (evs : list Event),
     arrives ev_unmount evs = true ->
     let w' := exec (loadRealImage evs) w in
     backgroundUrl w' = backgroundUrl w
     /\ isLoaded w' = isLoaded w || arrives ev_setLoaded evs
     /\ localStorage w' = localStorage w
     /\ console w' = console w)
  /\ (let w := showing_gradient served in
      let w' := exec (refreshBackground [ev_unmount]) w in
      mounted w' = false
      /\ backgroundUrl w = "gradient:" +:+ plum
      /\ backgroundUrl w' = "https://loliapi.com/acg/?w=1920&1700000000000"
      /\ isLoaded w = true
      /\ isLoaded w' = false
      /\ stored w = None
      /\ stored w'
         = Some (text_record
                   (record_of image
                      "https://loliapi.com/acg/?w=1920&1700000000000"
                      1700000000120))).
Proof.
  split.
  - intros w evs Hun w'. unfold w', exec.
    rewrite (loadRealImage_kept evs w)
      by (right; apply arrives_unmount_resumed, Hun).
    cbn [snd].
    destruct (resumed_frame evs w) as (_&_&Hs&_&_&Hc&Hu&Hl&_).
    auto.
  - repeat split; vm_compute; reflexivity.
Qed.

(** ** C8: [setLoaded] is idempotent *)

(** C8: [setLoaded] never throws, and calling it [n + 1] times leaves the
    world, and so the context value consumers see, exactly as one call
    does. *)
Theorem C8_setLoaded_idempotent (w : World) (n : nat) :
  outcome setLoaded w = Ok tt
  /\ exec setLoaded (exec setLoaded w) = exec setLoaded w
  /\ Nat.iter (S n) (exec setLoaded) w = exec setLoaded w
  /\ exec (dispatch_all (replicate (S n) ev_setLoaded)) w = exec setLoaded w.
Proof.
  split; [reflexivity|]. split; [reflexivity|]. split.
  - induction n as [|n IH]; [reflexivity|].
    change (Nat.iter (S (S n)) (exec setLoaded) w)
      with (exec setLoaded (Nat.iter (S n) (exec setLoaded) w)).
    rewrite IH. reflexivity.
  - unfold exec. rewrite dispatch_all_spec. cbn [snd].
    unfold after_events.
    assert (Hs : arrives ev_setLoaded (replicate (S n) ev_setLoaded) = true)
      by reflexivity.
    assert (Hu : arrives ev_unmount (replicate (S n) ev_setLoaded) = false).
    { clear. induction (S n) as [|m IH]; [reflexivity | exact IH]. }
    rewrite Hs, Hu, orb_true_r, andb_true_r.
    destruct w; reflexivity.
Qed.

(** ** C9: the usage error and the other halts *)

Lemma loadRealImage_total (evs : list Event) (w : World) :
  outcome (loadRealImage evs) w = Ok tt.
Proof.
  unfold outcome.
  destruct (tryLoadImageFromSources_result w) as [E | (u & E & Hne & _)].
  - rewrite loadRealImage_kept by (left; exact E). reflexivity.
  - destruct (mounted (resumed evs w)) eqn:Hm.
    + rewrite (loadRealImage_adopted evs w u E Hne Hm). reflexivity.
    + rewrite loadRealImage_kept by (right; exact Hm). reflexivity.
Qed.

(** The continuation leaves a string on display if there was one. *)
Lemma loadRealImage_shows_string (evs : list Event) (w : World) :
  shows_string w -> shows_string (exec (loadRealImage evs) w).
Proof.
  intros [s Hs]. unfold exec.
  destruct (resumed_frame evs w) as (_&_&_&_&_&_&Hu&_).
  destruct (tryLoadImageFromSources_result w) as [E | (u & E & Hne & _)].
  - rewrite loadRealImage_kept by (left; exact E).
    exists s. cbn [snd]. congruence.
  - destruct (mounted (resumed evs w)) eqn:Hm.
    + rewrite (loadRealImage_adopted evs w u E Hne Hm). cbn [snd].
      destruct (setCachedBackground_frame image u
                  (with_isLoaded false
                     (with_backgroundUrl u (resumed evs w))))
        as (_ & _&_&_&_&_&_&Hb&_).
      exists u. rewrite Hb. reflexivity.
    + rewrite loadRealImage_kept by (right; exact Hm).
      exists s. cbn [snd]. congruence.
Qed.

Lemma mount_miss_total (evs : list Event) (w : World) :
  misses w = true ->
  outcome (mount evs) w = Ok tt /\ shows_string (exec (mount evs) w).
Proof.
  intros Hmiss.
  assert (E : mount evs w = loadRealImage evs (exec mount_start w)).
  { unfold mount, run_async, bind, exec.
    rewrite (mount_start_miss w Hmiss). reflexivity. }
  unfold outcome, exec. rewrite E. split.
  - apply loadRealImage_total.
  - apply loadRealImage_shows_string.
    destruct (mount_start_miss_state w Hmiss) as (Hu & _).
    eexists. exact Hu.
Qed.

(** A record-shaped object that the read returns is in the store and not
    older than 24 hours. *)
Lemma read_record (w : World) (d : BackgroundCache) :
  outcome getCachedBackground w = Ok (record_value d) ->
  readable w = true /\ stored w = Some (text_record d)
  /\ is_expired (clock w) (timestamp d) = false.
Proof.
  intros Ho. destruct (record_properties d) as (_ & _ & _ & Ht).
  destruct (read_truthy w _ Ho Ht) as (_ & Hr & Hs & He).
  split; [exact Hr|]. split; [exact Hs|].
  rewrite expired_record in He. congruence.
Qed.

Lemma mount_record_total (evs : list Event) (w : World)
    (d : BackgroundCache) :
  outcome getCachedBackground w = Ok (record_value d) ->
  outcome (mount evs) w = Ok tt /\ shows_string (exec (mount evs) w).
Proof.
  intros Ho. destruct (read_record w d Ho) as (Hr & Hs & He).
  unfold outcome, exec, mount, run_async, bind.
  rewrite (mount_start_hit w d Hr Hs He). cbn [fst snd].
  split; [reflexivity|]. exists (display_of d). reflexivity.
Qed.

(** Mounting returns, or rejects with the TypeError of a cached value
    whose display value has no string. *)
Lemma mount_outcome (evs : list Event) (w : World) :
  outcome (mount evs) w = Ok tt \/ outcome (mount evs) w = Throw TypeError.
Proof.
  destruct (misses w) eqn:Hmiss.
  - left. apply mount_miss_total, Hmiss.
  - destruct (misses_false w Hmiss) as (v & Ho & Ht).
    destruct (mount_hit w v evs Ho Ht) as [_ E].
    unfold outcome. rewrite E.
    apply (adoptCached_frame v (rendered w)).
Qed.

Lemma refreshBackground_total (evs : list Event) (w : World) :
  outcome (refreshBackground evs) w = Ok tt
  /\ shows_string (exec (refreshBackground evs) w).
Proof.
  unfold outcome, exec. rewrite refreshBackground_unfold.
  destruct (tryLoadImageFromSources_result (with_isLoaded false w))
    as [E | (u & E & Hne & _)].
  - rewrite (refresh_rest_failed evs _ E). split; [reflexivity|].
    cbn [snd]. set (wx := with_backgroundUrl _ _).
    destruct (setCachedBackground_frame gradient
                (drawn_gradient (with_isLoaded false w)) wx)
      as (_ & _&_&_&_&_&_&Hb&_).
    eexists. cbn [backgroundUrl with_isLoaded]. rewrite Hb. reflexivity.
  - rewrite (refresh_rest_found evs _ u E Hne). split; [reflexivity|].
    cbn [snd]. set (wx := with_backgroundUrl _ _).
    destruct (setCachedBackground_frame image u wx)
      as (_ & _&_&_&_&_&_&Hb&_).
    exists u. rewrite Hb. reflexivity.
Qed.

Lemma setCachedBackground_total (ty : BgType) (val : string) (w : World) :
  outcome (setCachedBackground ty val) w = Ok tt.
Proof. apply setCachedBackground_frame. Qed.

Lemma getRandomGradient_total (w : World) :
  exists g, outcome getRandomGradient w = Ok g.
Proof. eexists. reflexivity. Qed.

(** [SharedBackground] throws outside a provider, and inside one when the
    display value is no string. *)
Lemma SharedBackground_throws (provider : option World) (e : Exn) :
  SharedBackground provider = Throw e <->
  (provider = None
   /\ e = Error "useBackground must be used within a BackgroundProvider")
  \/ (exists w, provider = Some w /\ e = TypeError /\ ~ shows_string w).
Proof.
  destruct provider as [w|]; unfold SharedBackground; cbn.
  - unfold render, shows_string. cbn [provider_value ctx_backgroundUrl].
    split.
    + intros H. right. exists w. split; [reflexivity|].
      destruct (backgroundUrl w) as [| |b|x|s|l|ms]; try discriminate;
        injection H as <-; (split; [reflexivity|]); intros [s' Hs'];
        discriminate.
    + intros [[H _] | (w' & [= <-] & -> & Hns)]; [discriminate|].
      destruct (backgroundUrl w) as [| |b|x|s|l|ms]; try reflexivity.
      exfalso. apply Hns. exists s. reflexivity.
  - split.
    + intros [= <-]. left. auto.
    + intros [[_ ->] | (w & H & _)]; [reflexivity | discriminate].
Qed.

(** What the module wrote is, for the next read, a record-shaped object or
    nothing. *)
Lemma own_record_read (ty : BgType) (val : string) (w : World) (later : Z) :
  writable w = true ->
  let w1 := with_clock later (exec (setCachedBackground ty val) w) in
  misses w1 = true
  \/ outcome getCachedBackground w1
     = Ok (record_value (record_of ty val (clock w))).
Proof.
  intros Hw w1.
  assert (Hr : readable w1 = true).
  { unfold w1, exec. rewrite (setCachedBackground_writable ty val w Hw).
    unfold writable in Hw. apply andb_true_iff in Hw. apply Hw. }
  assert (Hs : stored w1 = Some (text_record (record_of ty val (clock w)))).
  { unfold w1, exec. rewrite (setCachedBackground_writable ty val w Hw).
    apply (stored_written _ w). }
  destruct (is_expired (clock w1) (timestamp (record_of ty val (clock w))))
    eqn:He.
  - left. unfold misses, outcome.
    rewrite (getCachedBackground_record_evict w1 _ Hr Hs He). reflexivity.
  - right. unfold outcome.
    rewrite (getCachedBackground_record_hit w1 _ Hr Hs He). reflexivity.
Qed.

Create HintDb never_throws.

#[local] Hint Resolve getCachedBackground_total setCachedBackground_total
  getRandomGradient_total tryLoadImageFromSources_total
  mount_outcome : never_throws.

(** C9, as stated, fails on the code: the usage error is not the only
    halt.  With the empty object in the cache, which the read returns
    unchecked, mounting sets the display value to undefined, and
    [SharedBackground], inside the provider and past [useBackground],
    throws a TypeError at [backgroundUrl.startsWith]; and with a cached
    gradient whose value has no string, [initBackground] itself
    rejects. *)
Lemma C9_counterexample :
  (let w0 := browser (Some (text_json empty_object)) served in
   let w := exec (mount []) w0 in
   outcome (mount []) w0 = Ok tt
   /\ backgroundUrl w = VUndefined
   /\ useBackground (Some w) = Ok (provider_value w)
   /\ SharedBackground (Some w) = Throw TypeError)
  /\ outcome (mount [])
       (browser (Some (text_json unprintable_gradient)) served)
     = Throw TypeError.
Proof.
  repeat split; reflexivity.
Qed.

(** C9, amended: outside a provider [useBackground] throws its descriptive
    error, and so does [SharedBackground], which calls it; inside one
    [useBackground] returns the provider's value, with the display value,
    the readiness flag, [setLoaded] and [refreshBackground], and throws in
    no other case.  The other halts: [SharedBackground] throws a TypeError
    inside a provider exactly when the display value is no string, and
    mounting rejects with a TypeError or returns.  Neither happens when
    the cache read reports no record or returns a record-shaped object:
    then mounting returns and leaves a string on display, as every refresh
    does, and [setLoaded] and the unmount leave the display value alone;
    and what the module itself wrote is, at any later time, read as a
    record-shaped object or as no record.  No other operation of the
    module throws, whatever the world: neither the cache read and write,
    nor the draw, nor the resolution, nor unmounting, [setLoaded] and
    [refreshBackground]. *)
Theorem C9_usage_error_and_foreign_cache :
  useBackground None
  = Throw (Error "useBackground must be used within a BackgroundProvider")
  /\ (forall w : World,
        useBackground (Some w) = Ok (provider_value w)
        /\ ctx_backgroundUrl (provider_value w) = backgroundUrl w
        /\ ctx_isLoaded (provider_value w) = isLoaded w
        /\ ctx_setLoaded (provider_value w) = setLoaded
        /\ ctx_refreshBackground (provider_value w) = refreshBackground)
  /\ (forall provider : option World,
        (exists e, useBackground provider = Throw e) <-> provider = None)
  /\ (forall (provider : option World) (e : Exn),
        SharedBackground provider = Throw e <->
        (provider = None
         /\ e = Error "useBackground must be used within a BackgroundProvider")
        \/ (exists w,
              provider = Some w /\ e = TypeError /\ ~ shows_string w))
  /\ (forall (w : World) (evs : list Event),
        outcome (mount evs) w = Ok tt
        \/ outcome (mount evs) w = Throw TypeError)
  /\ (forall (w : World) (evs : list Event),
        misses w = true
        \/ (exists d, outcome getCachedBackground w = Ok (record_value d)) ->
        outcome (mount evs) w = Ok tt
        /\ shows_string (exec (mount evs) w))
  /\ (forall (w : World) (ty : BgType) (val : string) (later : Z),
        writable w = true ->
        let w1 := with_clock later (exec (setCachedBackground ty val) w) in
        misses w1 = true
        \/ outcome getCachedBackground w1
           = Ok (record_value (record_of ty val (clock w))))
  /\ (forall (w : World) (evs : list Event),
        outcome (refreshBackground evs) w = Ok tt
        /\ shows_string (exec (refreshBackground evs) w))
  /\ (forall w : World,
        backgroundUrl (exec setLoaded w) = backgroundUrl w
        /\ backgroundUrl (exec effect_cleanup w) = backgroundUrl w)
  /\ (forall (w : World) (ty : BgType) (val : string),
        (exists r, outcome getCachedBackground w = Ok r)
        /\ outcome (setCachedBackground ty val) w = Ok tt
        /\ (exists g, outcome getRandomGradient w = Ok g)
        /\ (exists r, outcome tryLoadImageFromSources w = Ok r)
        /\ outcome effect_cleanup w = Ok tt
        /\ outcome setLoaded w = Ok tt).
Proof.
  split; [reflexivity|].
  split; [|split; [|split; [|split; [|split; [|split]]]]].
  - intros w. repeat split; reflexivity.
  - intros [w|]; split.
    + intros [e He]. discriminate.
    + discriminate.
    + reflexivity.
    + intros _. eexists. reflexivity.
  - apply SharedBackground_throws.
  - intros w evs. apply mount_outcome.
  - intros w evs [Hmiss | [d Hd]].
    + apply mount_miss_total, Hmiss.
    + apply (mount_record_total evs w d Hd).
  - intros w ty val later Hw. apply own_record_read, Hw.
  - split; [|split].
    + intros w evs. apply refreshBackground_total.
    + intros w. split; reflexivity.
    + intros w ty val. repeat split; eauto with never_throws.
Qed.

(** ** C10: the state before initialization *)

(** C10: at the first render, before the effect has run, the context value
    has the empty string as display value and [isLoaded] false; the empty
    string has no [gradient:] prefix and is no image URL, so
    [SharedBackground] renders neither a gradient style nor an image. *)
Theorem C10_initial_state (w : World) :
  let w0 := exec first_render w in
  useBackground (Some w0) = Ok (provider_value w0)
  /\ ctx_backgroundUrl (provider_value w0) = ""
  /\ ctx_isLoaded (provider_value w0) = false
  /\ (forall s : string,
        ctx_backgroundUrl (provider_value w0) = s ->
        String.prefix "gradient:" s = false /\ s = "")
  /\ SharedBackground (Some w0)
     = Ok {| style_background := None; img := None |}.
Proof.
  intros w0. unfold w0, exec, first_render, modify. cbn [snd].
  split; [reflexivity|]. split; [reflexivity|]. split; [reflexivity|].
  split; [|reflexivity].
  intros s [= <-]. split; reflexivity.
Qed.

(** * Further properties of the code *)

(** ** The cache write *)

(** X1: [setCachedBackground] never throws and changes nothing but
    [localStorage] and the console.  When the store takes the write, the
    entry under the cache key is the record with [url] and [value] both the
    given value, the given type and the current time, and nothing is
    logged; when it does not, the store is left as it was, and, in a
    browser, the failure is logged once; outside a browser nothing happens
    at all. *)
Theorem X1_write_contract (ty : BgType) (val : string) (w : World) :
  let w' := exec (setCachedBackground ty val) w in
  outcome (setCachedBackground ty val) w = Ok tt
  /\ same_but_store w w'
  /\ (writable w = true ->
      stored w'
      = Some (text_record
                {| url := val; timestamp := Some (clock w);
                   type := type_tag ty; value := val |})
      /\ console w' = console w)
  /\ (writable w = false -> localStorage w' = localStorage w)
  /\ (window w <> None -> writable w = false ->
      exists e,
        console w' = console w ++ [("Failed to cache background:", e)])
  /\ (window w = None -> w' = w).
Proof.
  intros w'. unfold w'.
  destruct (setCachedBackground_frame ty val w) as [Hok Hframe].
  split; [exact Hok|]. split; [exact Hframe|].
  unfold exec, setCachedBackground, writable, readable, stored. run.
  destruct (window w) as [win|]; simpl;
    [destruct (blocked (localStorage w)) eqn:Hb; simpl;
       [|destruct (full (localStorage w)) eqn:Hf; simpl]|];
    (split; [intros Hw; try discriminate Hw
            |split; [intros Hw; try discriminate Hw; try reflexivity
                    |split; [intros Hn Hw; try discriminate Hw;
                             try congruence; eauto
                            |intros Hn; try discriminate Hn;
                             try reflexivity]]]).
  split; [apply lookup_insert_eq | reflexivity].
Qed.

(** X2: a record written at time [t] is what a read returns as long as the
    clock shows at most [t] + 24 h, the store untouched; the first read
    after that reports no record and removes the entry. *)
Theorem X2_record_lifetime (ty : BgType) (val : string) (w : World)
    (later : Z) :
  writable w = true ->
  let w1 := with_clock later (exec (setCachedBackground ty val) w) in
  (later - clock w <= BG_EXPIRE_TIME ->
   getCachedBackground w1
   = (Ok (record_value (record_of ty val (clock w))), w1))
  /\ (BG_EXPIRE_TIME < later - clock w ->
      outcome getCachedBackground w1 = Ok VNull
      /\ stored (exec getCachedBackground w1) = None).
Proof.
  intros Hw w1.
  assert (Hr : readable w1 = true).
  { unfold w1, exec. rewrite (setCachedBackground_writable ty val w Hw).
    unfold writable in Hw. apply andb_true_iff in Hw. apply Hw. }
  assert (Hs : stored w1 = Some (text_record (record_of ty val (clock w)))).
  { unfold w1, exec. rewrite (setCachedBackground_writable ty val w Hw).
    apply (stored_written _ w). }
  split.
  - intros Hage. apply (getCachedBackground_record_hit w1 _ Hr Hs).
    apply is_expired_false. intros t [= <-]. exact Hage.
  - intros Hage.
    assert (He : is_expired (clock w1) (timestamp (record_of ty val (clock w)))
                 = true)
      by (apply is_expired_true; eexists; split; [reflexivity | exact Hage]).
    unfold outcome, exec.
    rewrite (getCachedBackground_record_evict w1 _ Hr Hs He).
    split; [reflexivity | apply stored_evicted].
Qed.

(** A record written in the sample browser is returned 24 hours later to
    the millisecond. *)
Lemma X2_witness :
  let w1 :=
    with_clock (1700000000000 + 86400000)
      (exec (setCachedBackground image "https://example.org/a.png")
         (browser None served)) in
  getCachedBackground w1 = (Ok (record_value (image_record 0)), w1).
Proof.
  apply (proj1 (X2_record_lifetime image "https://example.org/a.png"
                  (browser None served) (1700000000000 + 86400000)
                  eq_refl)).
  vm_compute. discriminate.
Defined.

(** X3: the last write wins.  Of two writes in a row to a store that takes
    them, only the second leaves a trace: the store is the one the second
    write alone would have left. *)
Theorem X3_last_write_wins (ty1 ty2 : BgType) (v1 v2 : string) (w : World) :
  writable w = true ->
  let w2 :=
    exec (setCachedBackground ty2 v2) (exec (setCachedBackground ty1 v1) w) in
  stored w2 = Some (text_record (record_of ty2 v2 (clock w)))
  /\ w2 = exec (setCachedBackground ty2 v2) w.
Proof.
  intros Hw w2. unfold w2, exec.
  rewrite (setCachedBackground_writable ty1 v1 w Hw). cbn [snd].
  set (w1 := with_localStorage _ w).
  assert (Hw1 : writable w1 = true) by exact Hw.
  rewrite (setCachedBackground_writable ty2 v2 w1 Hw1),
          (setCachedBackground_writable ty2 v2 w Hw). cbn [snd].
  split; [apply (stored_written _ w1)|].
  unfold w1, with_localStorage, written. simpl.
  rewrite insert_insert_eq. reflexivity.
Qed.

(** A gradient written and then an image: the image record is what the
    store holds. *)
Lemma X3_witness :
  stored
    (exec (setCachedBackground image "https://example.org/a.png")
       (exec (setCachedBackground gradient plum) (browser None served)))
  = Some (text_record (image_record 0))
  /\ exec (setCachedBackground image "https://example.org/a.png")
       (exec (setCachedBackground gradient plum) (browser None served))
     = exec (setCachedBackground image "https://example.org/a.png")
         (browser None served).
Proof.
  apply (X3_last_write_wins gradient image plum "https://example.org/a.png"
           (browser None served)).
  reflexivity.
Defined.

(** ** The cache read *)

(** X4: reading is idempotent.  A second read right after a first returns
    what the first returned and changes nothing any more: an expired
    record is removed by the first read only. *)
Theorem X4_read_idempotent (w : World) :
  let w1 := exec getCachedBackground w in
  getCachedBackground w1 = (outcome getCachedBackground w, w1).
Proof.
  intros w1. unfold w1, outcome, exec.
  destruct (getCachedBackground_cases w)
    as [E | [(d & Hr & Hs & He & E) | (d & Hr & Hs & He & E)]];
    rewrite E; cbn [fst snd].
  - exact E.
  - exact E.
  - apply getCachedBackground_no_json. intros d'.
    rewrite stored_evicted. discriminate.
Qed.

(** ** Only the cache key is ever touched *)

Lemma only_cache_key_refl (s : Storage) : only_cache_key s s.
Proof. repeat split. Qed.

Lemma only_cache_key_eq (s s' : Storage) : s' = s -> only_cache_key s s'.
Proof. intros ->. apply only_cache_key_refl. Qed.

Lemma only_cache_key_trans (s1 s2 s3 : Storage) :
  only_cache_key s1 s2 -> only_cache_key s2 s3 -> only_cache_key s1 s3.
Proof.
  intros (Hb & Hf & Hk) (Hb' & Hf' & Hk').
  split; [congruence|]. split; [congruence|].
  intros k Hne. rewrite (Hk' k Hne). apply Hk, Hne.
Qed.

Lemma only_cache_key_read (w : World) :
  only_cache_key (localStorage w) (localStorage (exec getCachedBackground w)).
Proof.
  unfold exec.
  destruct (getCachedBackground_cases w)
    as [E | [(d & _ & _ & _ & E) | (d & _ & _ & _ & E)]]; rewrite E;
    cbn [snd]; try apply only_cache_key_refl.
  split; [reflexivity|]. split; [reflexivity|].
  intros k Hne. simpl. apply lookup_delete_ne. congruence.
Qed.

Lemma only_cache_key_write (ty : BgType) (val : string) (w : World) :
  only_cache_key (localStorage w)
    (localStorage (exec (setCachedBackground ty val) w)).
Proof.
  unfold exec.
  destruct (setCachedBackground_cases ty val w) as [E | [E | [e E]]];
    rewrite E; cbn [snd]; try apply only_cache_key_refl.
  split; [reflexivity|]. split; [reflexivity|].
  intros k Hne. simpl. apply lookup_insert_ne. congruence.
Qed.

Lemma only_cache_key_loadRealImage (evs : list Event) (w : World) :
  only_cache_key (localStorage w) (localStorage (exec (loadRealImage evs) w)).
Proof.
  destruct (resumed_frame evs w) as (_&_&Hs&_).
  destruct (tryLoadImageFromSources_result w) as [E | (u & E & Hne & _)].
  - unfold exec. rewrite loadRealImage_kept by (left; exact E).
    apply only_cache_key_eq, Hs.
  - destruct (mounted (resumed evs w)) eqn:Hm.
    + unfold exec at 1. rewrite (loadRealImage_adopted evs w u E Hne Hm).
      cbn [snd]. rewrite <- Hs.
      apply (only_cache_key_write image u
               (with_isLoaded false (with_backgroundUrl u (resumed evs w)))).
    + unfold exec. rewrite loadRealImage_kept by (right; exact Hm).
      apply only_cache_key_eq, Hs.
Qed.

(** Mounting on a truthy result of the read touches nothing but the two
    state cells. *)
Lemma mount_hit_frame (w : World) (evs : list Event) :
  misses w = false ->
  let w' := exec (mount evs) w in
  localStorage w' = localStorage w /\ clock w' = clock w
  /\ requests w' = requests w /\ console w' = console w
  /\ draws w' = draws w /\ mounted w' = true.
Proof.
  intros Hmiss w'. destruct (misses_false w Hmiss) as (v & Ho & Ht).
  destruct (mount_hit w v evs Ho Ht) as [_ E].
  unfold w', exec. rewrite E.
  destruct (adoptCached_frame v (rendered w))
    as (_ & _&_&Hs&Hc&_&Hd&_&Hq&Hl&Hm).
  unfold exec in *. rewrite Hs, Hc, Hd, Hq, Hl, Hm.
  repeat split; reflexivity.
Qed.

Lemma mount_miss_unfold (w : World) (evs : list Event) :
  misses w = true ->
  mount evs w = loadRealImage evs (exec mount_start w).
Proof.
  intros Hmiss. unfold mount, run_async, bind, exec.
  rewrite (mount_start_miss w Hmiss). reflexivity.
Qed.

Lemma only_cache_key_mount (evs : list Event) (w : World) :
  only_cache_key (localStorage w) (localStorage (exec (mount evs) w)).
Proof.
  destruct (misses w) eqn:Hmiss.
  - unfold exec at 1. rewrite (mount_miss_unfold w evs Hmiss).
    eapply only_cache_key_trans;
      [|apply (only_cache_key_loadRealImage evs)].
    unfold exec at 1. rewrite (mount_start_miss w Hmiss). cbn [snd].
    eapply only_cache_key_trans;
      [|apply (only_cache_key_write gradient (drawn_gradient w)
                 (gradient_shown w))].
    apply (only_cache_key_read (rendered w)).
  - apply only_cache_key_eq. apply (mount_hit_frame w evs Hmiss).
Qed.

Lemma only_cache_key_refresh (evs : list Event) (w : World) :
  only_cache_key (localStorage w)
    (localStorage (exec (refreshBackground evs) w)).
Proof.
  unfold exec. rewrite refreshBackground_unfold.
  destruct (resumed_frame evs (with_isLoaded false w)) as (_&_&Hs&_).
  simpl in Hs.
  destruct (tryLoadImageFromSources_result (with_isLoaded false w))
    as [E | (u & E & Hne & _)].
  - rewrite (refresh_rest_failed evs _ E). cbn [snd].
    rewrite <- Hs.
    apply (only_cache_key_write gradient
             (drawn_gradient (with_isLoaded false w))
             (with_backgroundUrl
                ("gradient:" +:+ drawn_gradient (with_isLoaded false w))
                (with_draws (S (draws (with_isLoaded false w)))
                   (resumed evs (with_isLoaded false w))))).
  - rewrite (refresh_rest_found evs _ u E Hne). cbn [snd].
    rewrite <- Hs.
    apply (only_cache_key_write image u
             (with_backgroundUrl u (resumed evs (with_isLoaded false w)))).
Qed.

(** X5: whatever the module does to [localStorage], it does to the entry
    under its own key.  Reading, writing, mounting with any events and
    refreshing with any events leave every other entry, and whether the
    store is blocked or full, as they were. *)
Theorem X5_other_keys_untouched (w : World) (evs : list Event)
    (ty : BgType) (val : string) :
  only_cache_key (localStorage w) (localStorage (exec getCachedBackground w))
  /\ only_cache_key (localStorage w)
       (localStorage (exec (setCachedBackground ty val) w))
  /\ only_cache_key (localStorage w) (localStorage (exec (mount evs) w))
  /\ only_cache_key (localStorage w)
       (localStorage (exec (refreshBackground evs) w))
  /\ localStorage (exec tryLoadImageFromSources w) = localStorage w.
Proof.
  split; [apply only_cache_key_read|].
  split; [apply only_cache_key_write|].
  split; [apply only_cache_key_mount|].
  split; [apply only_cache_key_refresh|].
  apply tryLoadImageFromSources_frame.
Qed.

Example theme_survives_mount :
  items (localStorage (exec (mount [ev_setLoaded]) (browser_with_theme served)))
    !! "theme" = Some text_invalid.
Proof.
  destruct (only_cache_key_mount [ev_setLoaded] (browser_with_theme served))
    as (_ & _ & Hk).
  rewrite Hk by discriminate. reflexivity.
Qed.

(** ** The preload race *)

(** Once a preload has settled, no signal reaches it any more. *)
Lemma deliver_released (src : string) (p : Preload) (s : Z * Signal) :
  onload p = false -> onerror p = false -> timeoutId p = false ->
  deliver src p s = p.
Proof.
  intros H1 H2 H3. unfold deliver.
  destruct (snd s); rewrite ?H1, ?H2, ?H3; reflexivity.
Qed.

Lemma deliver_first (src : string) (s : Z * Signal) :
  let p := deliver src preload_started s in
  onload p = false /\ onerror p = false /\ timeoutId p = false
  /\ resolved p = true
  /\ promise p = Some (fst s, verdict src (snd s)).
Proof.
  destruct s as [t [| |]]; repeat split; reflexivity.
Qed.

(** X6: the first signal wins the race and the rest are ignored.  For any
    sequence of [load], [error] and timer signals, in any order and with
    any repetition, the state after all of them is the state after the
    first: the promise has settled once, with the URL if that signal was
    [load] and with null otherwise, both handlers are removed and the
    timer is cleared. *)
Theorem X6_first_signal_wins (src : string) (s : Z * Signal)
    (rest : list (Z * Signal)) :
  let p := fold_left (deliver src) (s :: rest) preload_started in
  p = deliver src preload_started s
  /\ promise p = Some (fst s, verdict src (snd s))
  /\ onload p = false /\ onerror p = false /\ timeoutId p = false
  /\ resolved p = true.
Proof.
  intros p.
  destruct (deliver_first src s) as (H1 & H2 & H3 & H4 & H5).
  assert (E : p = deliver src preload_started s).
  { unfold p. simpl. generalize H1 H2 H3.
    generalize (deliver src preload_started s) as q.
    induction rest as [|s' rest IH]; intros q Hq1 Hq2 Hq3; simpl.
    - reflexivity.
    - rewrite (deliver_released src q s' Hq1 Hq2 Hq3).
      apply IH; assumption. }
  rewrite E. repeat split; assumption.
Qed.


(** ** The resolution as a whole *)

(** The sources a resolution gets to are an initial part of its list. *)
Lemma for_sources_prefix (w : World) (l : list string) :
  exists tried,
    tried `prefix_of` l
    /\ exec (for_sources l) w = after_attempts w tried
    /\ (window w = None -> tried = []).
Proof.
  revert w. induction l as [|s l IH]; intros w.
  - exists []. repeat split. reflexivity.
  - unfold exec. simpl. unfold bind. destruct (window w) eqn:Hw.
    + rewrite (try_source_browser w s) by congruence.
      destruct (preloads w s && negb (String.eqb s "")).
      * exists [s]. split; [exists l; reflexivity|].
        split; [reflexivity | discriminate].
      * destruct (IH (after_attempt w s)) as (tried & Hp & He & _).
        exists (s :: tried). split; [apply prefix_cons, Hp|].
        split; [exact He | discriminate].
    + rewrite (try_source_no_Image w s Hw).
      destruct (IH w) as (tried & Hp & He & Hnil).
      exists []. split; [apply prefix_nil|].
      split; [|reflexivity].
      unfold exec in He. rewrite He, (Hnil Hw). reflexivity.
Qed.

Lemma chained_span (from to : Z) (log : list Attempt) :
  chained from log to ->
  from <= to <= from + Z.of_nat (length log) * LOAD_TIMEOUT.
Proof.
  revert from. induction log as [|a log IH]; intros from; simpl.
  - intros ->. lia.
  - intros (Hs & Hd & Hc). specialize (IH _ Hc). lia.
Qed.

(** X8: a resolution is bounded.  [tryLoadImageFromSources] requests an
    initial part of its three sources, one after the other, so at most
    three; the clock never runs backwards and the whole resolution takes
    at most three timeouts, 24 seconds; outside a browser it requests
    nothing and takes no time. *)
Theorem X8_resolution_bounds (w : World) :
  let w' := exec tryLoadImageFromSources w in
  exists log,
    requests w' = requests w ++ log
    /\ map req_url log `prefix_of` sources_of w
    /\ (length log <= 3)%nat
    /\ chained (clock w) log (clock w')
    /\ clock w <= clock w' <= clock w + 24000
    /\ (window w = None -> log = [] /\ clock w' = clock w).
Proof.
  intros w'. unfold w'.
  change (exec tryLoadImageFromSources w)
    with (exec (for_sources (sources_of w)) w).
  destruct (for_sources_prefix w (sources_of w)) as (tried & Hp & He & Hnil).
  rewrite He.
  exists (log_of w tried).
  pose proof (log_of_chained w tried) as Hc.
  pose proof (prefix_length _ _ Hp) as Hlen.
  change (length (sources_of w)) with 3%nat in Hlen.
  assert (Hll : length (log_of w tried) = length tried)
    by (rewrite <- (log_of_urls w tried) at 2; symmetry; apply length_map).
  split; [apply after_attempts_requests|].
  split; [rewrite log_of_urls; exact Hp|].
  split; [lia|]. split; [exact Hc|].
  split.
  - pose proof (chained_span _ _ _ Hc) as Hspan.
    unfold LOAD_TIMEOUT in Hspan. lia.
  - intros Hw. rewrite (Hnil Hw). split; reflexivity.
Qed.

Lemma first_loading_after_attempt (w : World) (s : string) (l : list string) :
  first_loading (after_attempt w s) l = first_loading w l.
Proof.
  induction l as [|s' l IH]; simpl; [reflexivity|].
  rewrite IH. reflexivity.
Qed.

Lemma for_sources_first_loading (w : World) (l : list string) :
  outcome (for_sources l) w = Ok (first_loading w l).
Proof.
  revert w. induction l as [|s l IH]; intros w; [reflexivity|].
  unfold outcome. simpl. unfold bind. destruct (window w) eqn:Hw.
  - rewrite (try_source_browser w s) by congruence.
    destruct (preloads w s) eqn:Hs; simpl.
    + apply preloads_nonempty, String.eqb_neq in Hs. rewrite Hs. reflexivity.
    + rewrite <- (first_loading_after_attempt w s l). apply IH.
  - rewrite (try_source_no_Image w s Hw).
    assert (Hs : preloads w s = false) by (unfold preloads; rewrite Hw; reflexivity).
    rewrite Hs. apply IH.
Qed.

Lemma first_loading_None (w : World) (l : list string) :
  first_loading w l = None <-> Forall (fun s => preloads w s = false) l.
Proof.
  induction l as [|s l IH]; simpl.
  - split; [constructor | reflexivity].
  - destruct (preloads w s) eqn:Hs.
    + split; [discriminate|]. intros H. inversion H; congruence.
    + rewrite IH. split; [intros H; constructor; assumption|].
      intros H. inversion H; assumption.
Qed.

Lemma first_loading_Some (w : World) (l : list string) (u : string) :
  first_loading w l = Some u <->
  exists pre post,
    l = pre ++ u :: post
    /\ Forall (fun s => preloads w s = false) pre
    /\ preloads w u = true.
Proof.
  induction l as [|s l IH]; simpl.
  - split; [discriminate|]. intros ([|? ?] & post & E & _); discriminate.
  - destruct (preloads w s) eqn:Hs.
    + split.
      * intros [= <-]. exists [], l. repeat split; [constructor | exact Hs].
      * intros ([|s' pre] & post & E & Hpre & Hu); simpl in E.
        -- congruence.
        -- injection E as <- _. inversion Hpre; congruence.
    + rewrite IH. split.
      * intros (pre & post & -> & Hpre & Hu).
        exists (s :: pre), post. repeat split; [constructor; assumption | exact Hu].
      * intros ([|s' pre] & post & E & Hpre & Hu); simpl in E.
        -- injection E as -> _. congruence.
        -- injection E as <- ->. exists pre, post.
           inversion Hpre. repeat split; assumption.
Qed.

(** X9: the resolution yields exactly the first source that preloads.  For
    every list of sources and every world the loop returns the first
    source of the list that loads in time, and null when there is none; so
    a resolution fails if and only if every one of its sources fails or
    times out, and yields [u] if and only if [u] loads and all sources
    before it do not. *)
Theorem X9_resolution_is_first_loading (w : World) (l : list string) :
  outcome (for_sources l) w = Ok (first_loading w l)
  /\ outcome tryLoadImageFromSources w = Ok (first_loading w (sources_of w))
  /\ (outcome (for_sources l) w = Ok None <->
      Forall (fun s => preloads w s = false) l)
  /\ (forall u,
        outcome (for_sources l) w = Ok (Some u) <->
        exists pre post,
          l = pre ++ u :: post
          /\ Forall (fun s => preloads w s = false) pre
          /\ preloads w u = true).
Proof.
  split; [apply for_sources_first_loading|].
  split; [apply (for_sources_first_loading w (sources_of w))|].
  rewrite for_sources_first_loading. split.
  - rewrite <- first_loading_None. split; congruence.
  - intros u. rewrite <- first_loading_Some. split; congruence.
Qed.

(** ** What the component renders *)

Lemma substring_whole (s : string) : String.substring 0 (String.length s) s = s.
Proof. induction s as [|c s IH]; simpl; [|rewrite IH]; reflexivity. Qed.

(** Stripping the prefix gives back the gradient. *)
Lemma strip_gradient_prefix (g : string) :
  String.prefix "gradient:" ("gradient:" +:+ g) = true
  /\ replace_first "gradient:" "" ("gradient:" +:+ g) = g.
Proof.
  destruct g as [|c g]; [split; reflexivity|].
  split; [reflexivity|].
  lazy -[String.substring String.length Nat.sub]. cbn.
  f_equal. apply substring_whole.
Qed.

(** X10: what [SharedBackground] draws for a display value.  A value
    [gradient:] followed by a non-empty gradient is drawn as that gradient
    in the container's style, with no image element; the bare prefix
    [gradient:] and the empty string draw nothing; any other string is
    drawn as an image element with that source, at full opacity exactly
    when [isLoaded] is true.  A gradient style and an image element are
    never drawn together.  A display value that is no string is not drawn
    at all: the component throws a TypeError. *)
Theorem X10_render (w : World) :
  let r := render (provider_value w) in
  (forall g : string,
     backgroundUrl w = "gradient:" +:+ g -> g <> "" ->
     r = Ok {| style_background := Some g; img := None |})
  /\ (backgroundUrl w = "gradient:" \/ backgroundUrl w = "" ->
      r = Ok {| style_background := None; img := None |})
  /\ (forall s : string,
        backgroundUrl w = s ->
        String.prefix "gradient:" s = false -> s <> "" ->
        r = Ok {| style_background := None; img := Some (s, isLoaded w) |})
  /\ (forall drawn,
        r = Ok drawn -> style_background drawn = None \/ img drawn = None)
  /\ (~ shows_string w -> r = Throw TypeError).
Proof.
  intros r. unfold r, render, provider_value.
  cbn [ctx_backgroundUrl ctx_isLoaded].
  split; [|split; [|split; [|split]]].
  - intros g Hu Hg. rewrite Hu.
    destruct (strip_gradient_prefix g) as [Hp Hr]. rewrite Hp, Hr.
    apply String.eqb_neq in Hg. rewrite Hg. reflexivity.
  - intros [-> | ->]; reflexivity.
  - intros s Hs Hp Hne. rewrite Hs, Hp.
    apply String.eqb_neq in Hne. rewrite Hne. reflexivity.
  - intros drawn. destruct (backgroundUrl w) as [| |b|x|s|l|ms];
      try discriminate.
    intros [= <-].
    destruct (String.prefix "gradient:" s); simpl; auto.
  - intros Hns. destruct (backgroundUrl w) as [| |b|x|s|l|ms] eqn:Hb;
      try reflexivity.
    exfalso. apply Hns. exists s. exact Hb.
Qed.

(** ** The whole of a mount *)

Lemma writable_after_write (ty : BgType) (val : string) (w : World) :
  writable (exec (setCachedBackground ty val) w) = writable w.
Proof.
  destruct (setCachedBackground_frame ty val w)
    as (_ & Hw&_&_&_&_&_&_&_&_&Hb&Hf&_).
  unfold writable, readable. rewrite Hw, Hb, Hf. reflexivity.
Qed.

Lemma tryLoadImageFromSources_clock (w : World) :
  clock w <= clock (exec tryLoadImageFromSources w).
Proof.
  change (exec tryLoadImageFromSources w)
    with (exec (for_sources (sources_of w)) w).
  destruct (for_sources_prefix w (sources_of w)) as (tried & _ & He & _).
  rewrite He.
  apply (chained_span _ _ _ (log_of_chained w tried)).
Qed.

Lemma first_loading_elem (w : World) (l : list string) (u : string) :
  first_loading w l = Some u -> u ∈ l /\ preloads w u = true /\ u <> "".
Proof.
  intros H. apply first_loading_Some in H as (pre & post & -> & _ & Hu).
  split; [|split; [exact Hu | apply (preloads_nonempty w u Hu)]].
  apply elem_of_app. right. apply list_elem_of_here.
Qed.

(** No image source can be taken for a gradient. *)
Lemma sources_of_not_gradient (w : World) (u : string) :
  u ∈ sources_of w -> String.prefix "gradient:" u = false.
Proof.
  unfold sources_of, image_sources. intros H.
  repeat (apply elem_of_cons in H as [-> | H]; [reflexivity|]).
  apply elem_of_nil in H. destruct H.
Qed.

Lemma render_image_url (context : BackgroundContextType) (s : string) :
  ctx_backgroundUrl context = s ->
  String.prefix "gradient:" s = false ->
  s <> "" ->
  render context
  = Ok {| style_background := None;
          img := Some (s, ctx_isLoaded context) |}.
Proof.
  intros Hs Hp Hne. unfold render. rewrite Hs, Hp.
  apply String.eqb_neq in Hne. rewrite Hne. reflexivity.
Qed.

Section MissThenFetch.

(** The cache read at mount reports no record; [evs] arrive during the
    fetch. *)
Variable w : World.
Hypothesis Hmiss : misses w = true.
Variable evs : list Event.

(** The fetch started at the [await] is the one the world at mount
    determines. *)
Lemma resolution_at_await :
  outcome tryLoadImageFromSources (exec mount_start w)
  = Ok (first_loading w (sources_of w)).
Proof.
  destruct (mount_start_miss_state w Hmiss) as (_&_&_&_&Hc&Hw&Hn&_).
  rewrite (tryLoadImageFromSources_same_env _ w Hw Hc Hn).
  apply (for_sources_first_loading w (sources_of w)).
Qed.

Lemma writable_at_await :
  writable (exec mount_start w) = writable w.
Proof.
  unfold exec. rewrite (mount_start_miss w Hmiss). cbn [snd].
  rewrite writable_after_write. apply writable_gradient_shown.
Qed.

Lemma stored_at_await :
  writable w = true ->
  stored (exec mount_start w)
  = Some (text_record (record_of gradient (drawn_gradient w) (clock w))).
Proof.
  intros Hw. unfold exec. rewrite (mount_start_miss w Hmiss). cbn [snd].
  rewrite <- writable_gradient_shown in Hw.
  rewrite (setCachedBackground_stored gradient (drawn_gradient w)
             (gradient_shown w) Hw).
  destruct (setCachedBackground_frame gradient (drawn_gradient w)
              (gradient_shown w)) as (_ & _&Hc&_).
  destruct (missed_frame w) as (_&Hc'&_).
  rewrite Hc. unfold gradient_shown. simpl. rewrite Hc'. reflexivity.
Qed.

(** The fetch fails or the provider unmounts first: the state at the
    [await] stays, events apart. *)
Lemma mount_miss_kept :
  first_loading w (sources_of w) = None \/ arrives ev_unmount evs = true ->
  mount evs w = (Ok tt, resumed evs (exec mount_start w)).
Proof.
  intros H. rewrite (mount_miss_unfold w evs Hmiss).
  apply loadRealImage_kept.
  destruct H as [H | H].
  - left. rewrite resolution_at_await, H. reflexivity.
  - right. apply arrives_unmount_resumed, H.
Qed.

(** The fetch succeeds and the provider is still mounted: the image is
    adopted and written. *)
Lemma mount_miss_adopted (u : string) :
  first_loading w (sources_of w) = Some u ->
  arrives ev_unmount evs = false ->
  mount evs w
  = (Ok tt,
     exec (setCachedBackground image u)
       (with_isLoaded false
          (with_backgroundUrl u (resumed evs (exec mount_start w))))).
Proof.
  intros Hu Hun. rewrite (mount_miss_unfold w evs Hmiss).
  destruct (first_loading_elem _ _ _ Hu) as (_ & _ & Hne).
  apply loadRealImage_adopted.
  - rewrite resolution_at_await, Hu. reflexivity.
  - exact Hne.
  - destruct (resumed_frame evs (exec mount_start w))
      as (_&_&_&_&_&_&_&_&Hm&_).
    destruct (mount_start_miss_state w Hmiss) as (_&_&Hm1&_).
    rewrite Hm, Hm1, Hun. reflexivity.
Qed.

End MissThenFetch.

(** X11: the image found by the background fetch is adopted.  When the
    cache read at mount reports no record, [u] is the first source that
    loads in time, and the provider does not unmount during the fetch,
    mounting ends with [u] as display value and [isLoaded] false, also when
    [setLoaded] was called during the fetch; a store that takes writes
    holds [u] as an image record stamped with the time the fetch ended;
    and [SharedBackground] draws [u] as an image that is not yet shown. *)
Theorem X11_fetched_image_adopted (w : World) (evs : list Event)
    (u : string) :
  misses w = true ->
  first_loading w (sources_of w) = Some u ->
  arrives ev_unmount evs = false ->
  let w' := exec (mount evs) w in
  backgroundUrl w' = u
  /\ isLoaded w' = false
  /\ mounted w' = true
  /\ clock w <= clock w'
  /\ (writable w = true ->
      stored w'
      = Some (text_record
                {| url := u; timestamp := Some (clock w');
                   type := "image"; value := u |}))
  /\ SharedBackground (Some w')
     = Ok {| style_background := None; img := Some (u, false) |}.
Proof.
  intros Hmiss Hu Hun w'.
  destruct (first_loading_elem _ _ _ Hu) as (Hin & _ & Hne).
  set (wx := with_isLoaded false
               (with_backgroundUrl u (resumed evs (exec mount_start w)))).
  assert (E : w' = exec (setCachedBackground image u) wx)
    by (unfold w', exec at 1; rewrite (mount_miss_adopted w Hmiss evs u Hu Hun);
        reflexivity).
  destruct (setCachedBackground_frame image u wx)
    as (_ & _&Hc&_&_&_&_&Hb&Hl&Hm&_).
  destruct (resumed_frame evs (exec mount_start w))
    as (_&_&_&_&_&_&_&_&Hm'&_).
  destruct (mount_start_miss_state w Hmiss) as (_&_&Hm1&_&Hc1&_).
  assert (Hurl : backgroundUrl w' = u) by (rewrite E, Hb; reflexivity).
  assert (Hload : isLoaded w' = false) by (rewrite E, Hl; reflexivity).
  split; [exact Hurl|]. split; [exact Hload|].
  split.
  { rewrite E, Hm.
    change (mounted (resumed evs (exec mount_start w)) = true).
    rewrite Hm', Hm1, Hun. reflexivity. }
  split.
  - rewrite E, Hc.
    change (clock w
            <= clock (exec tryLoadImageFromSources (exec mount_start w))).
    rewrite <- Hc1. apply tryLoadImageFromSources_clock.
  - split.
    + intros Hw. rewrite E.
      apply (setCachedBackground_stored image u wx).
      change (writable (resumed evs (exec mount_start w)) = true).
      rewrite writable_resumed, (writable_at_await w Hmiss). exact Hw.
    + unfold SharedBackground, useBackground, useContext.
      cbn [fmap option_fmap option_map].
      rewrite (render_image_url _ u).
      * cbn [provider_value ctx_isLoaded]. rewrite Hload. reflexivity.
      * exact Hurl.
      * apply (sources_of_not_gradient w u Hin).
      * exact Hne.
Qed.

(** On the phone whose second source loads, with a [setLoaded] call during
    the fetch: the second URL is shown, not yet revealed, and cached. *)
Lemma X11_witness :
  let w := phone None second_source_loads in
  let u := "https://api.vvhan.com/api/wallpaper/acg?type=json&1700000000000" in
  let w' := exec (mount [ev_setLoaded]) w in
  backgroundUrl w' = u
  /\ isLoaded w' = false
  /\ mounted w' = true
  /\ clock w <= clock w'
  /\ (writable w = true ->
      stored w'
      = Some (text_record
                {| url := u; timestamp := Some (clock w');
                   type := "image"; value := u |}))
  /\ SharedBackground (Some w')
     = Ok {| style_background := None; img := Some (u, false) |}.
Proof.
  apply (X11_fetched_image_adopted (phone None second_source_loads)
           [ev_setLoaded]
           "https://api.vvhan.com/api/wallpaper/acg?type=json&1700000000000");
    reflexivity.
Defined.

(** What a mount leaves in a store that takes writes, when the read
    reported no record or returned a record-shaped object: a record of
    what is displayed; after a miss, one written during this mount. *)
Lemma mount_final_record (w : World) (evs : list Event) :
  writable w = true ->
  misses w = true
  \/ (exists d, outcome getCachedBackground w = Ok (record_value d)) ->
  let w' := exec (mount evs) w in
  exists d,
    stored w' = Some (text_record d)
    /\ backgroundUrl w' = display_of d
    /\ isLoaded w' = String.eqb (type d) "gradient"
    /\ writable w' = true
    /\ (misses w = true ->
        exists t, timestamp d = Some t /\ clock w <= t /\ t <= clock w').
Proof.
  intros Hw [Hread | [d' Hd']] w'.
  - (* a miss *)
    destruct (mount_start_miss_state w Hread) as (Hu1&Hl1&_&Hq1&Hc1&_).
    destruct (resumed_frame evs (exec mount_start w))
      as (_&_&Hs'&_&_&_&Hu'&Hl'&_).
    pose proof (tryLoadImageFromSources_clock (exec mount_start w)) as Hclk.
    rewrite Hc1 in Hclk.
    destruct (first_loading w (sources_of w)) as [u|] eqn:Hfl;
      [destruct (arrives ev_unmount evs) eqn:Hun|].
    + (* found, but unmounted meanwhile *)
      assert (Ew : w' = resumed evs (exec mount_start w))
        by (unfold w', exec at 1;
            rewrite (mount_miss_kept w Hread evs) by (right; exact Hun);
            reflexivity).
      exists (record_of gradient (drawn_gradient w) (clock w)). rewrite Ew.
      split; [unfold stored; rewrite Hs'; apply (stored_at_await w Hread Hw)|].
      split; [rewrite Hu', Hu1; reflexivity|].
      split; [rewrite Hl', Hl1; reflexivity|].
      split; [rewrite writable_resumed, (writable_at_await w Hread); exact Hw|].
      intros _. exists (clock w). split; [reflexivity|].
      split; [lia | exact Hclk].
    + (* found and adopted *)
      destruct (first_loading_elem _ _ _ Hfl) as (_ & _ & Hne).
      set (wx := with_isLoaded false
                   (with_backgroundUrl u (resumed evs (exec mount_start w)))).
      assert (Ew : w' = exec (setCachedBackground image u) wx)
        by (unfold w', exec at 1;
            rewrite (mount_miss_adopted w Hread evs u Hfl Hun); reflexivity).
      destruct (setCachedBackground_frame image u wx)
        as (_ & _&Hc&_&_&_&Hq&Hb&Hl&_).
      assert (Hwx : writable wx = true).
      { change (writable (resumed evs (exec mount_start w)) = true).
        rewrite writable_resumed, (writable_at_await w Hread). exact Hw. }
      exists (record_of image u (clock w')). rewrite Ew.
      split; [apply (setCachedBackground_stored image u wx Hwx)|].
      split; [rewrite Hb; reflexivity|].
      split; [rewrite Hl; reflexivity|].
      split; [rewrite writable_after_write; exact Hwx|].
      intros _. exists (clock (exec (setCachedBackground image u) wx)).
      split; [reflexivity|]. split; [|lia].
      rewrite Hc. exact Hclk.
    + (* nothing found *)
      assert (Ew : w' = resumed evs (exec mount_start w))
        by (unfold w', exec at 1;
            rewrite (mount_miss_kept w Hread evs) by (left; exact Hfl);
            reflexivity).
      exists (record_of gradient (drawn_gradient w) (clock w)). rewrite Ew.
      split; [unfold stored; rewrite Hs'; apply (stored_at_await w Hread Hw)|].
      split; [rewrite Hu', Hu1; reflexivity|].
      split; [rewrite Hl', Hl1; reflexivity|].
      split; [rewrite writable_resumed, (writable_at_await w Hread); exact Hw|].
      intros _. exists (clock w). split; [reflexivity|].
      split; [lia | exact Hclk].
  - (* the cached record is adopted *)
    destruct (read_record w d' Hd') as (Hr & Hs & He).
    assert (Ew : w' = with_isLoaded (String.eqb (type d') "gradient")
                        (with_backgroundUrl (display_of d') (rendered w))).
    { unfold w', exec, mount, run_async, bind.
      rewrite (mount_start_hit w d' Hr Hs He). reflexivity. }
    exists d'. rewrite Ew.
    split; [exact Hs|]. split; [reflexivity|]. split; [reflexivity|].
    split; [exact Hw|].
    intros Hmiss. exfalso. unfold misses in Hmiss. rewrite Hd' in Hmiss.
    destruct (record_properties d') as (_ & _ & _ & Ht).
    rewrite Ht in Hmiss. discriminate.
Qed.

(** X12: after mounting, the cache holds what is displayed.  In a browser
    whose store takes writes, when the cache read reports no record or
    returns a record-shaped object, then, whatever the network and the
    events during the fetch do, mounting ends with a record in the cache
    whose display value is the one shown, and [isLoaded] is true exactly
    when that record is a gradient; when the read had reported no record,
    the record was written during this mount.  Whatever else the read
    returns stays in the cache as it is. *)
Theorem X12_cache_matches_display (w : World) (evs : list Event) :
  writable w = true ->
  let w' := exec (mount evs) w in
  (misses w = true
   \/ (exists d, outcome getCachedBackground w = Ok (record_value d)) ->
   exists d,
     stored w' = Some (text_record d)
     /\ backgroundUrl w'
        = (if String.eqb (type d) "gradient" then "gradient:" +:+ value d
           else url d)
     /\ isLoaded w' = String.eqb (type d) "gradient"
     /\ (misses w = true ->
         exists t, timestamp d = Some t /\ clock w <= t /\ t <= clock w'))
  /\ (forall v,
        outcome getCachedBackground w = Ok v -> truthy_value v = true ->
        localStorage w' = localStorage w
        /\ stored w' = Some (text_json v)).
Proof.
  intros Hw w'. split.
  - intros Hc.
    destruct (mount_final_record w evs Hw Hc) as (d & Hs & Hu & Hl & _ & Ht).
    exists d. unfold w'. rewrite Hu. unfold display_of.
    split; [exact Hs|].
    split; [destruct (String.eqb (type d) "gradient"); reflexivity|].
    auto.
  - intros v Ho Ht.
    assert (Hmiss : misses w = false)
      by (unfold misses; rewrite Ho, Ht; reflexivity).
    destruct (mount_hit_frame w evs Hmiss) as (Hs & _).
    fold w' in Hs. split; [exact Hs|].
    unfold stored. rewrite Hs. apply (read_truthy w v Ho Ht).
Qed.

(** In the sample browser with an empty cache and a network that serves
    every source, with the unmount arriving during the fetch. *)
Lemma X12_witness :
  let w' := exec (mount [ev_unmount]) (browser None served) in
  exists d,
    stored w' = Some (text_record d)
    /\ backgroundUrl w'
       = (if String.eqb (type d) "gradient" then "gradient:" +:+ value d
          else url d)
    /\ isLoaded w' = String.eqb (type d) "gradient"
    /\ (misses (browser None served) = true ->
        exists t,
          timestamp d = Some t /\ clock (browser None served) <= t
          /\ t <= clock w').
Proof.
  apply (X12_cache_matches_display (browser None served) [ev_unmount]
           eq_refl).
  left. reflexivity.
Defined.

(** X13: after a refresh, the cache holds a fresh record of what is
    displayed.  In a browser whose store takes writes, every refresh,
    found image or fallback gradient, ends with a record in the cache that
    is stamped with the time the refresh ended, has [url] and [value]
    equal and type image or gradient, and whose display value is the one
    shown. *)
Theorem X13_refresh_rewrites_cache (w : World) (evs : list Event) :
  writable w = true ->
  let w' := exec (refreshBackground evs) w in
  exists d,
    stored w' = Some (text_record d)
    /\ timestamp d = Some (clock w')
    /\ url d = value d
    /\ (type d = "image" \/ type d = "gradient")
    /\ backgroundUrl w'
       = (if String.eqb (type d) "gradient" then "gradient:" +:+ value d
          else url d).
Proof.
  intros Hw w'. unfold w', exec. rewrite refreshBackground_unfold.
  destruct (tryLoadImageFromSources_result (with_isLoaded false w))
    as [E | (u & E & Hne & _)].
  - rewrite (refresh_rest_failed evs _ E). cbn [snd].
    set (g := drawn_gradient (with_isLoaded false w)).
    set (wx := with_backgroundUrl _ _).
    assert (Hwx : writable wx = true)
      by (change (writable (resumed evs (with_isLoaded false w)) = true);
          rewrite writable_resumed; exact Hw).
    destruct (setCachedBackground_frame gradient g wx)
      as (_ & _&_&_&_&_&_&Hb&_).
    exists (record_of gradient g (clock (exec (setCachedBackground gradient g) wx))).
    split; [apply (setCachedBackground_stored gradient g wx Hwx)|].
    split; [reflexivity|]. split; [reflexivity|].
    split; [right; reflexivity|].
    cbn [backgroundUrl with_isLoaded]. rewrite Hb. reflexivity.
  - rewrite (refresh_rest_found evs _ u E Hne). cbn [snd].
    set (wx := with_backgroundUrl _ _).
    assert (Hwx : writable wx = true)
      by (change (writable (resumed evs (with_isLoaded false w)) = true);
          rewrite writable_resumed; exact Hw).
    destruct (setCachedBackground_frame image u wx)
      as (_ & _&_&_&_&_&_&Hb&_).
    exists (record_of image u (clock (exec (setCachedBackground image u) wx))).
    split; [apply (setCachedBackground_stored image u wx Hwx)|].
    split; [reflexivity|]. split; [reflexivity|].
    split; [left; reflexivity|].
    rewrite Hb. reflexivity.
Qed.

(** A refresh of a provider that shows a gradient, the network serving
    every source and a [setLoaded] call arriving meanwhile. *)
Lemma X13_witness :
  let w' := exec (refreshBackground [ev_setLoaded]) (showing_gradient served) in
  exists d,
    stored w' = Some (text_record d)
    /\ timestamp d = Some (clock w')
    /\ url d = value d
    /\ (type d = "image" \/ type d = "gradient")
    /\ backgroundUrl w'
       = (if String.eqb (type d) "gradient" then "gradient:" +:+ value d
          else url d).
Proof.
  apply (X13_refresh_rewrites_cache (showing_gradient served) [ev_setLoaded]).
  reflexivity.
Defined.

(** X14: a second visit within 24 hours is served from the cache.  After
    a first mount that found no record, in a browser whose store takes
    writes, mounting again no later than 24 hours after the first mount
    began requests no image source, whatever the first fetch had found,
    and shows what the first mount ended with, with the same [isLoaded]. *)
Theorem X14_remount_served_from_cache (w : World) (evs evs' : list Event)
    (later : Z) :
  writable w = true ->
  misses w = true ->
  later - clock w <= BG_EXPIRE_TIME ->
  let w1 := exec (mount evs) w in
  let w2 := exec (mount evs') (with_clock later w1) in
  outcome mount_start (with_clock later w1) = Ok done
  /\ backgroundUrl w2 = backgroundUrl w1
  /\ isLoaded w2 = isLoaded w1
  /\ requests w2 = requests w1
  /\ localStorage w2 = localStorage w1.
Proof.
  intros Hw Hmiss Hage w1 w2.
  destruct (mount_final_record w evs Hw (or_introl Hmiss))
    as (d & Hs & Hu & Hl & Hw1 & Ht).
  destruct (Ht Hmiss) as (t & Hts & Hlo & _).
  fold w1 in Hs, Hu, Hl, Hw1.
  assert (Hr : readable (with_clock later w1) = true).
  { unfold writable in Hw1. apply andb_true_iff in Hw1. apply Hw1. }
  assert (He : is_expired (clock (with_clock later w1)) (timestamp d) = false).
  { apply is_expired_false. intros t' Ht'. simpl.
    assert (t' = t) by congruence. lia. }
  pose proof (mount_start_hit (with_clock later w1) d Hr Hs He) as E.
  unfold w2, outcome, exec, mount, run_async, bind. rewrite E.
  cbn [fst snd]. rewrite Hu, Hl.
  repeat split; reflexivity.
Qed.

(** The sample browser, first visit with every source failing, then a
    remount 24 hours later: the gradient of the first visit is shown and
    nothing is requested. *)
Lemma X14_witness :
  let w1 := exec (mount []) (browser None offline) in
  let w2 :=
    exec (mount [])
      (with_clock (1700000000000 + 86400000) w1) in
  outcome mount_start (with_clock (1700000000000 + 86400000) w1) = Ok done
  /\ backgroundUrl w2 = backgroundUrl w1
  /\ isLoaded w2 = isLoaded w1
  /\ requests w2 = requests w1
  /\ localStorage w2 = localStorage w1.
Proof.
  apply (X14_remount_served_from_cache (browser None offline) [] []
           (1700000000000 + 86400000)).
  - reflexivity.
  - reflexivity.
  - vm_compute. discriminate.
Defined.

(** ** Revealing the image *)

(** X15: [setLoaded] matters for images only.  When the display value is
    an image URL, [SharedBackground] draws it at full opacity after the
    call, whatever [isLoaded] was before; when the display value is a
    gradient or empty, the call changes nothing of what is drawn. *)
Theorem X15_setLoaded_reveals_image (w : World) :
  (forall s : string,
     backgroundUrl w = s ->
     String.prefix "gradient:" s = false -> s <> "" ->
     SharedBackground (Some (exec setLoaded w))
     = Ok {| style_background := None; img := Some (s, true) |})
  /\ (forall s : string,
        backgroundUrl w = s ->
        String.prefix "gradient:" s = true \/ s = "" ->
        SharedBackground (Some (exec setLoaded w))
        = SharedBackground (Some w)).
Proof.
  unfold SharedBackground, useBackground, useContext.
  cbn [fmap option_fmap option_map].
  split.
  - intros s Hs Hp Hne.
    rewrite (render_image_url _ s); [reflexivity | exact Hs | exact Hp
                                    | exact Hne].
  - intros s Hs H. unfold render. cbn [provider_value ctx_backgroundUrl
      ctx_isLoaded exec setLoaded setIsLoaded modify snd with_isLoaded
      backgroundUrl].
    rewrite Hs. destruct H as [H | H]; rewrite H; reflexivity.
Qed.

(** ** Cache busting *)

Lemma source_stamp_inj (w w' : World) (u : string) :
  u ∈ sources_of w -> u ∈ sources_of w' -> clock w = clock w'.
Proof.
  unfold sources_of, image_sources. intros H H'.
  repeat (apply elem_of_cons in H as [H | H]);
    [| | |apply elem_of_nil in H; destruct H];
    subst u;
    (repeat (apply elem_of_cons in H' as [H' | H']);
     [| | |apply elem_of_nil in H'; destruct H']);
    try (cbv [String.append] in H'; discriminate H').
  - apply (inj (String.append _)) in H'.
    destruct (isMobile w), (isMobile w');
      try (cbv [String.append] in H'; discriminate H');
      apply (inj (String.append _)) in H';
      apply (inj (String.append _)) in H';
      apply (inj pretty) in H'; exact H'.
  - apply (inj (String.append _)) in H'. apply (inj pretty) in H'. exact H'.
  - apply (inj (String.append _)) in H'. apply (inj pretty) in H'. exact H'.
Qed.

(** X16: the cache-busting stamp works.  The three sources of one
    resolution are pairwise different, every request of a resolution
    carries the time at which the resolution started, and two resolutions
    started at different times never request the same URL. *)
Theorem X16_cache_busting (w w' : World) :
  NoDup (sources_of w)
  /\ (forall a,
        a ∈ drop (length (requests w))
              (requests (exec tryLoadImageFromSources w)) ->
        req_url a ∈ sources_of w)
  /\ (clock w <> clock w' ->
      forall a a',
        a ∈ drop (length (requests w))
              (requests (exec tryLoadImageFromSources w)) ->
        a' ∈ drop (length (requests w'))
               (requests (exec tryLoadImageFromSources w')) ->
        req_url a <> req_url a').
Proof.
  assert (Hreq : forall (v : World) (a : Attempt),
             a ∈ drop (length (requests v))
                   (requests (exec tryLoadImageFromSources v)) ->
             req_url a ∈ sources_of v).
  { intros v a Ha.
    change (exec tryLoadImageFromSources v)
      with (exec (for_sources (sources_of v)) v) in Ha.
    destruct (for_sources_prefix v (sources_of v)) as (tried & Hp & He & _).
    rewrite He, after_attempts_requests, drop_app_length in Ha.
    destruct Hp as [k Hk]. rewrite Hk. apply elem_of_app. left.
    rewrite <- (log_of_urls v tried). apply list_elem_of_fmap_2, Ha. }
  split; [|split].
  - unfold sources_of, image_sources.
    repeat (apply NoDup_cons; split);
      [| |apply not_elem_of_nil|apply NoDup_nil; exact I];
      rewrite ?not_elem_of_cons; repeat split;
      try apply not_elem_of_nil;
      intros H; cbv [String.append] in H; discriminate H.
  - apply Hreq.
  - intros Hne a a' Ha Ha' Heq. apply Hne.
    apply (source_stamp_inj w w' (req_url a)); [apply Hreq, Ha|].
    rewrite Heq. apply Hreq, Ha'.
Qed.

(** ** Never blank *)

Lemma FALLBACK_GRADIENTS_nonempty (g : string) :
  g ∈ FALLBACK_GRADIENTS -> g <> "".
Proof.
  revert g. apply Forall_forall. unfold FALLBACK_GRADIENTS.
  repeat constructor; discriminate.
Qed.

Lemma render_gradient (context : BackgroundContextType) (g : string) :
  ctx_backgroundUrl context = "gradient:" +:+ g ->
  g <> "" ->
  render context = Ok {| style_background := Some g; img := None |}.
Proof.
  intros Hu Hg. unfold render. rewrite Hu.
  destruct (strip_gradient_prefix g) as [Hp Hr]. rewrite Hp, Hr.
  apply String.eqb_neq in Hg. rewrite Hg. reflexivity.
Qed.

(** X17: the surface is never left blank.  After a mount that found no
    record in the cache, and after every refresh, whatever the store, the
    network and the events in between do, [SharedBackground] draws
    something: a gradient of the palette, or one of the image sources of
    that resolution (after a mount, not yet revealed). *)
Theorem X17_never_blank (w : World) (evs : list Event) :
  next_random_ok w ->
  (misses w = true ->
   let w' := exec (mount evs) w in
   (exists g,
      g ∈ FALLBACK_GRADIENTS
      /\ SharedBackground (Some w')
         = Ok {| style_background := Some g; img := None |})
   \/ (exists u,
         u ∈ sources_of w
         /\ SharedBackground (Some w')
            = Ok {| style_background := None; img := Some (u, false) |}))
  /\ (let w' := exec (refreshBackground evs) w in
      (exists g,
         g ∈ FALLBACK_GRADIENTS
         /\ SharedBackground (Some w')
            = Ok {| style_background := Some g; img := None |})
      \/ (exists u,
            u ∈ sources_of w
            /\ SharedBackground (Some w')
               = Ok {| style_background := None;
                       img := Some (u, arrives ev_setLoaded evs) |})).
Proof.
  intros Hrand.
  destruct (drawn_gradient_uniform w Hrand) as [Hin _].
  pose proof (FALLBACK_GRADIENTS_nonempty _ Hin) as Hg.
  assert (Hdraw : forall v : World,
             backgroundUrl v = "gradient:" +:+ drawn_gradient w ->
             SharedBackground (Some v)
             = Ok {| style_background := Some (drawn_gradient w);
                     img := None |}).
  { intros v Hv. unfold SharedBackground, useBackground, useContext.
    cbn [fmap option_fmap option_map].
    apply render_gradient; [exact Hv | exact Hg]. }
  assert (Himg : forall (v : World) (u : string) (b : bool),
             u ∈ sources_of w -> u <> "" ->
             backgroundUrl v = u -> isLoaded v = b ->
             SharedBackground (Some v)
             = Ok {| style_background := None; img := Some (u, b) |}).
  { intros v u b Hu Hne Hv Hb.
    unfold SharedBackground, useBackground, useContext.
    cbn [fmap option_fmap option_map].
    rewrite (render_image_url _ u).
    - cbn [provider_value ctx_isLoaded]. rewrite Hb. reflexivity.
    - exact Hv.
    - apply (sources_of_not_gradient w u Hu).
    - exact Hne. }
  split.
  - intros Hmiss w'.
    destruct (mount_start_miss_state w Hmiss) as (Hu1&_).
    destruct (resumed_frame evs (exec mount_start w))
      as (_&_&_&_&_&_&Hu'&_).
    destruct (first_loading w (sources_of w)) as [u|] eqn:Hfl;
      [destruct (arrives ev_unmount evs) eqn:Hun|].
    + left. exists (drawn_gradient w). split; [exact Hin|]. apply Hdraw.
      unfold w', exec at 1.
      rewrite (mount_miss_kept w Hmiss evs) by (right; exact Hun).
      cbn [snd]. rewrite Hu', Hu1. reflexivity.
    + right. exists u. destruct (first_loading_elem _ _ _ Hfl) as (Hu & _ & Hne).
      split; [exact Hu|].
      set (wx := with_isLoaded false
                   (with_backgroundUrl u (resumed evs (exec mount_start w)))).
      destruct (setCachedBackground_frame image u wx)
        as (_ & _&_&_&_&_&_&Hb&Hl&_).
      assert (Ew : w' = exec (setCachedBackground image u) wx)
        by (unfold w', exec at 1;
            rewrite (mount_miss_adopted w Hmiss evs u Hfl Hun); reflexivity).
      apply Himg; [exact Hu | exact Hne | |]; rewrite Ew.
      * rewrite Hb. reflexivity.
      * rewrite Hl. reflexivity.
    + left. exists (drawn_gradient w). split; [exact Hin|]. apply Hdraw.
      unfold w', exec at 1.
      rewrite (mount_miss_kept w Hmiss evs) by (left; exact Hfl).
      cbn [snd]. rewrite Hu', Hu1. reflexivity.
  - intros w'. unfold w', exec. rewrite refreshBackground_unfold.
    destruct (resumed_frame evs (with_isLoaded false w))
      as (_&_&_&_&_&_&_&Hl'&_).
    simpl in Hl'.
    destruct (tryLoadImageFromSources_result (with_isLoaded false w))
      as [E | (u & E & Hne & _ & Hu)].
    + left. exists (drawn_gradient w). split; [exact Hin|]. apply Hdraw.
      rewrite (refresh_rest_failed evs _ E). cbn [snd].
      set (wx := with_backgroundUrl _ _).
      destruct (setCachedBackground_frame gradient
                  (drawn_gradient (with_isLoaded false w)) wx)
        as (_ & _&_&_&_&_&_&Hb&_).
      cbn [backgroundUrl with_isLoaded]. rewrite Hb. reflexivity.
    + right. exists u. split; [exact Hu|].
      rewrite (refresh_rest_found evs _ u E Hne). cbn [snd].
      set (wx := with_backgroundUrl _ _).
      destruct (setCachedBackground_frame image u wx)
        as (_ & _&_&_&_&_&_&Hb&Hl&_).
      apply Himg; [exact Hu | exact Hne | |].
      * rewrite Hb. reflexivity.
      * rewrite Hl. exact Hl'.
Qed.

(** With storage blocked and every source failing, a mount and a refresh
    still show a gradient of the palette. *)
Lemma X17_witness :
  let w :=
    with_localStorage {| blocked := true; full := false; items := ∅ |}
      (browser None offline) in
  (misses w = true ->
   let w' := exec (mount [ev_unmount]) w in
   (exists g,
      g ∈ FALLBACK_GRADIENTS
      /\ SharedBackground (Some w')
         = Ok {| style_background := Some g; img := None |})
   \/ (exists u,
         u ∈ sources_of w
         /\ SharedBackground (Some w')
            = Ok {| style_background := None; img := Some (u, false) |}))
  /\ (let w' := exec (refreshBackground [ev_unmount]) w in
      (exists g,
         g ∈ FALLBACK_GRADIENTS
         /\ SharedBackground (Some w')
            = Ok {| style_background := Some g; img := None |})
      \/ (exists u,
            u ∈ sources_of w
            /\ SharedBackground (Some w')
               = Ok {| style_background := None;
                       img := Some (u, arrives ev_setLoaded [ev_unmount]) |})).
Proof.
  apply (X17_never_blank
           (with_localStorage {| blocked := true; full := false; items := ∅ |}
              (browser None offline))
           [ev_unmount]).
  repeat split; vm_compute; congruence.
Defined.

(** ** What gets logged *)

Lemma only_cache_errors_eq (l l' : list (string * Exn)) :
  l' = l -> only_cache_errors l l'.
Proof. intros ->. exists []. split; [symmetry; apply app_nil_r | constructor]. Qed.

Lemma only_cache_errors_trans (l1 l2 l3 : list (string * Exn)) :
  only_cache_errors l1 l2 -> only_cache_errors l2 l3 ->
  only_cache_errors l1 l3.
Proof.
  intros (e1 & -> & H1) (e2 & -> & H2). exists (e1 ++ e2).
  split; [symmetry; apply app_assoc | apply Forall_app; auto].
Qed.

(** A write logs nothing when the store takes it, and one report of the
    failed write at most otherwise. *)
Lemma console_after_write (ty : BgType) (val : string) (w : World) :
  only_cache_errors (console w) (console (exec (setCachedBackground ty val) w))
  /\ (writable w = true ->
      console (exec (setCachedBackground ty val) w) = console w).
Proof.
  split.
  - unfold exec.
    destruct (setCachedBackground_cases ty val w) as [E | [E | [e E]]];
      rewrite E; cbn [snd]; try (apply only_cache_errors_eq; reflexivity).
    exists [("Failed to cache background:", e)].
    split; [reflexivity | repeat constructor].
  - intros Hw. unfold exec.
    rewrite (setCachedBackground_writable ty val w Hw). reflexivity.
Qed.

Lemma console_after_loadRealImage (evs : list Event) (w : World) :
  only_cache_errors (console w) (console (exec (loadRealImage evs) w))
  /\ (writable w = true -> console (exec (loadRealImage evs) w) = console w).
Proof.
  destruct (resumed_frame evs w) as (_&_&_&_&_&Hc&_).
  assert (Hkept : loadRealImage evs w = (Ok tt, resumed evs w) ->
                  only_cache_errors (console w)
                    (console (exec (loadRealImage evs) w))
                  /\ (writable w = true ->
                      console (exec (loadRealImage evs) w) = console w)).
  { intros E. unfold exec. rewrite E. cbn [snd].
    split; [apply only_cache_errors_eq, Hc | intros _; exact Hc]. }
  destruct (tryLoadImageFromSources_result w) as [E | (u & E & Hne & _)].
  - apply Hkept, loadRealImage_kept. left. exact E.
  - destruct (mounted (resumed evs w)) eqn:Hm.
    + set (wx := with_isLoaded false (with_backgroundUrl u (resumed evs w))).
      assert (Ew : exec (loadRealImage evs) w
                   = exec (setCachedBackground image u) wx)
        by (unfold exec at 1; rewrite (loadRealImage_adopted evs w u E Hne Hm);
            reflexivity).
      destruct (console_after_write image u wx) as [H1 H2].
      change (console wx) with (console (resumed evs w)) in H1, H2.
      rewrite Hc in H1, H2. rewrite Ew. split; [exact H1|].
      intros Hw. apply H2.
      change (writable (resumed evs w) = true).
      rewrite writable_resumed. exact Hw.
    + apply Hkept, loadRealImage_kept. right. exact Hm.
Qed.

(** X18: the only thing the module ever logs is a failed cache write.
    Mounting and refreshing, with any events, add nothing to the console
    but reports of failed cache writes, and add nothing at all when the
    store takes writes; in particular the report of a failed image load in
    [initBackground] is never made. *)
Theorem X18_only_cache_errors_logged (w : World) (evs : list Event) :
  only_cache_errors (console w) (console (exec (mount evs) w))
  /\ only_cache_errors (console w)
       (console (exec (refreshBackground evs) w))
  /\ (writable w = true ->
      console (exec (mount evs) w) = console w
      /\ console (exec (refreshBackground evs) w) = console w)
  /\ (forall entry,
        entry ∈ console (exec (mount evs) w) ->
        fst entry = "Failed to load background image:" ->
        entry ∈ console w).
Proof.
  assert (Hmount : only_cache_errors (console w) (console (exec (mount evs) w))
                   /\ (writable w = true ->
                       console (exec (mount evs) w) = console w)).
  { destruct (misses w) eqn:Hread.
    - assert (Em : exec (mount evs) w
                   = exec (loadRealImage evs) (exec mount_start w))
        by (unfold exec at 1; rewrite (mount_miss_unfold w evs Hread);
            reflexivity).
      rewrite Em.
      destruct (console_after_loadRealImage evs (exec mount_start w))
        as [H1 H2].
      destruct (console_after_write gradient (drawn_gradient w)
                  (gradient_shown w)) as [H3 H4].
      destruct (missed_frame w) as (_&_&_&_&_&_&Hc&_).
      change (console (gradient_shown w)) with (console (missed w)) in H3, H4.
      rewrite Hc in H3, H4.
      assert (Ew : exec mount_start w
                   = exec (setCachedBackground gradient (drawn_gradient w))
                       (gradient_shown w))
        by (unfold exec at 1; rewrite (mount_start_miss w Hread); reflexivity).
      rewrite <- Ew in H3, H4.
      split.
      + eapply only_cache_errors_trans; [exact H3 | exact H1].
      + intros Hw. rewrite H2.
        * apply H4. rewrite writable_gradient_shown. exact Hw.
        * rewrite (writable_at_await w Hread). exact Hw.
    - destruct (mount_hit_frame w evs Hread) as (_&_&_&Hc&_).
      split; [apply only_cache_errors_eq, Hc | intros _; exact Hc]. }
  assert (Hrefresh :
            only_cache_errors (console w)
              (console (exec (refreshBackground evs) w))
            /\ (writable w = true ->
                console (exec (refreshBackground evs) w) = console w)).
  { unfold exec. rewrite refreshBackground_unfold.
    destruct (resumed_frame evs (with_isLoaded false w))
      as (_&_&_&_&_&Hc&_).
    change (console (with_isLoaded false w)) with (console w) in Hc.
    destruct (tryLoadImageFromSources_result (with_isLoaded false w))
      as [E | (u & E & Hne & _)].
    - rewrite (refresh_rest_failed evs _ E). cbn [snd].
      set (wx := with_backgroundUrl _ _).
      destruct (console_after_write gradient
                  (drawn_gradient (with_isLoaded false w)) wx) as [H1 H2].
      change (console wx) with (console (resumed evs (with_isLoaded false w)))
        in H1, H2.
      rewrite Hc in H1, H2. split; [exact H1|].
      intros Hw. apply H2.
      change (writable (resumed evs (with_isLoaded false w)) = true).
      rewrite writable_resumed. exact Hw.
    - rewrite (refresh_rest_found evs _ u E Hne). cbn [snd].
      set (wx := with_backgroundUrl _ _).
      destruct (console_after_write image u wx) as [H1 H2].
      change (console wx) with (console (resumed evs (with_isLoaded false w)))
        in H1, H2.
      rewrite Hc in H1, H2. split; [exact H1|].
      intros Hw. apply H2.
      change (writable (resumed evs (with_isLoaded false w)) = true).
      rewrite writable_resumed. exact Hw. }
  destruct Hmount as [Hm1 Hm2]. destruct Hrefresh as [Hr1 Hr2].
  split; [exact Hm1|]. split; [exact Hr1|]. split; [auto|].
  intros entry Hin Hmsg. destruct Hm1 as (extra & Hx & Hall).
  rewrite Hx in Hin. apply elem_of_app in Hin as [Hin | Hin]; [exact Hin|].
  rewrite Forall_forall in Hall. specialize (Hall entry Hin).
  rewrite Hmsg in Hall. discriminate.
Qed.

(** ** Bounded effort *)

Lemma bounded_effort_resolution (w : World) :
  bounded_effort w (exec tryLoadImageFromSources w).
Proof.
  change (exec tryLoadImageFromSources w)
    with (exec (for_sources (sources_of w)) w).
  destruct (for_sources_prefix w (sources_of w)) as (tried & Hp & He & _).
  rewrite He. exists (log_of w tried).
  pose proof (prefix_length _ _ Hp) as Hlen.
  change (length (sources_of w)) with 3%nat in Hlen.
  assert (Hll : length (log_of w tried) = length tried)
    by (rewrite <- (log_of_urls w tried) at 2; symmetry; apply length_map).
  split; [apply after_attempts_requests|]. split; [lia|].
  pose proof (chained_span _ _ _ (log_of_chained w tried)) as Hspan.
  unfold LOAD_TIMEOUT in *. lia.
Qed.

(** Steps that neither request nor wait do not add to the effort. *)
Lemma bounded_effort_frame (w0 w w1 w2 : World) :
  requests w0 = requests w -> clock w0 = clock w ->
  bounded_effort w0 w1 ->
  requests w2 = requests w1 -> clock w2 = clock w1 ->
  bounded_effort w w2.
Proof.
  intros Hq0 Hc0 (log & Hq & Hn & Hc) Hq2 Hc2.
  exists log. rewrite Hq2, Hc2, <- Hq0, <- Hc0. auto.
Qed.

Lemma bounded_effort_none (w w' : World) :
  requests w' = requests w -> clock w' = clock w -> bounded_effort w w'.
Proof.
  intros Hq Hc. exists []. rewrite Hq, Hc, app_nil_r.
  unfold LOAD_TIMEOUT. simpl. repeat split; lia.
Qed.

(** X19: mounting and refreshing are bounded.  Whatever the cache, the
    network and the events do, a mount and a refresh each make at most
    three image requests, never turn the clock back, and are over within
    three timeouts, 24 seconds. *)
Theorem X19_bounded_effort (w : World) (evs : list Event) :
  bounded_effort w (exec (mount evs) w)
  /\ bounded_effort w (exec (refreshBackground evs) w)
  /\ 3 * LOAD_TIMEOUT = 24000.
Proof.
  split; [|split; [|reflexivity]].
  - destruct (misses w) eqn:Hread.
    + destruct (mount_start_miss_state w Hread) as (_&_&_&Hq1&Hc1&_).
      pose proof (bounded_effort_resolution (exec mount_start w)) as Hb.
      assert (Em : exec (mount evs) w
                   = exec (loadRealImage evs) (exec mount_start w))
        by (unfold exec at 1; rewrite (mount_miss_unfold w evs Hread);
            reflexivity).
      rewrite Em.
      destruct (tryLoadImageFromSources_result (exec mount_start w))
        as [E | (u & E & Hne & _)];
        [|destruct (mounted (resumed evs (exec mount_start w))) eqn:Hm].
      * unfold exec at 1. rewrite loadRealImage_kept by (left; exact E).
        apply (bounded_effort_frame _ _ _ _ Hq1 Hc1 Hb); reflexivity.
      * unfold exec at 1.
        rewrite (loadRealImage_adopted evs _ u E Hne Hm). cbn [snd].
        set (wx := with_isLoaded false _).
        destruct (setCachedBackground_frame image u wx)
          as (_ & _&Hc&_&_&_&Hq&_).
        apply (bounded_effort_frame _ _ _ _ Hq1 Hc1 Hb);
          [rewrite Hq | rewrite Hc]; reflexivity.
      * unfold exec at 1. rewrite loadRealImage_kept by (right; exact Hm).
        apply (bounded_effort_frame _ _ _ _ Hq1 Hc1 Hb); reflexivity.
    + destruct (mount_hit_frame w evs Hread) as (_&Hc&Hq&_).
      apply bounded_effort_none; assumption.
  - unfold exec. rewrite refreshBackground_unfold.
    pose proof (bounded_effort_resolution (with_isLoaded false w)) as Hb.
    destruct (tryLoadImageFromSources_result (with_isLoaded false w))
      as [E | (u & E & Hne & _)].
    + rewrite (refresh_rest_failed evs _ E). cbn [snd].
      set (wx := with_backgroundUrl _ _).
      destruct (setCachedBackground_frame gradient
                  (drawn_gradient (with_isLoaded false w)) wx)
        as (_ & _&Hc&_&_&_&Hq&_).
      apply (bounded_effort_frame (with_isLoaded false w) w _ _
               eq_refl eq_refl Hb).
      * cbn [requests with_isLoaded]. rewrite Hq. reflexivity.
      * cbn [clock with_isLoaded]. rewrite Hc. reflexivity.
    + rewrite (refresh_rest_found evs _ u E Hne). cbn [snd].
      set (wx := with_backgroundUrl _ _).
      destruct (setCachedBackground_frame image u wx)
        as (_ & _&Hc&_&_&_&Hq&_).
      apply (bounded_effort_frame (with_isLoaded false w) w _ _
               eq_refl eq_refl Hb);
        [rewrite Hq | rewrite Hc]; reflexivity.
Qed.
